(** * Outage-schedule core of the lybohora bot: a shallow embedding

    The development follows [src/utils.ts] (text extraction, interval
    parsing, status evaluation) and [buildScheduleContent] of the bot's
    entry module (the content string compared between two polls).

    Conventions of the embedding.

    - A JavaScript string is the list of its UTF-16 code units
      ([jsstring]); literals of the source are written as Rocq strings
      (UTF-8 bytes) and decoded by [js].
    - A [dayjs] object is the wall-clock instant it denotes, in
      milliseconds on a timeline whose days all have 24 hours (the zone
      offset is constant over the days under consideration).  Setters
      overflow into the next unit exactly as [Date.prototype.setHours]
      and friends do.
    - [baseDate] and [now] are always passed by the callers that matter
      here; the ambient-clock default of an omitted argument is resolved
      by the caller. *)

From Stdlib Require Import String Ascii ZArith NArith List Sorted Bool Lia.
Import ListNotations.

(* ------------------------------------------------------------------ *)
(** ** JavaScript strings *)

Module JsString.

Definition jsstring := list N.

(** *** Decoding of source literals (UTF-8 to UTF-16) *)

Record decoder := mkDecoder {
  pending : N;        (* code point bits gathered so far *)
  missing : nat;      (* continuation bytes still expected *)
  emitted : jsstring  (* code units produced, reversed *)
}.

Definition emit (cp : N) (out : jsstring) : jsstring :=
  if (cp <? 65536)%N then cp :: out
  else
    let v := (cp - 65536)%N in
    (56320 + N.land v 1023)%N :: (55296 + N.shiftr v 10)%N :: out.

Definition feed (d : decoder) (b : N) : decoder :=
  match missing d with
  | O =>
      if (b <? 128)%N then mkDecoder 0 0 (emit b (emitted d))
      else if (b <? 224)%N then mkDecoder (N.land b 31) 1 (emitted d)
      else if (b <? 240)%N then mkDecoder (N.land b 15) 2 (emitted d)
      else mkDecoder (N.land b 7) 3 (emitted d)
  | S k =>
      let cp := (N.shiftl (pending d) 6 + N.land b 63)%N in
      match k with
      | O => mkDecoder 0 0 (emit cp (emitted d))
      | _ => mkDecoder cp k (emitted d)
      end
  end.

Definition js (s : string) : jsstring :=
  rev (emitted (fold_left feed
                  (map N_of_ascii (list_ascii_of_string s))
                  (mkDecoder 0 0 []))).

(** *** String primitives used by the source *)

Fixpoint eqs (a b : jsstring) : bool :=
  match a, b with
  | [], [] => true
  | x :: a', y :: b' => (x =? y)%N && eqs a' b'
  | _, _ => false
  end.

(** [s.startsWith(p)] *)
Fixpoint startsWith (s p : jsstring) : bool :=
  match p, s with
  | [], _ => true
  | x :: p', y :: s' => (x =? y)%N && startsWith s' p'
  | _ :: _, [] => false
  end.

(** [s.includes(p)] *)
Fixpoint includes (s p : jsstring) : bool :=
  startsWith s p ||
  match s with
  | [] => false
  | _ :: s' => includes s' p
  end.

(** WhiteSpace and LineTerminator code units: the set removed by
    [trim] and matched by the regular-expression class [\s]. *)
Definition isWhiteSpace (c : N) : bool :=
  ((9 <=? c) && (c <=? 13) || (c =? 32) || (c =? 160) || (c =? 5760)
   || (8192 <=? c) && (c <=? 8202) || (c =? 8232) || (c =? 8233)
   || (c =? 8239) || (c =? 8287) || (c =? 12288) || (c =? 65279))%N.

(** Line terminators: the code units the regular-expression dot refuses. *)
Definition isLineTerminator (c : N) : bool :=
  ((c =? 10) || (c =? 13) || (c =? 8232) || (c =? 8233))%N.

Definition isDigit (c : N) : bool := ((48 <=? c) && (c <=? 57))%N.

Fixpoint dropWhile (p : N -> bool) (s : jsstring) : jsstring :=
  match s with
  | [] => []
  | c :: s' => if p c then dropWhile p s' else s
  end.

Fixpoint takeWhile (p : N -> bool) (s : jsstring) : jsstring :=
  match s with
  | [] => []
  | c :: s' => if p c then c :: takeWhile p s' else []
  end.

Definition trimStart (s : jsstring) : jsstring := dropWhile isWhiteSpace s.
Definition trimEnd (s : jsstring) : jsstring := rev (trimStart (rev s)).
Definition trim (s : jsstring) : jsstring := trimEnd (trimStart s).

(** [s.split(sep)] for a one-unit separator: never the empty list. *)
Fixpoint split (sep : N) (s : jsstring) : list jsstring :=
  match s with
  | [] => [[]]
  | c :: s' =>
      if (c =? sep)%N then [] :: split sep s'
      else match split sep s' with
           | piece :: more => (c :: piece) :: more
           | [] => [[c]]
           end
  end.

(** [pieces.join(sep)] *)
Fixpoint join (sep : jsstring) (pieces : list jsstring) : jsstring :=
  match pieces with
  | [] => []
  | [p] => p
  | p :: more => p ++ sep ++ join sep more
  end.

(** Unary plus on a string of decimal digits. *)
Definition toNumber (s : jsstring) : Z :=
  fold_left (fun acc c => (10 * acc + (Z.of_N c - 48))%Z) s 0%Z.

(** *** Fixed-width regular expressions

    Every pattern of the source is a sequence of literal units and [\d],
    possibly followed by a greedy tail; a sequence matches at the head of
    a string or not at all, so no backtracking is involved. *)

Inductive item := Lit (c : N) | Digit.

Definition lits (s : jsstring) : list item := map Lit s.

Fixpoint matchItems (p : list item) (s : jsstring) : bool :=
  match p, s with
  | [], _ => true
  | Lit x :: p', c :: s' => (c =? x)%N && matchItems p' s'
  | Digit :: p', c :: s' => isDigit c && matchItems p' s'
  | _ :: _, [] => false
  end.

(** Leftmost match: the suffix of [s] that starts with the match. *)
Fixpoint findMatch (p : list item) (s : jsstring) : option jsstring :=
  if matchItems p s then Some s
  else match s with
       | [] => None
       | _ :: s' => findMatch p s'
       end.

End JsString.
Import JsString.

(* ------------------------------------------------------------------ *)
(** ** Instants: the part of dayjs the source uses *)

Module Dayjs.

Local Open Scope Z_scope.

Definition Instant := Z.

Definition SECOND : Z := 1000.
Definition MINUTE : Z := 60000.
Definition HOUR : Z := 3600000.
Definition DAY : Z := 86400000.

(** [t.startOf('day')] *)
Definition startOfDay (t : Instant) : Instant := t - t mod DAY.

(** Getters [t.hour()] and [t.minute()]. *)
Definition hour (t : Instant) : Z := (t mod DAY) / HOUR.
Definition minute (t : Instant) : Z := (t mod HOUR) / MINUTE.

(** Setters [t.hour(h)], [t.minute(m)], [t.second(s)], [t.millisecond(x)]:
    the named field is replaced, the smaller fields are kept, and a value
    beyond the field's range carries into the larger fields. *)
Definition setHour (t : Instant) (h : Z) : Instant :=
  t - t mod DAY + h * HOUR + t mod HOUR.
Definition setMinute (t : Instant) (m : Z) : Instant :=
  t - t mod HOUR + m * MINUTE + t mod MINUTE.
Definition setSecond (t : Instant) (s : Z) : Instant :=
  t - t mod MINUTE + s * SECOND + t mod SECOND.
Definition setMillisecond (t : Instant) (x : Z) : Instant :=
  t - t mod SECOND + x.

(** [t.add(n, 'day')] *)
Definition addDays (t : Instant) (n : Z) : Instant := t + n * DAY.

(** [a.isBefore(b)], [a.isAfter(b)] *)
Definition isBefore (a b : Instant) : bool := a <? b.
Definition isAfter (a b : Instant) : bool := b <? a.

(** [t.isBetween(a, b, null, '[)')] of the isBetween plugin, which also
    accepts the two bounds in reverse order. *)
Definition isBetween (t a b : Instant) : bool :=
  (negb (isBefore t a) && isBefore t b)
  || (negb (isAfter t a) && isAfter t b).

(** [a.diff(b, 'minute')]: the quotient is truncated towards zero. *)
Definition diffMinutes (a b : Instant) : Z := Z.quot (a - b) MINUTE.

(** Day of the month in the proleptic Gregorian calendar, by the usual
    era computation: a day number counted from 1970-01-01 is placed in its
    400-year cycle (146097 days, starting on a 1st of March), then in its
    year of the cycle, then in its month. *)
Definition yearOfCycle (doe : Z) : Z :=
  (doe - doe / 1460 + doe / 36524 - doe / 146096) / 365.

Definition dayOfYear (doe : Z) : Z :=
  let yoe := yearOfCycle doe in
  doe - (365 * yoe + yoe / 4 - yoe / 100).

Definition dayInYear (doy : Z) : Z :=
  let mp := (5 * doy + 2) / 153 in
  doy - (153 * mp + 2) / 5 + 1.

Definition dayOfCycle (doe : Z) : Z := dayInYear (dayOfYear doe).

Definition dayOfMonth (days : Z) : Z :=
  dayOfCycle ((days + 719468) mod 146097).

(** [t.date()] *)
Definition date (t : Instant) : Z := dayOfMonth (t / DAY).

End Dayjs.
Import Dayjs.

Local Open Scope Z_scope.

(* ------------------------------------------------------------------ *)
(** ** src/types.ts *)

Record Range := mkRange { start : Instant; end_ : Instant }.

Record ElectricityStatusResult := mkStatus {
  isOn : bool;
  minutesUntilChange : option Z;
  isTomorrow : bool;
  tomorrowFirstOutage : option jsstring;
  hasTomorrowSchedule : bool
}.

(* ------------------------------------------------------------------ *)
(** ** src/utils.ts: parseTimeRanges, getFirstOutageTime *)

(** [\d{2}:\d{2}] *)
Definition timeRe : list item := [Digit; Digit; Lit 58; Digit; Digit].

(** [/з (\d{2}:\d{2}) до (\d{2}:\d{2})/g] *)
Definition rangeRe : list item :=
  Eval vm_compute in lits (js "з ") ++ timeRe ++ lits (js " до ") ++ timeRe.

(** The two capture groups of a match of [rangeRe] at the head of [s]. *)
Definition startStrOf (s : jsstring) : jsstring := firstn 5 (skipn 2 s).
Definition endStrOf (s : jsstring) : jsstring := firstn 5 (skipn 11 s).

(** The [while ((match = regex.exec(groupText)) !== null)] loop: all
    matches from left to right, the search resuming right after each
    match.  [skip] counts the units of the current match still to be
    stepped over (a match is 16 units long). *)
Fixpoint execAll (skip : nat) (s : jsstring) : list (jsstring * jsstring) :=
  match s with
  | [] => []
  | _ :: s' =>
      match skip with
      | S k => execAll k s'
      | O =>
          if matchItems rangeRe s
          then (startStrOf s, endStrOf s) :: execAll 15 s'
          else execAll 0 s'
      end
  end.

Definition midnightStr : jsstring := Eval vm_compute in js "24:00".

(** [+str.split(':')[0]] and [+str.split(':')[1]] *)
Definition hoursOf (str : jsstring) : Z :=
  toNumber (nth 0 (split 58 str) []).
Definition minutesOf (str : jsstring) : Z :=
  toNumber (nth 1 (split 58 str) []).

(** [base.hour(h).minute(m).second(0).millisecond(0)] for the hour and
    minute written in [str]. *)
Definition clockOn (base : Instant) (str : jsstring) : Instant :=
  setMillisecond
    (setSecond (setMinute (setHour base (hoursOf str)) (minutesOf str)) 0)
    0.

(** Body of the loop of [parseTimeRanges] for one match. *)
Definition rangeOfMatch (base : Instant) (m : jsstring * jsstring) : Range :=
  let startStr := fst m in
  let endStr := snd m in
  let start := clockOn base startStr in
  let end0 := clockOn base endStr in
  (* Handle 24:00 as next day 00:00 *)
  let end1 :=
    if eqs endStr midnightStr
    then setMillisecond
           (setSecond (setMinute (setHour (addDays base 1) 0) 0) 0) 0
    else end0 in
  (* If end is before start, it means it crosses midnight *)
  let end2 := if isBefore end1 start then addDays end1 1 else end1 in
  mkRange start end2.

(** [ranges.sort((a, b) => a.start.valueOf() - b.start.valueOf())]: the
    sort of the language is stable, so the result is the one of a stable
    insertion sort. *)
Fixpoint insertRange (r : Range) (l : list Range) : list Range :=
  match l with
  | [] => [r]
  | y :: l' =>
      if (start y <? start r)%Z then y :: insertRange r l' else r :: l
  end.

Fixpoint sortRanges (l : list Range) : list Range :=
  match l with
  | [] => []
  | r :: l' => insertRange r (sortRanges l')
  end.

Definition parseTimeRanges (groupText : jsstring) (baseDate : Instant)
  : list Range :=
  sortRanges (map (rangeOfMatch baseDate) (execAll 0 groupText)).

(** [/з (\d{2}:\d{2}) до/] *)
Definition firstOutageRe : list item :=
  Eval vm_compute in lits (js "з ") ++ timeRe ++ lits (js " до").

Definition getFirstOutageTime (groupText : jsstring) : option jsstring :=
  match findMatch firstOutageRe groupText with
  | Some s => Some (startStrOf s)
  | None => None
  end.

(* ------------------------------------------------------------------ *)
(** ** src/utils.ts: extractGroupText *)

Section Extract.

(** [cheerio.load(html)] followed by [$('p')]: the [text()] of every
    paragraph element of the document, in document order.  The markup
    parser is a library outside this repository. *)
Variable paragraphs : jsstring -> list jsstring.

Definition groupPrefix (group : jsstring) : jsstring :=
  js "Група " ++ group ++ js ".".

(** One call of the [each] callback: [groupText] is the captured
    variable the callback assigns. *)
Definition eachParagraph (group : jsstring) (groupText : option jsstring)
           (el : jsstring) : option jsstring :=
  let text := trim el in
  if startsWith text (groupPrefix group) then Some text else groupText.

Definition extractGroupText (html group : jsstring) : option jsstring :=
  match html with
  | [] => None
  | _ :: _ => fold_left (eachParagraph group) (paragraphs html) None
  end.

End Extract.

(* ------------------------------------------------------------------ *)
(** ** src/utils.ts: getElectricityStatus *)

(** Truthiness of a [string | null | undefined] argument. *)
Definition truthy (text : option jsstring) : bool :=
  match text with
  | Some (_ :: _) => true
  | _ => false
  end.

(** The [for] loop over [todayRanges].  The record carries the five
    locals [isOn], [minutesUntilChange], [isTomorrow],
    [tomorrowFirstOutage], [hasTomorrowSchedule]; [len] is
    [todayRanges.length], [i] the loop index and [rest] the ranges from
    index [i] on. *)
Fixpoint checkToday (now : Instant) (tomorrowRanges : list Range)
         (len i : nat) (rest : list Range) (st : ElectricityStatusResult)
  : ElectricityStatusResult :=
  match rest with
  | [] => st
  | r :: rest' =>
      if isBetween now (start r) (end_ r) then
        (* Currently in an outage *)
        let isLastOutageOfDay := Nat.eqb i (len - 1) in
        let extendsToMidnight :=
          (hour (end_ r) =? 0) && negb (date (end_ r) =? date now) in
        if isLastOutageOfDay && extendsToMidnight
           && (0 <? length tomorrowRanges)%nat
        then
          (* Check if tomorrow starts with an outage at 00:00 *)
          match tomorrowRanges with
          | tomorrowFirst :: _ =>
              let tomorrowStartsWithOutage :=
                (hour (start tomorrowFirst) =? 0)
                && (minute (start tomorrowFirst) =? 0) in
              if tomorrowStartsWithOutage then
                (* Power won't come back until tomorrow's first outage ends *)
                mkStatus false
                         (Some (diffMinutes (end_ tomorrowFirst) now))
                         true
                         (tomorrowFirstOutage st) (hasTomorrowSchedule st)
              else
                (* Power comes back at midnight *)
                mkStatus false (Some (diffMinutes (end_ r) now))
                         (isTomorrow st)
                         (tomorrowFirstOutage st) (hasTomorrowSchedule st)
          | [] => st (* not reached: the list was just seen non-empty *)
          end
        else
          mkStatus false (Some (diffMinutes (end_ r) now))
                   (isTomorrow st)
                   (tomorrowFirstOutage st) (hasTomorrowSchedule st)
      else if isBefore now (start r) then
        (* Power is on, next outage is upcoming *)
        mkStatus true (Some (diffMinutes (start r) now))
                 (isTomorrow st)
                 (tomorrowFirstOutage st) (hasTomorrowSchedule st)
      else checkToday now tomorrowRanges len (S i) rest' st
  end.

(** The block after the loop: "If we're past all today's outages". *)
Definition pastToday (now : Instant) (tomorrowRanges : list Range)
           (st : ElectricityStatusResult) : ElectricityStatusResult :=
  match minutesUntilChange st with
  | Some _ => st
  | None =>
      match tomorrowRanges with
      | tomorrowFirst :: _ =>
          mkStatus true (Some (diffMinutes (start tomorrowFirst) now)) true
                   (tomorrowFirstOutage st) (hasTomorrowSchedule st)
      | [] =>
          mkStatus true None (isTomorrow st)
                   (tomorrowFirstOutage st) (hasTomorrowSchedule st)
      end
  end.

Definition getElectricityStatus (todayGroupText : jsstring)
           (tomorrowGroupText : option jsstring) (now : Instant)
  : ElectricityStatusResult :=
  let todayBase := startOfDay now in
  let tomorrowBase := addDays todayBase 1 in
  let todayRanges := parseTimeRanges todayGroupText todayBase in
  let tomorrowRanges :=
    match tomorrowGroupText with
    | Some (c :: t) => parseTimeRanges (c :: t) tomorrowBase
    | _ => []
    end in
  let hasTomorrow :=
    truthy tomorrowGroupText && (0 <? length tomorrowRanges)%nat in
  let firstOutage :=
    match tomorrowGroupText with
    | Some (c :: t) => getFirstOutageTime (c :: t)
    | _ => None
    end in
  let st0 := mkStatus true None false firstOutage hasTomorrow in
  pastToday now tomorrowRanges
    (checkToday now tomorrowRanges (length todayRanges) 0 todayRanges st0).

(* ------------------------------------------------------------------ *)
(** ** src/utils.ts: parseOutageTimes, formatGroupEmoji *)

(** The literal prefix of the pattern of [parseOutageTimes]; its capture
    group is the rest of the line. *)
Definition outageRe : list item := Eval vm_compute in lits (js "немає з ").

(** [t.replace(/з\s*/, '')]: the first [з] and the white space after it. *)
Fixpoint dropFirstZ (t : jsstring) : jsstring :=
  match t with
  | [] => []
  | c :: t' =>
      if (c =? 1079)%N then dropWhile isWhiteSpace t' else c :: dropFirstZ t'
  end.

(** [t.replace(/\.$/, '')]: a full stop that ends the string. *)
Definition dropFinalDot (t : jsstring) : jsstring :=
  match rev t with
  | c :: r => if (c =? 46)%N then rev r else t
  | [] => t
  end.

Definition nonEmpty (t : jsstring) : bool :=
  match t with
  | [] => false
  | _ :: _ => true
  end.

Definition parseOutageTimes (groupText : jsstring) : list jsstring :=
  match findMatch outageRe groupText with
  | None => []
  | Some s =>
      let timesStr :=
        takeWhile (fun c => negb (isLineTerminator c)) (skipn 8 s) in
      filter nonEmpty
             (map (fun t => trim (dropFinalDot (dropFirstZ t)))
                  (split 44 timesStr))
  end.

(** [numberStr.split('').map(ch => map[ch] ?? ch).join('')]: a digit
    becomes its keycap sequence (digit, U+FE0F, U+20E3). *)
Definition numberToEmoji (numberStr : jsstring) : jsstring :=
  concat (map (fun ch => if isDigit ch then [ch; 65039%N; 8419%N] else [ch])
              numberStr).

Definition formatGroupEmoji (group : jsstring) : jsstring :=
  join [46%N] (map numberToEmoji (split 46 group)).

(* ------------------------------------------------------------------ *)
(** ** buildScheduleContent

    The module-level variable [GROUP] the function reads is an explicit
    argument. *)

Definition allDayMarker : jsstring := Eval vm_compute in js "Електроенергія є".
Definition clockIcon : jsstring := Eval vm_compute in js "⏱️ ".
Definition allDayLine : jsstring :=
  Eval vm_compute in js "✅ Електроенергія є весь день" ++ [10%N].
Definition tomorrowHeader : jsstring :=
  Eval vm_compute in [10%N] ++ js "📅 Завтра:" ++ [10%N].
Definition tomorrowAllDayLine : jsstring :=
  Eval vm_compute in
    [10%N] ++ js "📅 Завтра: ✅ Електроенергія є весь день" ++ [10%N].
Definition unavailableSuffix : jsstring :=
  Eval vm_compute in js "*: дані недоступні" ++ [10%N].

(** [times.forEach(t => { content += `⏱️ ${t}\n`; })] *)
Definition appendTimes (content : jsstring) (times : list jsstring)
  : jsstring :=
  fold_left (fun content t => content ++ clockIcon ++ t ++ [10%N])
            times content.

Definition buildScheduleContent (GROUP : jsstring)
           (todayGroupText : jsstring) (tomorrowGroupText : option jsstring)
  : jsstring :=
  let content := [] in
  (* Add today's outage times *)
  let todayTimes := parseOutageTimes todayGroupText in
  let content :=
    if (0 <? length todayTimes)%nat then appendTimes content todayTimes
    else if includes todayGroupText allDayMarker
         then content ++ allDayLine
         else content ++ [42%N] ++ GROUP ++ unavailableSuffix in
  (* Add tomorrow's schedule if available *)
  let content :=
    match tomorrowGroupText with
    | Some (c :: t) =>
        let tomorrowTimes := parseOutageTimes (c :: t) in
        if (0 <? length tomorrowTimes)%nat
        then appendTimes (content ++ tomorrowHeader) tomorrowTimes
        else if includes (c :: t) allDayMarker
             then content ++ tomorrowAllDayLine
             else content
    | _ => content
    end in
  (* Add group emoji at the bottom *)
  let emojiGroup := formatGroupEmoji GROUP in
  content ++ [10%N] ++ emojiGroup.

(* ------------------------------------------------------------------ *)
(** ** Vocabulary of the statements *)

(** Clock value, in minutes after 00:00, of a captured time string. *)
Definition clockMinutes (str : jsstring) : Z :=
  60 * hoursOf str + minutesOf str.

(** A captured time string: two digits, a colon, two digits. *)
Definition isTimeStr (str : jsstring) : Prop :=
  exists a b c d,
    str = [a; b; 58%N; c; d]
    /\ isDigit a = true /\ isDigit b = true
    /\ isDigit c = true /\ isDigit d = true.

(** [now] lies in the half-open interval of [r]. *)
Definition inside (now : Instant) (r : Range) : Prop :=
  start r <= now < end_ r.

(** What [rangeOfMatch] yields on a day that starts at [sod], in terms of
    the clock values [s] and [e] of the two captures. *)
Definition rangeAt (sod : Instant) (s e : Z) : Range :=
  mkRange (sod + s * MINUTE)
          (sod + (if e <? s then e + 1440 else e) * MINUTE).

(** A range as the parser can produce it for the day that starts at [sod]. *)
Definition parsedOn (sod : Instant) (r : Range) : Prop :=
  exists s e, 0 <= s /\ 0 <= e /\ r = rangeAt sod s e.

(** Order of the sort of [parseTimeRanges]. *)
Definition byStart (a b : Range) : Prop := start a <= start b.

(** A match whose two clock values differ, the start being less than a
    day after the end. *)
Definition regularMatch (m : jsstring * jsstring) : Prop :=
  clockMinutes (fst m) <> clockMinutes (snd m)
  /\ clockMinutes (fst m) < clockMinutes (snd m) + 1440.

(** The two lists [getElectricityStatus] walks. *)
Definition todayRangesOf (todayGroupText : jsstring) (now : Instant)
  : list Range :=
  parseTimeRanges todayGroupText (startOfDay now).

Definition tomorrowRangesOf (tomorrowGroupText : option jsstring)
           (now : Instant) : list Range :=
  match tomorrowGroupText with
  | Some (c :: t) => parseTimeRanges (c :: t) (addDays (startOfDay now) 1)
  | _ => []
  end.

(** The loop steps over [r]: [now] is neither in it nor before it. *)
Definition steppedOver (now : Instant) (r : Range) : Prop :=
  isBetween now (start r) (end_ r) = false /\ isBefore now (start r) = false.

(** *** extractGroupText *)

Definition matchesGroup (group text : jsstring) : bool :=
  startsWith text (groupPrefix group).

(** The first matching paragraph, trimmed. *)
Definition extractFirst (paragraphs : jsstring -> list jsstring)
           (html group : jsstring) : option jsstring :=
  match html with
  | [] => None
  | _ :: _ => find (matchesGroup group) (map trim (paragraphs html))
  end.

(** The last matching paragraph, trimmed. *)
Definition extractLast (paragraphs : jsstring -> list jsstring)
           (html group : jsstring) : option jsstring :=
  match html with
  | [] => None
  | _ :: _ => find (matchesGroup group) (rev (map trim (paragraphs html)))
  end.

(** *** What buildScheduleContent reads of a schedule text *)

Inductive view :=
| Labels (labels : list jsstring)
| AllDay
| NoData.

Definition viewOf (text : jsstring) : view :=
  let times := parseOutageTimes text in
  if (0 <? length times)%nat then Labels times
  else if includes text allDayMarker then AllDay else NoData.

Definition tomorrowViewOf (text : option jsstring) : view :=
  match text with
  | Some (c :: t) => viewOf (c :: t)
  | _ => NoData
  end.

Definition timeLines (times : list jsstring) : jsstring :=
  concat (map (fun t => clockIcon ++ t ++ [10%N]) times).

Definition renderToday (GROUP : jsstring) (v : view) : jsstring :=
  match v with
  | Labels l => timeLines l
  | AllDay => allDayLine
  | NoData => [42%N] ++ GROUP ++ unavailableSuffix
  end.

Definition renderTomorrow (v : view) : jsstring :=
  match v with
  | Labels l => tomorrowHeader ++ timeLines l
  | AllDay => tomorrowAllDayLine
  | NoData => []
  end.

(** A view as [viewOf] produces it: a non-empty list of labels, none of
    which contains a line feed. *)
Definition goodView (v : view) : Prop :=
  match v with
  | Labels l => l <> [] /\ Forall (fun t => ~ In 10%N t) l
  | _ => True
  end.

(** What may follow the lines of today: nothing, or a line feed. *)
Definition lineBreakOrEnd (y : jsstring) : Prop :=
  y = [] \/ exists y', y = 10%N :: y'.

(** No match of the pattern of [parseOutageTimes] begins inside [pre],
    in the text [pre ++ rest]. *)
Definition listStartsAfter (pre rest : jsstring) : bool :=
  forallb (fun k => negb (matchItems outageRe (skipn k (pre ++ rest))))
          (seq 0 (length pre)).

Definition labelsOf (text : option jsstring) : list jsstring :=
  match text with
  | Some t => parseOutageTimes t
  | None => []
  end.

Definition markedAllDay (text : option jsstring) : bool :=
  match text with
  | Some t => includes t allDayMarker
  | None => false
  end.

(* ------------------------------------------------------------------ *)
(** ** Statements that fail as worded

    Each is the reading of a sentence of the specification that the code
    does not satisfy; a counterexample below refutes it. *)

(** Midnight continuation, without any condition on the earlier ranges
    of today. *)
Definition continuationAsStated (today tomorrow : jsstring) (now : Instant)
  : Prop :=
  forall init r t rest,
    todayRangesOf today now = init ++ [r] ->
    end_ r = startOfDay now + DAY ->
    inside now r ->
    tomorrowRangesOf (Some tomorrow) now = t :: rest ->
    start t = startOfDay now + DAY ->
    let st := getElectricityStatus today (Some tomorrow) now in
    isOn st = false /\ isTomorrow st = true
    /\ minutesUntilChange st = Some (diffMinutes (end_ t) now).

(** Midnight non-continuation, likewise. *)
Definition nonContinuationAsStated (today tomorrow : jsstring)
           (now : Instant) : Prop :=
  forall init r t rest,
    todayRangesOf today now = init ++ [r] ->
    end_ r = startOfDay now + DAY ->
    inside now r ->
    tomorrowRangesOf (Some tomorrow) now = t :: rest ->
    ~ (hour (start t) = 0 /\ minute (start t) = 0) ->
    let st := getElectricityStatus today (Some tomorrow) now in
    isOn st = false /\ isTomorrow st = false
    /\ minutesUntilChange st = Some (diffMinutes (end_ r) now).

(** End-of-day sentinel, whatever the start time of the match. *)
Definition sentinelAsStated (text : jsstring) (base : Instant) : Prop :=
  forall m, In m (execAll 0 text) -> snd m = midnightStr ->
    In (rangeOfMatch base m) (parseTimeRanges text base)
    /\ end_ (rangeOfMatch base m) = addDays (startOfDay base) 1.

(** Fingerprint stability: the two today texts are [a ++ ts ++ b] for two
    stamps [ts]; the stamp takes part in no match of the range pattern,
    so both texts describe the intervals of [a] and [b]. *)
Definition stabilityAsStated (g a ts1 ts2 b : jsstring)
           (tomorrow : option jsstring) : Prop :=
  execAll 0 (a ++ ts1 ++ b) = execAll 0 a ++ execAll 0 b ->
  execAll 0 (a ++ ts2 ++ b) = execAll 0 a ++ execAll 0 b ->
  buildScheduleContent g (a ++ ts1 ++ b) tomorrow
  = buildScheduleContent g (a ++ ts2 ++ b) tomorrow.

(* ------------------------------------------------------------------ *)
(** ** Concrete inputs *)

Definition scenarioToday : jsstring :=
  Eval vm_compute in
    js "Група 1.2. Електроенергії немає з 05:30 до 12:30, з 16:00 до 21:00, з 23:00 до 24:00.".
Definition eveningToday : jsstring :=
  Eval vm_compute in
    js "Група 1.2. Електроенергії немає з 08:00 до 12:00, з 22:00 до 24:00.".
Definition afternoonToday : jsstring :=
  Eval vm_compute in
    js "Група 1.2. Електроенергії немає з 08:00 до 12:00, з 16:00 до 20:00.".
Definition overlapToday : jsstring :=
  Eval vm_compute in
    js "Група 1.2. Електроенергії немає з 10:00 до 23:30, з 22:00 до 24:00.".
Definition continuedTomorrow : jsstring :=
  Eval vm_compute in
    js "Група 1.2. Електроенергії немає з 00:00 до 02:00, з 06:00 до 10:00.".
Definition laterTomorrow : jsstring :=
  Eval vm_compute in
    js "Група 1.2. Електроенергії немає з 06:00 до 10:00, з 14:00 до 18:00.".
Definition noDataTomorrow : jsstring :=
  Eval vm_compute in js "Група 1.2. Дані відсутні.".
Definition lateStartText : jsstring :=
  Eval vm_compute in js "Група 1.2. Електроенергії немає з 25:00 до 24:00.".
Definition emptyRangeText : jsstring :=
  Eval vm_compute in js "Група 1.2. Електроенергії немає з 05:00 до 05:00.".
Definition shortToday1 : jsstring :=
  Eval vm_compute in js "Група 1.2. Електроенергії немає з 00:00 до 01:30.".
Definition shortToday2 : jsstring :=
  Eval vm_compute in js "Група 1.2. Електроенергії немає з 00:00 до 02:00.".
Definition unmarkedWithList : jsstring :=
  Eval vm_compute in
    js "Група 1.2. Електроенергії немає з 05:30 до 12:30.".
Definition markedWithList : jsstring :=
  Eval vm_compute in
    js "Група 1.2. Електроенергія є, крім: немає з 05:30 до 12:30.".
Definition otherWording1 : jsstring :=
  Eval vm_compute in js "Група 1.2. Відключення з 05:30 до 12:30.".
Definition otherWording2 : jsstring :=
  Eval vm_compute in js "Група 1.2. Відключення з 05:30 до 13:30.".

(** A list followed, on the same line, by a stamp. *)
Definition listThenStamp : jsstring :=
  Eval vm_compute in js "Група 1.2. Електроенергії немає з 05:30 до 12:30. ".
Definition stampAt10 : jsstring :=
  Eval vm_compute in js "Інформація станом на 10:00 02.11.2026".
Definition stampAt11 : jsstring :=
  Eval vm_compute in js "Інформація станом на 11:00 02.11.2026".

(** A stamp followed by the list. *)
Definition stampThenList1 : jsstring :=
  Eval vm_compute in
    js "Інформація станом на 10:00 02.11.2026. Група 1.2. Електроенергії ".
Definition stampThenList2 : jsstring :=
  Eval vm_compute in
    js "Інформація станом на 11:00 02.11.2026. Група 1.2. Електроенергії ".
Definition listOnly : jsstring :=
  Eval vm_compute in js "немає з 05:30 до 12:30, з 16:00 до 21:00.".

(** 2026-11-02, 23:00 *)
Definition lateEvening : Instant := 20759 * DAY + 23 * HOUR.

(** A document with two paragraphs for group 1.2, and its paragraphs. *)
Definition firstParagraph : jsstring :=
  Eval vm_compute in js " Група 1.2. Електроенергія є. ".
Definition secondParagraph : jsstring :=
  Eval vm_compute in js "Група 1.2. Електроенергії немає з 05:30 до 12:30.".
Definition twoParagraphDocument : jsstring :=
  Eval vm_compute in
    js "<p> Група 1.2. Електроенергія є. </p><p>Група 1.2. Електроенергії немає з 05:30 до 12:30.</p>".
Definition twoParagraphs (html : jsstring) : list jsstring :=
  if eqs html twoParagraphDocument then [firstParagraph; secondParagraph]
  else [].

From Stdlib Require Import Permutation DecimalN.

(* ------------------------------------------------------------------ *)
(** * The rest of the code

    Functions of the repository that the statements above do not reach,
    with the vocabulary and the inputs of the properties proved of them
    at the end of the file. *)

(** ** src/utils.ts: formatDuration *)

(** Decimal digits of a numeral, most significant first. *)
Fixpoint unitsOfUint (d : Decimal.uint) : jsstring :=
  match d with
  | Decimal.Nil => []
  | Decimal.D0 d => 48%N :: unitsOfUint d
  | Decimal.D1 d => 49%N :: unitsOfUint d
  | Decimal.D2 d => 50%N :: unitsOfUint d
  | Decimal.D3 d => 51%N :: unitsOfUint d
  | Decimal.D4 d => 52%N :: unitsOfUint d
  | Decimal.D5 d => 53%N :: unitsOfUint d
  | Decimal.D6 d => 54%N :: unitsOfUint d
  | Decimal.D7 d => 55%N :: unitsOfUint d
  | Decimal.D8 d => 56%N :: unitsOfUint d
  | Decimal.D9 d => 57%N :: unitsOfUint d
  end.

(** [String(n)] and [`${n}`] for an integer [n] (below 10^21 in
    absolute value, where the language switches to the exponent
    notation). *)
Definition numberToString (n : Z) : jsstring :=
  if n <? 0 then 45%N :: unitsOfUint (N.to_uint (Z.to_N (- n)))
  else unitsOfUint (N.to_uint (Z.to_N n)).

Definition hoursWord : jsstring := Eval vm_compute in js " год ".
Definition minutesWord : jsstring := Eval vm_compute in js " хв".

(** [Math.floor(minutes / 60)] is the floor quotient, [minutes % 60] the
    remainder with the sign of [minutes]. *)
Definition formatDuration (minutes : Z) : jsstring :=
  let h := minutes / 60 in
  let m := Z.rem minutes 60 in
  if 0 <? h
  then numberToString h ++ hoursWord ++ numberToString m ++ minutesWord
  else numberToString m ++ minutesWord.

(** ** src/utils.ts: parseGroupFromApi *)

(** Values the power API may hold in [chergGpv]: [string | number | null
    | undefined]; numbers are taken to be integers. *)
Inductive apiValue :=
| ApiNull
| ApiUndefined
| ApiString (s : jsstring)
| ApiNumber (n : Z).

(** [!chergGpv] *)
Definition apiFalsy (v : apiValue) : bool :=
  match v with
  | ApiNull | ApiUndefined => true
  | ApiString s => negb (nonEmpty s)
  | ApiNumber n => n =? 0
  end.

(** [String(chergGpv)] for a value that is not falsy. *)
Definition apiToString (v : apiValue) : jsstring :=
  match v with
  | ApiNull => js "null"
  | ApiUndefined => js "undefined"
  | ApiString s => s
  | ApiNumber n => numberToString n
  end.

Definition parseGroupFromApi (chergGpv : apiValue) : option jsstring :=
  if apiFalsy chergGpv then None
  else
    let gpv := apiToString chergGpv in
    if includes gpv [46%N] then
      (* Already in "1.2" format *)
      Some gpv
    else
      match gpv with
      | c0 :: c1 :: _ =>
          (* Convert "12" to "1.2" *)
          Some [c0; 46%N; c1]
      | _ =>
          (* Invalid format (single digit or empty) *)
          None
      end.

(** ** src/utils.ts: formatElectricityStatus *)

Definition onIcon : jsstring := Eval vm_compute in js "🟢".
Definition offIcon : jsstring := Eval vm_compute in js "🔴".
Definition onText : jsstring := Eval vm_compute in js "Зараз світло є".
Definition offText : jsstring := Eval vm_compute in js "Зараз світла немає".
Definition switchOffWord : jsstring := Eval vm_compute in js "вимкнення".
Definition switchOnWord : jsstring := Eval vm_compute in js "увімкнення".
Definition countdownLead : jsstring :=
  Eval vm_compute in [10%N] ++ js "⏳ До ".
Definition tomorrowMark : jsstring := Eval vm_compute in js " _(завтра)_".
Definition firstOutageLead : jsstring :=
  Eval vm_compute in [10%N; 10%N] ++ js "📅 Завтра перше відключення: *".
Definition unavailableNote : jsstring :=
  Eval vm_compute in [10%N; 10%N] ++ js "📅 Графік на завтра недоступний".

Definition formatElectricityStatus (status : ElectricityStatusResult)
  : jsstring :=
  let statusIcon := if isOn status then onIcon else offIcon in
  let statusText := if isOn status then onText else offText in
  let message := statusIcon ++ [32%N; 42%N] ++ statusText ++ [42%N] in
  let message :=
    match minutesUntilChange status with
    | Some minutes =>
        if 0 <? minutes then
          let actionText :=
            if isOn status then switchOffWord else switchOnWord in
          let message :=
            message ++ countdownLead ++ actionText ++ [58%N; 32%N; 42%N]
                    ++ formatDuration minutes ++ [42%N] in
          if isTomorrow status then message ++ tomorrowMark else message
        else message
    | None => message
    end in
  (* Show tomorrow's schedule info *)
  if hasTomorrowSchedule status then
    match tomorrowFirstOutage status with
    | Some (c :: t) =>
        if negb (isTomorrow status)
        then message ++ firstOutageLead ++ (c :: t) ++ [42%N]
        else message
    | _ => message
    end
  else message ++ unavailableNote.

(* ------------------------------------------------------------------ *)
(** ** src/utils.ts: extractInfoText *)

Definition infoPrefix : jsstring :=
  Eval vm_compute in js "Інформація станом на".

(** One call of the [each] callback on the captured [infoText]. *)
Definition eachInfoParagraph (infoText : option jsstring) (el : jsstring)
  : option jsstring :=
  let text := trim el in
  if startsWith text infoPrefix then Some text else infoText.

(** [paragraphs] is the paragraph selection of the markup library, as
    for [extractGroupText]. *)
Definition extractInfoText (paragraphs : jsstring -> list jsstring)
           (html : jsstring) : option jsstring :=
  match html with
  | [] => None
  | _ :: _ => fold_left eachInfoParagraph (paragraphs html) None
  end.

(* ------------------------------------------------------------------ *)
(** ** src/utils.ts: calculateTotalHours *)

Definition untilWord : jsstring := Eval vm_compute in js "до".

(** Greedy [\s+] at the head of [s]: what follows the white space.  The
    pattern continues with a letter or a digit, which no shorter run of
    white space is followed by, so the longest run is the only one to
    try. *)
Definition afterSpaces (s : jsstring) : option jsstring :=
  match s with
  | c :: s' =>
      if isWhiteSpace c then Some (dropWhile isWhiteSpace s') else None
  | [] => None
  end.

(** [(\d{2}):(\d{2})\s+до\s+(\d{2}):(\d{2})] at the head of [s]: the four
    captures. *)
Definition matchSpanAt (s : jsstring)
  : option (jsstring * jsstring * jsstring * jsstring) :=
  if matchItems timeRe s then
    match afterSpaces (skipn 5 s) with
    | Some s1 =>
        if startsWith s1 untilWord then
          match afterSpaces (skipn 2 s1) with
          | Some s2 =>
              if matchItems timeRe s2
              then Some (firstn 2 s, firstn 2 (skipn 3 s),
                         firstn 2 s2, firstn 2 (skipn 3 s2))
              else None
          | None => None
          end
        else None
    | None => None
    end
  else None.

(** [timeRange.match(...)]: the leftmost match. *)
Fixpoint matchSpan (s : jsstring)
  : option (jsstring * jsstring * jsstring * jsstring) :=
  match matchSpanAt s with
  | Some m => Some m
  | None =>
      match s with
      | [] => None
      | _ :: s' => matchSpan s'
      end
  end.

(** [parseInt] of a capture, which is two decimal digits. *)
Definition parseInt (capture : jsstring) : Z := toNumber capture.

(** The value of [totalMinutes] when the loop of [calculateTotalHours]
    ends; the function returns it divided by 60 as a floating-point
    number. *)
Definition totalMinutes (outageTimes : list jsstring) : Z :=
  fold_left
    (fun totalMinutes timeRange =>
       match matchSpan timeRange with
       | None => totalMinutes
       | Some (startHour, startMin, endHour, endMin) =>
           let start := parseInt startHour * 60 + parseInt startMin in
           let end0 := parseInt endHour * 60 + parseInt endMin in
           (* Handle 24:00 as next day 00:00 (1440 minutes) *)
           let end1 :=
             if eqs endHour [50%N; 52%N] && eqs endMin [48%N; 48%N]
             then 24 * 60 else end0 in
           (* Handle wrap-around *)
           let end2 := if end1 <? start then end1 + 24 * 60 else end1 in
           totalMinutes + (end2 - start)
       end)
    outageTimes 0.

(* ------------------------------------------------------------------ *)
(** ** Calendar dates: the part of [Date] the source uses

    A [Date] built from calendar fields and read through the local
    getters stays in local time, so it is modelled as the number of its
    local day, counted from 1970-01-01. *)

Module JsDate.

(** Day number of the first day of month [month] (0 to 11) of [year]. *)
Definition monthStart (year month : Z) : Z :=
  let y := if month <? 2 then year - 1 else year in
  let era := y / 400 in
  let yoe := y - era * 400 in
  let mp := if month <? 2 then month + 10 else month - 2 in
  let doy := (153 * mp + 2) / 5 in
  era * 146097 + (yoe * 365 + yoe / 4 - yoe / 100 + doy) - 719468.

(** [new Date(year, monthIndex, day)]: a year from 0 to 99 stands for
    1900 + year, a month index beyond 0..11 carries into the year, and
    the day counts on from the first of the month. *)
Definition make (year monthIndex day : Z) : Z :=
  let yr := if (0 <=? year) && (year <=? 99) then 1900 + year else year in
  monthStart (yr + monthIndex / 12) (monthIndex mod 12) + day - 1.

(** Month of the cycle year, counted from March. *)
Definition monthOfCycle (doy : Z) : Z := (5 * doy + 2) / 153.

(** [getDate()], [getMonth()] and [getFullYear()] *)
Definition getDate (days : Z) : Z := dayOfMonth days.

Definition getMonth (days : Z) : Z :=
  let mp := monthOfCycle (dayOfYear ((days + 719468) mod 146097)) in
  if mp <? 10 then mp + 2 else mp - 10.

Definition getFullYear (days : Z) : Z :=
  let era := (days + 719468) / 146097 in
  let doe := (days + 719468) mod 146097 in
  let mp := monthOfCycle (dayOfYear doe) in
  yearOfCycle doe + era * 400 + (if mp <? 10 then 0 else 1).

End JsDate.

(* ------------------------------------------------------------------ *)
(** ** src/utils.ts: formatInfoTimestamp *)

(** [\d{2}\.\d{2}\.\d{4}] *)
Definition dateRe : list item :=
  [Digit; Digit; Lit 46; Digit; Digit; Lit 46; Digit; Digit; Digit; Digit].

(** [/Інформація станом на (\d{2}:\d{2}) (\d{2}\.\d{2}\.\d{4})/] *)
Definition infoRe : list item :=
  Eval vm_compute in
    lits (js "Інформація станом на ") ++ timeRe ++ [Lit 32] ++ dateRe.

Definition stampLead : jsstring := Eval vm_compute in js "📅 Стан на ".

(** [today] is the local day of [new Date()]. *)
Definition formatInfoTimestamp (today : Z) (infoText : option jsstring)
  : jsstring :=
  match infoText with
  | Some (c :: text) =>
      match findMatch infoRe (c :: text) with
      | None => []
      | Some m =>
          let time := firstn 5 (skipn 21 m) in
          let dateStr := firstn 10 (skipn 27 m) in
          let fields := map toNumber (split 46 dateStr) in
          let day := nth 0 fields 0 in
          let month := nth 1 fields 0 in
          let year := nth 2 fields 0 in
          let infoDate := JsDate.make year (month - 1) day in
          let isToday :=
            (JsDate.getDate today =? JsDate.getDate infoDate)
            && (JsDate.getMonth today =? JsDate.getMonth infoDate)
            && (JsDate.getFullYear today =? JsDate.getFullYear infoDate) in
          if isToday
          then stampLead ++ time ++ [10%N; 10%N]
          else stampLead ++ time ++ [32%N] ++ dateStr ++ [10%N; 10%N]
      end
  | _ => []
  end.

(* ------------------------------------------------------------------ *)
(** ** A [Set<number>]: its elements in insertion order *)

Module NumberSet.

Definition has (s : list Z) (x : Z) : bool := existsb (Z.eqb x) s.

Definition add (s : list Z) (x : Z) : list Z :=
  if has s x then s else s ++ [x].

Definition delete (s : list Z) (x : Z) : list Z :=
  filter (fun y => negb (x =? y)) s.

(** [new Set(array)] *)
Definition ofArray (a : list Z) : list Z := fold_left add a [].

End NumberSet.

(* ------------------------------------------------------------------ *)
(** ** The storage module

    The module whose subscribers are a set of chat identifiers, which is
    the one the bot imports. *)

Module Storage.

Record StorageData := mkData {
  subscribers : list Z;
  lastState : option jsstring;
  group : option jsstring
}.

(** [Partial<StorageData>]: the fields an object carries.  It also
    stands for what the data file decodes to, each field present being
    of its declared type. *)
Record PartialData := mkPartial {
  subscribers_ : option (list Z);
  lastState_ : option (option jsstring);
  group_ : option (option jsstring)
}.

Definition DEFAULT_DATA : StorageData := mkData [] None None.

(** [{ ...data, ...updates }] *)
Definition spread (data : StorageData) (updates : PartialData)
  : StorageData :=
  mkData
    (match subscribers_ updates with
     | Some v => v
     | None => subscribers data
     end)
    (match lastState_ updates with Some v => v | None => lastState data end)
    (match group_ updates with Some v => v | None => group data end).

(** What [JSON.parse(JSON.stringify(data))] is. *)
Definition allOf (data : StorageData) : PartialData :=
  mkPartial (Some (subscribers data)) (Some (lastState data))
            (Some (group data)).

(** The module variable [cachedData] and the file system: the object
    the data file decodes to ([None] when the directory or the file is
    missing or cannot be read or parsed), and whether the file can be
    written. *)
Record World := mkWorld {
  cachedData : option StorageData;
  file : option PartialData;
  writable : bool
}.

Definition loadData (w : World) : StorageData :=
  match file w with
  | Some parsed => spread DEFAULT_DATA parsed
  | None => DEFAULT_DATA
  end.

(** A failed write is logged and has no other effect. *)
Definition saveData (data : StorageData) (w : World) : World :=
  if writable w
  then mkWorld (cachedData w) (Some (allOf data)) (writable w)
  else w.

Definition getData (w : World) : StorageData * World :=
  match cachedData w with
  | Some data => (data, w)
  | None =>
      let data := loadData w in
      (data, mkWorld (Some data) (file w) (writable w))
  end.

Definition updateData (updates : PartialData) (w : World) : World :=
  let (data, w1) := getData w in
  let data' := spread data updates in
  saveData data' (mkWorld (Some data') (file w1) (writable w1)).

Definition loadSubscribers (w : World) : list Z * World :=
  let (data, w1) := getData w in (NumberSet.ofArray (subscribers data), w1).

Definition saveSubscribers (subs : list Z) (w : World) : World :=
  updateData (mkPartial (Some subs) None None) w.

Definition loadLastState (w : World) : option jsstring * World :=
  let (data, w1) := getData w in (lastState data, w1).

Definition saveLastState (state : jsstring) (w : World) : World :=
  updateData (mkPartial None (Some (Some state)) None) w.

Definition loadGroup (w : World) : option jsstring * World :=
  let (data, w1) := getData w in (group data, w1).

Definition saveGroup (g : jsstring) (w : World) : World :=
  updateData (mkPartial None None (Some (Some g))) w.

(** A new process over the same files. *)
Definition restart (w : World) : World :=
  mkWorld None (file w) (writable w).

End Storage.

(* ------------------------------------------------------------------ *)
(** ** The bot's entry module *)

Module Bot.

(** An account of the power API, as far as the code reads it. *)
Record Account := mkAccount {
  buildingName : jsstring;
  chergGpv : apiValue
}.

Definition BUILDING_NAME : jsstring := Eval vm_compute in js "50".
Definition DEFAULT_GROUP : jsstring := Eval vm_compute in js "1.2".

Definition undefinedText : jsstring := Eval vm_compute in js "undefined".

(** [gpv[i]] inside a template literal: only a string has units. *)
Definition unitAt (gpv : apiValue) (i : nat) : jsstring :=
  match gpv with
  | ApiString s =>
      match nth_error s i with
      | Some c => [c]
      | None => undefinedText
      end
  | _ => undefinedText
  end.

(** [fetchGroupFromApi], given the accounts of the response ([None] when
    the request failed). *)
Definition fetchGroupFromApi (accounts : option (list Account))
  : option jsstring :=
  match accounts with
  | None => None
  | Some accounts =>
      match find (fun a => eqs (buildingName a) BUILDING_NAME) accounts with
      | None => None
      | Some account =>
          if apiFalsy (chergGpv account) then None
          else
            (* Convert "12" to "1.2" *)
            let gpv := chergGpv account in
            Some (unitAt gpv 0 ++ [46%N] ++ unitAt gpv 1)
      end
  end.

(** [ScheduleData] and [ScheduleMessageResult] of src/types.ts *)
Record ScheduleData := mkSchedule {
  today : jsstring;
  tomorrow : jsstring
}.

Record ScheduleMessageResult := mkResult {
  fullMessage : jsstring;
  scheduleContent : jsstring
}.

Definition errorLead : jsstring := Eval vm_compute in js "❌ Дані для Групи ".
Definition errorTail : jsstring := Eval vm_compute in js " не знайдено".

(** ['❌ Дані для Групи ' + GROUP + ' не знайдено'] *)
Definition errorMsg (GROUP : jsstring) : jsstring :=
  errorLead ++ GROUP ++ errorTail.

(** [buildScheduleMessage], given what [parseSite] resolved to, the
    paragraph selection of the markup library and the local day. *)
Definition buildScheduleMessage (paragraphs : jsstring -> list jsstring)
           (GROUP : jsstring) (day : Z) (site : ScheduleData)
  : ScheduleMessageResult :=
  let todayHtml := today site in
  let tomorrowHtml := tomorrow site in
  match todayHtml with
  | [] => mkResult (errorMsg GROUP) (errorMsg GROUP)
  | _ :: _ =>
      let todayGroupText := extractGroupText paragraphs todayHtml GROUP in
      let tomorrowGroupText := extractGroupText paragraphs tomorrowHtml GROUP in
      let infoText := extractInfoText paragraphs todayHtml in
      match todayGroupText with
      | Some (c :: t) =>
          (* Build schedule content (without timestamp) for comparison *)
          let scheduleContent :=
            buildScheduleContent GROUP (c :: t) tomorrowGroupText in
          (* Build full message with timestamp for display *)
          let fullMessage :=
            formatInfoTimestamp day infoText ++ scheduleContent in
          mkResult fullMessage scheduleContent
      | _ => mkResult (errorMsg GROUP) (errorMsg GROUP)
      end
  end.

Definition statusNotFound : jsstring :=
  Eval vm_compute in js "❌ Дані для групи не знайдено".
Definition statusHeader : jsstring :=
  Eval vm_compute in js "⚡ *Статус електроенергії*" ++ [10%N; 10%N].

(** [buildStatusMessage], given what [parseSite] resolved to and the
    current instant. *)
Definition buildStatusMessage (paragraphs : jsstring -> list jsstring)
           (GROUP : jsstring) (now : Instant) (site : ScheduleData)
  : jsstring :=
  let todayGroupText := extractGroupText paragraphs (today site) GROUP in
  let tomorrowGroupText :=
    extractGroupText paragraphs (tomorrow site) GROUP in
  match todayGroupText with
  | Some (c :: t) =>
      let status := getElectricityStatus (c :: t) tomorrowGroupText now in
      statusHeader ++ formatElectricityStatus status
  | _ => statusNotFound
  end.

(** The module variables [subscribers], [lastState] and [GROUP],
    together with the world of the storage module. *)
Record State := mkState {
  world : Storage.World;
  subscribers : list Z;
  lastState : option jsstring;
  GROUP : jsstring
}.

(** [loadGroup() || DEFAULT_GROUP] *)
Definition orDefault (g : option jsstring) : jsstring :=
  match g with
  | Some (c :: t) => c :: t
  | _ => DEFAULT_GROUP
  end.

(** The initialisers of the three module variables, in source order. *)
Definition initialState (w : Storage.World) : State :=
  let (subs, w1) := Storage.loadSubscribers w in
  let (state, w2) := Storage.loadLastState w1 in
  let (g, w3) := Storage.loadGroup w2 in
  mkState w3 subs state (orDefault g).

(** [GROUP = newGroup; saveGroup(newGroup)] *)
Definition adoptGroup (newGroup : jsstring) (st : State) : State :=
  mkState (Storage.saveGroup newGroup (world st)) (subscribers st)
          (lastState st) newGroup.

(** What [startBot] does to the module variables, given what
    [fetchGroupFromApi] resolved to. *)
Definition startBot (fetchedGroup : option jsstring) (st : State) : State :=
  match fetchedGroup with
  | Some (c :: t) => adoptGroup (c :: t) st
  | _ => st
  end.

(** How a call of [bot.telegram.sendMessage] ends: normally, or with an
    error that may carry [response.error_code]. *)
Inductive SendOutcome :=
| Sent
| Failed (error_code : option Z).

(** [err.response?.error_code === 403 || err.response?.error_code === 400] *)
Definition inactive (o : SendOutcome) : bool :=
  match o with
  | Failed (Some code) => (code =? 403) || (code =? 400)
  | Failed None => false
  | Sent => false
  end.

(** The [catch] block of the two notification loops. *)
Definition dropInactive (o : SendOutcome) (chatId : Z)
           (subs : list Z) (w : Storage.World) : list Z * Storage.World :=
  if inactive o
  then let subs1 := NumberSet.delete subs chatId in
       (subs1, Storage.saveSubscribers subs1 w)
  else (subs, w).

(** [for (const chatId of subscribers)] with its body, no other handler
    running in between: [todo] are the members still to be visited (a
    member deleted while it is visited does not disturb the iteration).
    The third component lists the chats written to. *)
Fixpoint sendToAll (send : Z -> SendOutcome) (todo : list Z)
         (subs : list Z) (w : Storage.World)
  : list Z * Storage.World * list Z :=
  match todo with
  | [] => (subs, w, [])
  | chatId :: todo' =>
      let '(subs1, w1) := dropInactive (send chatId) chatId subs w in
      let '(subs2, w2, written) := sendToAll send todo' subs1 w1 in
      (subs2, w2, chatId :: written)
  end.

(** [scheduleContent !== lastState] *)
Definition differs (content : jsstring) (last : option jsstring) : bool :=
  match last with
  | Some s => negb (eqs content s)
  | None => true
  end.

(** [checkAndSend], given what [buildScheduleMessage] resolved to
    ([None] when it threw) and how each send ends.  The second component
    lists the chats written to. *)
Definition checkAndSend (fetched : option ScheduleMessageResult)
           (send : Z -> SendOutcome) (st : State) : State * list Z :=
  match fetched with
  | None => (st, [])
  | Some r =>
      if differs (scheduleContent r) (lastState st) then
        let w1 := Storage.saveLastState (scheduleContent r) (world st) in
        let '(subs, w2, written) :=
          sendToAll send (subscribers st) (subscribers st) w1 in
        (mkState w2 subs (Some (scheduleContent r)) (GROUP st), written)
      else (st, [])
  end.

(** [checkAndUpdateGroup], given what [fetchGroupFromApi] and
    [buildScheduleMessage] resolved to. *)
Definition checkAndUpdateGroup (newGroup : option jsstring)
           (fetched : option ScheduleMessageResult)
           (send : Z -> SendOutcome) (st : State) : State * list Z :=
  match newGroup with
  | Some (c :: t) =>
      if negb (eqs (c :: t) (GROUP st)) then
        let st1 := adoptGroup (c :: t) st in
        match fetched with
        | Some _ =>
            let '(subs, w2, written) :=
              sendToAll send (subscribers st1) (subscribers st1)
                        (world st1) in
            (mkState w2 subs (lastState st1) (GROUP st1), written)
        | None => (st1, [])
        end
      else (st, [])
  | _ => (st, [])
  end.

Definition statusLabel : jsstring := Eval vm_compute in js "📊 Статус".
Definition checkLabel : jsstring := Eval vm_compute in js "📋 Графік".
Definition groupLabel : jsstring := Eval vm_compute in js "🏠 Моя група".
Definition unsubscribeLabel : jsstring := Eval vm_compute in js "🔕 Відписатись".
Definition subscribeLabel : jsstring := Eval vm_compute in js "🔔 Підписатись".

(** The rows of button labels of the reply keyboard. *)
Definition getReplyKeyboard (subs : list Z) (chatId : Z)
  : list (list jsstring) :=
  let isSubscribed := NumberSet.has subs chatId in
  [[statusLabel; checkLabel];
   [groupLabel; if isSubscribed then unsubscribeLabel else subscribeLabel]].

Definition alreadySubscribed : jsstring := Eval vm_compute in js "ℹ️ Ви вже підписані на розсилку.".
Definition nowSubscribed : jsstring := Eval vm_compute in js "✅ Ви підписані на розсилку.".
Definition notSubscribed : jsstring := Eval vm_compute in js "ℹ️ Ви не підписані на розсилку.".
Definition nowUnsubscribed : jsstring := Eval vm_compute in js "❌ Ви відписані від розсилки.".

(** A reply: its text and the keyboard sent with it, if any. *)
Definition Reply : Type := jsstring * option (list (list jsstring)).

(** [handleSubscribe] for the value of [ctx.chat?.id]. *)
Definition handleSubscribe (chat : option Z) (st : State)
  : State * option Reply :=
  match chat with
  | None => (st, None)
  | Some chatId =>
      if chatId =? 0 then (st, None)
      else if NumberSet.has (subscribers st) chatId
      then (st, Some (alreadySubscribed, None))
      else
        let subs := NumberSet.add (subscribers st) chatId in
        (mkState (Storage.saveSubscribers subs (world st)) subs
                 (lastState st) (GROUP st),
         Some (nowSubscribed, Some (getReplyKeyboard subs chatId)))
  end.

Definition handleUnsubscribe (chat : option Z) (st : State)
  : State * option Reply :=
  match chat with
  | None => (st, None)
  | Some chatId =>
      if chatId =? 0 then (st, None)
      else if negb (NumberSet.has (subscribers st) chatId)
      then (st, Some (notSubscribed, None))
      else
        let subs := NumberSet.delete (subscribers st) chatId in
        (mkState (Storage.saveSubscribers subs (world st)) subs
                 (lastState st) (GROUP st),
         Some (nowUnsubscribed, Some (getReplyKeyboard subs chatId)))
  end.

(** What happens to a running bot.  [Refused] is the [catch] block of a
    notification loop on its own, for a round that other handlers
    interrupt while it awaits a send. *)
Inductive Event :=
| Startup (fetchedGroup : option jsstring)
| Subscribe (chat : option Z)
| Unsubscribe (chat : option Z)
| Poll (fetched : option ScheduleMessageResult) (send : Z -> SendOutcome)
| GroupCheck (newGroup : option jsstring)
             (fetched : option ScheduleMessageResult)
             (send : Z -> SendOutcome)
| Refused (o : SendOutcome) (chatId : Z).

Definition step (st : State) (e : Event) : State :=
  match e with
  | Startup g => startBot g st
  | Subscribe chat => fst (handleSubscribe chat st)
  | Unsubscribe chat => fst (handleUnsubscribe chat st)
  | Poll fetched send => fst (checkAndSend fetched send st)
  | GroupCheck g fetched send => fst (checkAndUpdateGroup g fetched send st)
  | Refused o chatId =>
      let (subs, w) := dropInactive o chatId (subscribers st) (world st) in
      mkState w subs (lastState st) (GROUP st)
  end.

Definition run (st : State) (events : list Event) : State :=
  fold_left step events st.

(** An event other than a schedule check. *)
Definition notPoll (e : Event) : bool :=
  match e with
  | Poll _ _ => false
  | _ => true
  end.

(** The state a new process starts in, over the files [st] leaves. *)
Definition resumed (st : State) : State :=
  initialState (Storage.restart (world st)).

End Bot.

(* ------------------------------------------------------------------ *)
(** ** Vocabulary of the further statements *)

(** [Number.MAX_SAFE_INTEGER] *)
Definition MAX_SAFE_INTEGER : Z := 9007199254740991.

(** The three parts of the message. *)
Definition statusLine (status : ElectricityStatusResult) : jsstring :=
  (if isOn status then onIcon else offIcon) ++ [32%N; 42%N]
  ++ (if isOn status then onText else offText) ++ [42%N].

Definition countdownPart (status : ElectricityStatusResult) : jsstring :=
  match minutesUntilChange status with
  | Some minutes =>
      if 0 <? minutes then
        countdownLead
        ++ (if isOn status then switchOffWord else switchOnWord)
        ++ [58%N; 32%N; 42%N] ++ formatDuration minutes ++ [42%N]
        ++ (if isTomorrow status then tomorrowMark else [])
      else []
  | None => []
  end.

Definition tomorrowPart (status : ElectricityStatusResult) : jsstring :=
  if hasTomorrowSchedule status then
    match tomorrowFirstOutage status with
    | Some (c :: t) =>
        if negb (isTomorrow status)
        then firstOutageLead ++ (c :: t) ++ [42%N]
        else []
    | _ => []
    end
  else unavailableNote.

(** The label [parseOutageTimes] gives a range written with the two
    time strings [fst m] and [snd m]. *)
Definition labelOf (m : jsstring * jsstring) : jsstring :=
  fst m ++ 32%N :: untilWord ++ 32%N :: snd m.

(** Length of a range, in milliseconds. *)
Definition duration (r : Range) : Z := end_ r - start r.

Definition sumZ (l : list Z) : Z := fold_right Z.add 0 l.

Definition hasInfoPrefix (text : jsstring) : bool :=
  startsWith text infoPrefix.

(** The data file and the cache hold [d]: what every update leaves
    behind while the file can be written. *)
Definition holds (w : Storage.World) (d : Storage.StorageData) : Prop :=
  Storage.cachedData w = Some d
  /\ Storage.writable w = true
  /\ Storage.loadData w = d.

(** The module variables of the bot are what the stored data say. *)
Definition stored (st : Bot.State) : Prop :=
  exists d,
    holds (Bot.world st) d
    /\ NoDup (Bot.subscribers st)
    /\ NumberSet.ofArray (Storage.subscribers d) = Bot.subscribers st
    /\ Storage.lastState d = Bot.lastState st
    /\ Bot.orDefault (Storage.group d) = Bot.GROUP st.

(** The day a date string [dd.mm.yyyy] names, read the way
    [formatInfoTimestamp] reads it. *)
Definition dayWritten (dateStr : jsstring) : Z :=
  let fields := map toNumber (split 46 dateStr) in
  JsDate.make (nth 2 fields 0) (nth 1 fields 0 - 1) (nth 0 fields 0).

(** The values of [chergGpv] on which the conversion of
    [fetchGroupFromApi] and [parseGroupFromApi] give the same group. *)
Definition sameConversion (v : apiValue) : Prop :=
  match v with
  | ApiNull | ApiUndefined => True
  | ApiNumber n => n = 0
  | ApiString s =>
      s = []
      \/ (~ In 46%N s /\ (2 <= length s)%nat)
      \/ exists c, s = [c; 46%N; 46%N]
  end.

(** The response of the power API with the one account of the building. *)
Definition oneAccount (v : apiValue) : option (list Bot.Account) :=
  Some [Bot.mkAccount Bot.BUILDING_NAME v].

(** A schedule check whose fetch of the site succeeded: [checkAndSend]
    with the message [buildScheduleMessage] builds for the group in
    force. *)
Definition checkOf (paragraphs : jsstring -> list jsstring) (day : Z)
           (site : Bot.ScheduleData) (send : Z -> Bot.SendOutcome)
           (st : Bot.State) : Bot.State * list Z :=
  Bot.checkAndSend
    (Some (Bot.buildScheduleMessage paragraphs (Bot.GROUP st) day site))
    send st.

(** What the schedule content shows of the two pages of a site. *)
Definition todayView (paragraphs : jsstring -> list jsstring)
           (g : jsstring) (site : Bot.ScheduleData) : option view :=
  option_map viewOf (extractGroupText paragraphs (Bot.today site) g).

Definition tomorrowView (paragraphs : jsstring -> list jsstring)
           (g : jsstring) (site : Bot.ScheduleData) : view :=
  tomorrowViewOf (extractGroupText paragraphs (Bot.tomorrow site) g).

Definition sameSchedule (paragraphs : jsstring -> list jsstring)
           (g : jsstring) (site1 site2 : Bot.ScheduleData) : Prop :=
  todayView paragraphs g site1 = todayView paragraphs g site2
  /\ tomorrowView paragraphs g site1 = tomorrowView paragraphs g site2.

(** A schedule sentence in its usual form: some words without the
    letter [з], the words that open the list, the spans ([з], a time,
    [до], a time) separated by a comma and a space, and a full stop. *)
Definition noPowerWord : jsstring := Eval vm_compute in js "немає ".

Definition spanText (m : jsstring * jsstring) : jsstring :=
  1079%N :: 32%N :: labelOf m.

Definition listOfSpans (ms : list (jsstring * jsstring)) : jsstring :=
  match ms with
  | [] => []
  | m :: ms' =>
      spanText m ++ concat (map (fun m' => 44%N :: 32%N :: spanText m') ms')
  end.

Definition sentence (pre : jsstring) (ms : list (jsstring * jsstring))
  : jsstring :=
  pre ++ noPowerWord ++ listOfSpans ms ++ [46%N].

(** The units of a label: digits, the colon, the space, [д] and [о]. *)
Definition labelUnit (c : N) : Prop :=
  isDigit c = true \/ c = 58%N \/ c = 32%N \/ c = 1076%N \/ c = 1086%N.

(** What [parseOutageTimes] does to a piece of the list. *)
Definition cleanPiece (t : jsstring) : jsstring :=
  trim (dropFinalDot (dropFirstZ t)).

(* ------------------------------------------------------------------ *)
(** ** Further concrete inputs *)

(** A disk that can be written and holds no data file yet. *)
Definition emptyDisk : Storage.World := Storage.mkWorld None None true.

(** The bot over it, after chats 11 and 22 subscribed. *)
Definition twoSubscribers : Bot.State :=
  Bot.run (Bot.initialState emptyDisk)
          [Bot.Subscribe (Some 11); Bot.Subscribe (Some 22)].

(** Every send succeeds; chat 22 has blocked the bot. *)
Definition allSent (chatId : Z) : Bot.SendOutcome := Bot.Sent.
Definition blockedBy22 (chatId : Z) : Bot.SendOutcome :=
  if chatId =? 22 then Bot.Failed (Some 403) else Bot.Sent.

(** One schedule under two timestamps. *)
Definition morningResult : Bot.ScheduleMessageResult :=
  Eval vm_compute in
    let content := buildScheduleContent (js "1.2") scenarioToday None in
    Bot.mkResult (formatInfoTimestamp 20759 (Some stampAt10) ++ content)
                 content.
Definition laterResult : Bot.ScheduleMessageResult :=
  Eval vm_compute in
    let content := buildScheduleContent (js "1.2") scenarioToday None in
    Bot.mkResult (formatInfoTimestamp 20759 (Some stampAt11) ++ content)
                 content.

(** A day in the life of the bot. *)
Definition busyDay : list Bot.Event :=
  [Bot.Startup (Some (js "3.1"));
   Bot.Subscribe (Some 11); Bot.Subscribe (Some 22); Bot.Subscribe (Some 33);
   Bot.Poll (Some morningResult) blockedBy22;
   Bot.Unsubscribe (Some 11);
   Bot.GroupCheck (Some (js "1.2")) (Some laterResult) allSent;
   Bot.Refused (Bot.Failed (Some 400)) 33;
   Bot.Subscribe (Some 44)].

(** The site in the morning, and in the evening with nothing for
    tomorrow either. *)
Definition morningSite : Bot.ScheduleData :=
  Bot.mkSchedule twoParagraphDocument [].
Definition eveningSite : Bot.ScheduleData :=
  Bot.mkSchedule twoParagraphDocument twoParagraphDocument.

(* ================================================================== *)
(** * Properties *)

(** Settles the comparisons of instants that the hypotheses decide. *)
Ltac settle_ltb :=
  repeat match goal with
         | |- context [?a <? ?b] =>
             destruct (Z.ltb_spec a b);
             try (exfalso; unfold DAY, HOUR, MINUTE in *; lia)
         end.

(** ** Arithmetic of instants *)

Lemma startOfDay_bounds (t : Instant) :
  startOfDay t <= t < startOfDay t + DAY.
Proof.
  unfold startOfDay, DAY.
  pose proof (Z.mod_pos_bound t 86400000 ltac:(lia)). lia.
Qed.

Lemma startOfDay_div (t : Instant) : startOfDay t = DAY * (t / DAY).
Proof.
  unfold startOfDay, DAY.
  pose proof (Z.div_mod t 86400000 ltac:(lia)). lia.
Qed.

Lemma startOfDay_idem (t : Instant) : startOfDay (startOfDay t) = startOfDay t.
Proof.
  rewrite (startOfDay_div t). unfold startOfDay, DAY.
  rewrite Z.mul_comm, Z.mod_mul by lia. lia.
Qed.

Lemma startOfDay_shift (t : Instant) (n : Z) :
  startOfDay (addDays (startOfDay t) n) = addDays (startOfDay t) n.
Proof.
  unfold addDays. rewrite (startOfDay_div t). unfold startOfDay, DAY.
  replace (86400000 * (t / 86400000) + n * 86400000)
    with ((t / 86400000 + n) * 86400000) by lia.
  rewrite Z.mod_mul by lia. lia.
Qed.

Lemma startOfDay_add (t n : Z) :
  startOfDay (addDays t n) = startOfDay t + n * DAY.
Proof.
  unfold startOfDay, addDays.
  rewrite Z.mod_add by (unfold DAY; lia). lia.
Qed.

Lemma startOfDay_at (d h : Z) :
  0 <= h < DAY -> startOfDay (d * DAY + h) = d * DAY.
Proof.
  intros Hh. unfold startOfDay.
  rewrite Z.add_comm, Z.mod_add by (unfold DAY; lia).
  rewrite Z.mod_small by exact Hh. lia.
Qed.

(** The chain of four setters lands on the day of [base], at the given
    hour and minute, whatever the smaller fields of [base] were. *)
Lemma setters_chain (base h m : Z) :
  setMillisecond (setSecond (setMinute (setHour base h) m) 0) 0
  = startOfDay base + h * HOUR + m * MINUTE.
Proof.
  unfold setMillisecond, setSecond, setMinute, setHour, startOfDay,
    DAY, HOUR, MINUTE, SECOND.
  Z.div_mod_to_equations. lia.
Qed.

Lemma clockOn_eq (base : Instant) (str : jsstring) :
  clockOn base str = startOfDay base + clockMinutes str * MINUTE.
Proof.
  unfold clockOn, clockMinutes. rewrite setters_chain.
  unfold HOUR, MINUTE. lia.
Qed.

Lemma hour_of_day_start (d h : Z) :
  0 <= h < DAY -> hour (DAY * d + h) = h / HOUR.
Proof.
  intros Hh. unfold hour.
  rewrite Z.mul_comm, Z.add_comm, Z.mod_add by (unfold DAY; lia).
  rewrite Z.mod_small by exact Hh. reflexivity.
Qed.

Lemma hour_next_midnight (now : Instant) : hour (startOfDay now + DAY) = 0.
Proof.
  rewrite startOfDay_div.
  replace (DAY * (now / DAY) + DAY) with (DAY * (now / DAY + 1) + 0) by lia.
  rewrite hour_of_day_start by (unfold DAY; lia). reflexivity.
Qed.

Lemma minute_next_midnight (now : Instant) : minute (startOfDay now + DAY) = 0.
Proof.
  rewrite startOfDay_div. unfold minute, DAY, HOUR, MINUTE.
  Z.div_mod_to_equations. lia.
Qed.

Lemma diffMinutes_nonneg (a b : Instant) : b <= a -> 0 <= diffMinutes a b.
Proof.
  intros H. unfold diffMinutes, MINUTE. apply Z.quot_pos; lia.
Qed.

Lemma diffMinutes_exact (a b n : Z) :
  a - b = n * MINUTE -> diffMinutes a b = n.
Proof.
  intros H. unfold diffMinutes. rewrite H.
  apply Z.quot_mul. unfold MINUTE. lia.
Qed.

Lemma isBetween_true (t a b : Instant) :
  a <= t < b -> isBetween t a b = true.
Proof.
  intros H. unfold isBetween, isBefore, isAfter.
  destruct (Z.ltb_spec t a); destruct (Z.ltb_spec t b); try lia; reflexivity.
Qed.

Lemma isBetween_false (t a b : Instant) :
  a <= b -> (t < a \/ b <= t) -> isBetween t a b = false.
Proof.
  intros Hab H. unfold isBetween, isBefore, isAfter.
  destruct (Z.ltb_spec t a); destruct (Z.ltb_spec t b);
    destruct (Z.ltb_spec a t); destruct (Z.ltb_spec b t); try lia; reflexivity.
Qed.

(** ** The calendar: consecutive days differ in their day of the month *)

Lemma year_step (doe : Z) :
  0 <= doe < 146096 ->
  yearOfCycle (doe + 1) = yearOfCycle doe
  \/ (dayOfYear (doe + 1) = 0 /\ 364 <= dayOfYear doe <= 365).
Proof.
  intros H. unfold dayOfYear, yearOfCycle.
  Z.div_mod_to_equations. lia.
Qed.

Lemma dayOfYear_bounds (doe : Z) :
  0 <= doe < 146097 -> 0 <= dayOfYear doe <= 365.
Proof.
  intros H. unfold dayOfYear, yearOfCycle.
  Z.div_mod_to_equations. lia.
Qed.

Lemma dayInYear_step (doy : Z) :
  0 <= doy < 365 -> dayInYear (doy + 1) <> dayInYear doy.
Proof.
  intros H. unfold dayInYear.
  Z.div_mod_to_equations. lia.
Qed.

Lemma dayOfCycle_succ (x : Z) :
  0 <= x < 146096 -> dayOfCycle (x + 1) <> dayOfCycle x.
Proof.
  intros Hx. unfold dayOfCycle.
  pose proof (dayOfYear_bounds x ltac:(lia)) as Hb.
  pose proof (dayOfYear_bounds (x + 1) ltac:(lia)) as Hb'.
  destruct (year_step x Hx) as [Hy|[H0 Hlast]].
  - assert (dayOfYear (x + 1) = dayOfYear x + 1) as E
        by (unfold dayOfYear; rewrite Hy; lia).
    rewrite E in *. apply dayInYear_step. lia.
  - rewrite H0.
    assert (dayOfYear x = 364 \/ dayOfYear x = 365) as [->| ->] by lia;
      vm_compute; discriminate.
Qed.

Lemma dayOfMonth_succ (d : Z) : dayOfMonth (d + 1) <> dayOfMonth d.
Proof.
  unfold dayOfMonth.
  set (x := (d + 719468) mod 146097).
  assert (0 <= x < 146097) as Hx by (apply Z.mod_pos_bound; lia).
  destruct (Z.eq_dec x 146096) as [E|NE].
  - replace ((d + 1 + 719468) mod 146097) with 0
      by (subst x; Z.div_mod_to_equations; lia).
    rewrite E. vm_compute. discriminate.
  - replace ((d + 1 + 719468) mod 146097) with (x + 1)
      by (subst x; Z.div_mod_to_equations; lia).
    apply dayOfCycle_succ. lia.
Qed.

Lemma date_next_day (now : Instant) :
  date (startOfDay now + DAY) <> date now.
Proof.
  unfold date. rewrite startOfDay_div.
  replace (DAY * (now / DAY) + DAY) with ((now / DAY + 1) * DAY) by lia.
  rewrite Z.div_mul by (unfold DAY; lia).
  apply dayOfMonth_succ.
Qed.

(** ** Strings and matches *)

Lemma eqs_eq (a b : jsstring) : eqs a b = true -> a = b.
Proof.
  revert b. induction a as [|x a IH]; destruct b as [|y b]; simpl;
    try discriminate; auto.
  intros H. apply andb_true_iff in H as [Hxy Hab].
  apply N.eqb_eq in Hxy. subst. f_equal. auto.
Qed.

Lemma eqs_refl (a : jsstring) : eqs a a = true.
Proof.
  induction a as [|x a IH]; simpl; auto. rewrite N.eqb_refl. exact IH.
Qed.

Lemma isDigit_range (c : N) : isDigit c = true -> (48 <= c <= 57)%N.
Proof.
  unfold isDigit. intros H. apply andb_true_iff in H as [H1 H2].
  apply N.leb_le in H1. apply N.leb_le in H2. lia.
Qed.

Lemma digit_not_colon (c : N) : isDigit c = true -> (c =? 58)%N = false.
Proof.
  intros H. apply isDigit_range in H. apply N.eqb_neq. lia.
Qed.

Lemma digit_value (c : N) : isDigit c = true -> 0 <= Z.of_N c - 48 <= 9.
Proof. intros H. apply isDigit_range in H. lia. Qed.

Lemma rangeRe_captures (s : jsstring) :
  matchItems rangeRe s = true ->
  isTimeStr (startStrOf s) /\ isTimeStr (endStrOf s).
Proof.
  intros H. unfold rangeRe in H.
  do 16 (destruct s as [|? s]; [discriminate H|];
         cbn [matchItems] in H;
         apply andb_true_iff in H; destruct H as [? H]).
  repeat match goal with
         | E : (_ =? _)%N = true |- _ => apply N.eqb_eq in E; subst
         end.
  split; unfold isTimeStr, startStrOf, endStrOf; cbn [skipn firstn];
    do 4 eexists; (split; [reflexivity|auto]).
Qed.

Lemma execAll_captures (s : jsstring) : forall k,
  Forall (fun m => isTimeStr (fst m) /\ isTimeStr (snd m)) (execAll k s).
Proof.
  induction s as [|c s IH]; intros k; cbn [execAll]; [constructor|].
  destruct k as [|k]; [|apply IH].
  destruct (matchItems rangeRe (c :: s)) eqn:E; [|apply IH].
  constructor; [|apply IH]. apply rangeRe_captures. exact E.
Qed.

Lemma timeStr_fields (str : jsstring) :
  isTimeStr str ->
  0 <= hoursOf str <= 99 /\ 0 <= minutesOf str <= 99.
Proof.
  intros (a & b & c & d & -> & Ha & Hb & Hc & Hd).
  unfold hoursOf, minutesOf. cbn [split].
  rewrite (digit_not_colon _ Ha), (digit_not_colon _ Hb),
    (digit_not_colon _ Hc), (digit_not_colon _ Hd), N.eqb_refl.
  cbn [nth toNumber fold_left].
  apply digit_value in Ha, Hb, Hc, Hd. lia.
Qed.

Lemma timeStr_clock (str : jsstring) :
  isTimeStr str -> 0 <= clockMinutes str <= 6039.
Proof.
  intros H. apply timeStr_fields in H. unfold clockMinutes. lia.
Qed.

Lemma midnight_clock : clockMinutes midnightStr = 1440.
Proof. reflexivity. Qed.

(** ** What the parser produces *)

Lemma rangeOfMatch_eq (base : Instant) (m : jsstring * jsstring) :
  rangeOfMatch base m
  = rangeAt (startOfDay base) (clockMinutes (fst m)) (clockMinutes (snd m)).
Proof.
  unfold rangeOfMatch, rangeAt. cbv zeta.
  rewrite !clockOn_eq, setters_chain, startOfDay_add.
  set (sod := startOfDay base).
  set (s := clockMinutes (fst m)).
  assert (eqs (snd m) midnightStr = true -> clockMinutes (snd m) = 1440) as Hm.
  { intros E. apply eqs_eq in E. rewrite E. apply midnight_clock. }
  set (e := clockMinutes (snd m)) in *.
  f_equal. unfold isBefore, addDays.
  destruct (eqs (snd m) midnightStr).
  - specialize (Hm eq_refl).
    destruct (Z.ltb_spec (sod + 1 * DAY + 0 * HOUR + 0 * MINUTE)
                         (sod + s * MINUTE));
      destruct (Z.ltb_spec e s); unfold DAY, HOUR, MINUTE in *; lia.
  - destruct (Z.ltb_spec (sod + e * MINUTE) (sod + s * MINUTE));
      destruct (Z.ltb_spec e s); unfold DAY, MINUTE in *; lia.
Qed.

Lemma insertRange_In (x r : Range) (l : list Range) :
  In x (insertRange r l) <-> x = r \/ In x l.
Proof.
  induction l as [|y l IH]; cbn [insertRange].
  - simpl. intuition.
  - destruct (start y <? start r); simpl; rewrite ?IH; intuition.
Qed.

Lemma sortRanges_In (x : Range) (l : list Range) :
  In x (sortRanges l) <-> In x l.
Proof.
  induction l as [|y l IH]; cbn [sortRanges]; [reflexivity|].
  rewrite insertRange_In, IH. simpl. intuition.
Qed.

Lemma sortRanges_Forall (P : Range -> Prop) (l : list Range) :
  Forall P l -> Forall P (sortRanges l).
Proof.
  rewrite !Forall_forall. intros H x Hx. apply H.
  apply sortRanges_In. exact Hx.
Qed.

Lemma insertRange_sorted (r : Range) (l : list Range) :
  StronglySorted byStart l -> StronglySorted byStart (insertRange r l).
Proof.
  induction 1 as [|y l Hl IH Hy]; cbn [insertRange].
  - repeat constructor.
  - destruct (Z.ltb_spec (start y) (start r)) as [Hlt|Hge].
    + constructor; [exact IH|].
      rewrite Forall_forall in *. intros x Hx.
      apply insertRange_In in Hx as [->|Hx]; [unfold byStart; lia|auto].
    + constructor; [constructor; assumption|].
      constructor; [exact Hge|].
      rewrite Forall_forall in *. intros x Hx.
      specialize (Hy x Hx). unfold byStart in *. lia.
Qed.

Lemma sortRanges_sorted (l : list Range) : StronglySorted byStart (sortRanges l).
Proof.
  induction l; cbn [sortRanges]; [constructor|].
  apply insertRange_sorted. assumption.
Qed.

Lemma parse_sorted (text : jsstring) (base : Instant) :
  StronglySorted byStart (parseTimeRanges text base).
Proof. apply sortRanges_sorted. Qed.

Lemma parse_In (text : jsstring) (base : Instant) (r : Range) :
  In r (parseTimeRanges text base) <->
  exists m, In m (execAll 0 text) /\ r = rangeOfMatch base m.
Proof.
  unfold parseTimeRanges. rewrite sortRanges_In, in_map_iff.
  split; intros (m & H1 & H2); exists m; auto.
Qed.

Lemma parse_parsedOn (text : jsstring) (base : Instant) :
  Forall (parsedOn (startOfDay base)) (parseTimeRanges text base).
Proof.
  apply Forall_forall. intros r Hr.
  apply parse_In in Hr as (m & Hm & ->).
  pose proof (execAll_captures text 0) as Hc.
  rewrite Forall_forall in Hc. destruct (Hc m Hm) as [Hs He].
  apply timeStr_clock in Hs, He.
  exists (clockMinutes (fst m)), (clockMinutes (snd m)).
  rewrite rangeOfMatch_eq. intuition lia.
Qed.

(** Consequences of [parsedOn] used by the status proofs. *)
Lemma parsedOn_facts (sod : Instant) (r : Range) :
  parsedOn sod r ->
  sod <= start r /\ sod <= end_ r
  /\ (start r <= end_ r \/ sod + DAY <= end_ r).
Proof.
  intros (s & e & Hs & He & ->). unfold rangeAt. cbn [start end_].
  destruct (Z.ltb_spec e s); unfold DAY, MINUTE; lia.
Qed.

Lemma sorted_app_last (init : list Range) (r : Range) :
  StronglySorted byStart (init ++ [r]) ->
  Forall (fun x => start x <= start r) init.
Proof.
  induction init as [|y init IH]; cbn [app]; intros H; [constructor|].
  inversion H as [|? ? Hs Hy]; subst.
  constructor; [|apply IH; exact Hs].
  rewrite Forall_forall in Hy. apply (Hy r). apply in_or_app. right. left. reflexivity.
Qed.

(** *** The end-of-day sentinel and the wrap-around *)

(** C3, amended.  For a match whose end time is the literal 24:00 and
    whose start time is not later than 24:00, the parsed interval is among
    the returned ones and ends exactly one day after the start of the
    reference day, at hour 0 and minute 0. *)
Theorem end_of_day_sentinel (text : jsstring) (base : Instant)
        (m : jsstring * jsstring) :
  In m (execAll 0 text) ->
  snd m = midnightStr ->
  clockMinutes (fst m) <= 1440 ->
  In (rangeOfMatch base m) (parseTimeRanges text base)
  /\ end_ (rangeOfMatch base m) = addDays (startOfDay base) 1
  /\ hour (end_ (rangeOfMatch base m)) = 0
  /\ minute (end_ (rangeOfMatch base m)) = 0.
Proof.
  intros Hin Hend Hstart.
  split; [apply parse_In; exists m; auto|].
  rewrite rangeOfMatch_eq, Hend, midnight_clock. unfold rangeAt. cbn [end_].
  destruct (Z.ltb_spec 1440 (clockMinutes (fst m))); [lia|].
  replace (startOfDay base + 1440 * MINUTE) with (startOfDay base + DAY)
    by (unfold DAY, MINUTE; lia).
  rewrite hour_next_midnight, minute_next_midnight.
  unfold addDays. repeat split; lia.
Qed.

Lemma end_of_day_sentinel_witness :
  In (mkRange (23 * HOUR) DAY) (parseTimeRanges scenarioToday 0)
  /\ end_ (mkRange (23 * HOUR) DAY) = addDays (startOfDay 0) 1
  /\ hour DAY = 0 /\ minute DAY = 0.
Proof.
  apply (end_of_day_sentinel scenarioToday 0 (js "23:00", js "24:00")).
  - vm_compute. auto.
  - reflexivity.
  - vm_compute. discriminate.
Defined.

(** C3 as worded fails: with a start time of 25:00 the wrap-around
    correction moves the 24:00 end one more day on. *)
Lemma sentinel_counterexample :
  parseTimeRanges lateStartText 0 = [mkRange (25 * HOUR) (2 * DAY)]
  /\ ~ sentinelAsStated lateStartText 0.
Proof.
  split; [vm_compute; reflexivity|].
  intros H. destruct (H (js "25:00", js "24:00")) as [_ E];
    try (vm_compute; auto; fail).
  vm_compute in E. discriminate E.
Qed.

(** C6, amended.  When in every match the two clock times differ and
    the start is less than 24 hours after the end (as every start from
    00:00 to 23:59 is), every returned interval has its end after its
    start. *)
Theorem end_after_start (text : jsstring) (base : Instant) :
  Forall regularMatch (execAll 0 text) ->
  Forall (fun r => start r < end_ r) (parseTimeRanges text base).
Proof.
  intros H. rewrite Forall_forall in *. intros r Hr.
  apply parse_In in Hr as (m & Hm & ->).
  destruct (H m Hm) as [Hne Hlt].
  rewrite rangeOfMatch_eq. unfold rangeAt. cbn [start end_].
  destruct (Z.ltb_spec (clockMinutes (snd m)) (clockMinutes (fst m)));
    unfold MINUTE; lia.
Qed.

Lemma end_after_start_witness :
  Forall (fun r => start r < end_ r) (parseTimeRanges scenarioToday 0).
Proof.
  apply end_after_start.
  assert (execAll 0 scenarioToday
          = [(js "05:30", js "12:30"); (js "16:00", js "21:00");
             (js "23:00", js "24:00")]) as -> by (vm_compute; reflexivity).
  repeat constructor; vm_compute; discriminate.
Defined.

(** C6 as worded fails: equal start and end times give an interval whose
    end is its start. *)
Lemma end_after_start_counterexample :
  parseTimeRanges emptyRangeText 0 = [mkRange (5 * HOUR) (5 * HOUR)]
  /\ ~ Forall (fun r => start r < end_ r) (parseTimeRanges emptyRangeText 0).
Proof.
  split; [vm_compute; reflexivity|].
  intros H. replace (parseTimeRanges emptyRangeText 0)
    with [mkRange (5 * HOUR) (5 * HOUR)] in H by (vm_compute; reflexivity).
  inversion H as [|? ? Hlt _]; subst. cbn [start end_] in Hlt. lia.
Qed.

(** ** The status loop *)

Section Loop.

Variables (now : Instant) (tm : list Range) (len : nat).
Variable st : ElectricityStatusResult.

Lemma checkToday_skip (pre rest : list Range) : forall i,
  Forall (steppedOver now) pre ->
  checkToday now tm len i (pre ++ rest) st
  = checkToday now tm len (i + length pre) rest st.
Proof.
  induction pre as [|r pre IH]; intros i H; cbn [app length].
  - rewrite Nat.add_0_r. reflexivity.
  - inversion H as [|? ? [Hb Ha] Hpre]; subst.
    cbn [checkToday]. rewrite Hb, Ha, IH by exact Hpre.
    f_equal. lia.
Qed.

Lemma checkToday_all_skipped (i : nat) (l : list Range) :
  Forall (steppedOver now) l -> checkToday now tm len i l st = st.
Proof.
  intros H. rewrite <- (app_nil_r l), checkToday_skip by exact H.
  reflexivity.
Qed.

End Loop.

Lemma isBetween_inside (sod now : Instant) (r : Range) :
  parsedOn sod r -> now < sod + DAY ->
  (isBetween now (start r) (end_ r) = true <-> inside now r).
Proof.
  intros Hp Hnow. apply parsedOn_facts in Hp as (_ & _ & Hp).
  unfold isBetween, isBefore, isAfter, inside.
  destruct (Z.ltb_spec now (start r)); destruct (Z.ltb_spec now (end_ r));
    destruct (Z.ltb_spec (start r) now); destruct (Z.ltb_spec (end_ r) now);
    cbn; split; intros; try lia; try discriminate; try reflexivity.
Qed.

Lemma steppedOver_intro (sod now : Instant) (r : Range) :
  parsedOn sod r -> now < sod + DAY ->
  ~ inside now r -> start r <= now -> steppedOver now r.
Proof.
  intros Hp Hnow Hout Hle. split.
  - destruct (isBetween now (start r) (end_ r)) eqn:E; [|reflexivity].
    exfalso. apply Hout. eapply isBetween_inside; eassumption.
  - unfold isBefore. apply Z.ltb_ge. exact Hle.
Qed.

Lemma getElectricityStatus_unfold (today : jsstring) (tomorrow : option jsstring)
      (now : Instant) :
  getElectricityStatus today tomorrow now
  = let tm := tomorrowRangesOf tomorrow now in
    let td := todayRangesOf today now in
    pastToday now tm
      (checkToday now tm (length td) 0 td
         (mkStatus true None false
            match tomorrow with
            | Some (c :: t) => getFirstOutageTime (c :: t)
            | _ => None
            end
            (truthy tomorrow && (0 <? length tm)%nat))).
Proof. reflexivity. Qed.

Lemma today_parsedOn (today : jsstring) (now : Instant) :
  Forall (parsedOn (startOfDay now)) (todayRangesOf today now).
Proof.
  unfold todayRangesOf.
  rewrite <- (startOfDay_idem now) at 1. apply parse_parsedOn.
Qed.

Lemma tomorrow_parsedOn (tomorrow : option jsstring) (now : Instant) :
  Forall (parsedOn (startOfDay now + DAY)) (tomorrowRangesOf tomorrow now).
Proof.
  unfold tomorrowRangesOf. destruct tomorrow as [[|c t]|]; try constructor.
  replace (startOfDay now + DAY) with (startOfDay (addDays (startOfDay now) 1)).
  - apply parse_parsedOn.
  - rewrite startOfDay_shift. unfold addDays. lia.
Qed.

(** In the situation of the two midnight claims the loop reaches the
    last range of today. *)
Lemma today_reaches_last (today : jsstring) (now : Instant)
      (tm : list Range) (st : ElectricityStatusResult)
      (init : list Range) (r : Range) :
  todayRangesOf today now = init ++ [r] ->
  inside now r ->
  Forall (fun r' => ~ inside now r') init ->
  checkToday now tm (length (init ++ [r])) 0 (init ++ [r]) st
  = checkToday now tm (length (init ++ [r])) (length init) [r] st.
Proof.
  intros Htd Hin Hinit.
  pose proof (today_parsedOn today now) as Hp. rewrite Htd in Hp.
  pose proof (parse_sorted today (startOfDay now)) as Hs.
  fold (todayRangesOf today now) in Hs. rewrite Htd in Hs.
  apply sorted_app_last in Hs.
  apply Forall_app in Hp as [Hp _].
  pose proof (startOfDay_bounds now) as Hb.
  rewrite checkToday_skip; [reflexivity|].
  rewrite Forall_forall in *. intros x Hx.
  apply steppedOver_intro with (sod := startOfDay now); auto; try lia.
  specialize (Hs x Hx). cbv beta in Hs. unfold inside in Hin. lia.
Qed.

Lemma last_index (A : Type) (init : list A) (r : A) :
  Nat.eqb (length init) (length (init ++ [r]) - 1) = true.
Proof.
  rewrite length_app. cbn [length]. apply Nat.eqb_eq. lia.
Qed.

(** *** Midnight *)







(** *** Past all of today's outages *)



(** *** An off state always carries its transition *)

Lemma checkToday_off (sod now : Instant) (tm : list Range) (len : nat)
      (st : ElectricityStatusResult) (l : list Range) : forall i,
  sod <= now < sod + DAY ->
  Forall (parsedOn sod) l ->
  Forall (parsedOn (sod + DAY)) tm ->
  isOn st = true ->
  isOn (checkToday now tm len i l st) = false ->
  exists m, minutesUntilChange (checkToday now tm len i l st) = Some m
            /\ 0 <= m.
Proof.
  intros i Hnow Hl Htm Hon. revert i.
  induction Hl as [|r l Hr Hl IH]; intros i; cbn [checkToday].
  - rewrite Hon. discriminate.
  - destruct (isBetween now (start r) (end_ r)) eqn:Eb.
    + apply (isBetween_inside sod now r Hr) in Eb; [|lia].
      assert (0 <= diffMinutes (end_ r) now) as Hd
          by (apply diffMinutes_nonneg; unfold inside in Eb; lia).
      destruct tm as [|t tm'].
      * rewrite !andb_false_r. cbn. eauto.
      * inversion Htm as [|? ? Ht _]; subst.
        apply parsedOn_facts in Ht as (_ & Ht & _).
        assert (0 <= diffMinutes (end_ t) now)
          by (apply diffMinutes_nonneg; lia).
        destruct (_ && _ && _); [destruct (_ && _)|]; cbn; eauto.
    + destruct (isBefore now (start r)); [cbn; discriminate|apply IH].
Qed.



(** *** The scenario of the specification *)

Lemma scenario_ranges (sod : Instant) :
  startOfDay sod = sod ->
  parseTimeRanges scenarioToday sod
  = [rangeAt sod 330 750; rangeAt sod 960 1260; rangeAt sod 1380 1440].
Proof.
  intros Hsod. unfold parseTimeRanges.
  replace (execAll 0 scenarioToday)
    with [(js "05:30", js "12:30"); (js "16:00", js "21:00");
          (js "23:00", js "24:00")] by (vm_compute; reflexivity).
  cbn [map]. rewrite !rangeOfMatch_eq, Hsod.
  cbn [fst snd].
  change (clockMinutes (js "05:30")) with 330.
  change (clockMinutes (js "12:30")) with 750.
  change (clockMinutes (js "16:00")) with 960.
  change (clockMinutes (js "21:00")) with 1260.
  change (clockMinutes (js "23:00")) with 1380.
  change (clockMinutes (js "24:00")) with 1440.
  unfold rangeAt. cbn [Z.ltb Z.compare Pos.compare Pos.compare_cont].
  cbn [sortRanges insertRange start].
  settle_ltb.
  cbn [insertRange start].
  settle_ltb.
  reflexivity.
Qed.


(** ** The content string *)

Lemma appendTimes_eq (times : list jsstring) : forall content,
  appendTimes content times = content ++ timeLines times.
Proof.
  unfold appendTimes, timeLines.
  induction times as [|t times IH]; intros content; cbn [fold_left map concat].
  - rewrite app_nil_r. reflexivity.
  - rewrite IH, <- !app_assoc. reflexivity.
Qed.

Lemma content_sections (g today : jsstring) (tomorrow : option jsstring) :
  buildScheduleContent g today tomorrow
  = renderToday g (viewOf today)
    ++ renderTomorrow (tomorrowViewOf tomorrow)
    ++ [10%N] ++ formatGroupEmoji g.
Proof.
  unfold buildScheduleContent. cbv zeta.
  assert ((if (0 <? length (parseOutageTimes today))%nat
           then appendTimes [] (parseOutageTimes today)
           else if includes today allDayMarker
                then [] ++ allDayLine
                else [] ++ [42%N] ++ g ++ unavailableSuffix)
          = renderToday g (viewOf today)) as ->.
  { unfold viewOf. cbv zeta.
    destruct (0 <? length (parseOutageTimes today))%nat;
      [rewrite appendTimes_eq; reflexivity|].
    destruct (includes today allDayMarker); reflexivity. }
  set (T := renderToday g (viewOf today)).
  rewrite (app_assoc T). f_equal.
  destruct tomorrow as [[|c t]|]; cbn [tomorrowViewOf].
  - cbn [renderTomorrow]. rewrite app_nil_r. reflexivity.
  - unfold viewOf. cbv zeta.
    destruct (0 <? length (parseOutageTimes (c :: t)))%nat;
      [cbn [renderTomorrow]; rewrite appendTimes_eq, <- app_assoc;
       reflexivity|].
    destruct (includes (c :: t) allDayMarker); cbn [renderTomorrow];
      rewrite ?app_nil_r; reflexivity.
  - cbn [renderTomorrow]. rewrite app_nil_r. reflexivity.
Qed.

(** *** Labels contain no line feed *)

Lemma dropWhile_Forall (P : N -> Prop) (p : N -> bool) (s : jsstring) :
  Forall P s -> Forall P (dropWhile p s).
Proof.
  induction 1 as [|c s Hc Hs IH]; cbn [dropWhile]; [constructor|].
  destruct (p c); [exact IH|constructor; assumption].
Qed.

Lemma trim_Forall (P : N -> Prop) (s : jsstring) :
  Forall P s -> Forall P (trim s).
Proof.
  intros H. unfold trim, trimEnd, trimStart.
  apply Forall_rev, dropWhile_Forall, Forall_rev, dropWhile_Forall, H.
Qed.

Lemma dropFirstZ_Forall (P : N -> Prop) (s : jsstring) :
  Forall P s -> Forall P (dropFirstZ s).
Proof.
  induction 1 as [|c s Hc Hs IH]; cbn [dropFirstZ]; [constructor|].
  destruct (c =? 1079)%N; [apply dropWhile_Forall; exact Hs|].
  constructor; assumption.
Qed.

Lemma dropFinalDot_Forall (P : N -> Prop) (s : jsstring) :
  Forall P s -> Forall P (dropFinalDot s).
Proof.
  intros H. unfold dropFinalDot.
  destruct (rev s) as [|c r] eqn:E; [exact H|].
  destruct (c =? 46)%N; [|exact H].
  apply Forall_rev. apply Forall_rev in H. rewrite E in H.
  inversion H; assumption.
Qed.

Lemma split_Forall (P : N -> Prop) (sep : N) (s : jsstring) :
  Forall P s -> Forall (Forall P) (split sep s).
Proof.
  induction 1 as [|c s Hc Hs IH]; cbn [split]; [repeat constructor|].
  destruct (c =? sep)%N; [constructor; [constructor|exact IH]|].
  destruct (split sep s) as [|piece more]; [repeat constructor; assumption|].
  inversion IH; subst. constructor; [constructor|]; assumption.
Qed.

Lemma takeWhile_Forall (p : N -> bool) (s : jsstring) :
  Forall (fun c => p c = true) (takeWhile p s).
Proof.
  induction s as [|c s IH]; cbn [takeWhile]; [constructor|].
  destruct (p c) eqn:E; constructor; assumption.
Qed.

Lemma labels_one_line (text : jsstring) :
  Forall (fun t => ~ In 10%N t) (parseOutageTimes text).
Proof.
  unfold parseOutageTimes. destruct (findMatch outageRe text) as [s|];
    [|constructor].
  set (line := takeWhile _ _).
  assert (Forall (fun c => c <> 10%N) line) as Hline.
  { subst line. eapply Forall_impl; [|apply takeWhile_Forall].
    intros c Hc ->. discriminate Hc. }
  apply Forall_forall. intros t Ht.
  apply filter_In in Ht as [Ht _]. apply in_map_iff in Ht as (p & <- & Hp).
  pose proof (split_Forall _ 44%N _ Hline) as Hs.
  rewrite Forall_forall in Hs. specialize (Hs p Hp).
  apply dropFirstZ_Forall, dropFinalDot_Forall, trim_Forall in Hs.
  rewrite Forall_forall in Hs. intros Hin. exact (Hs _ Hin eq_refl).
Qed.

Lemma viewOf_good (text : jsstring) : goodView (viewOf text).
Proof.
  unfold viewOf. cbv zeta.
  destruct (0 <? length (parseOutageTimes text))%nat eqn:E.
  - split; [|apply labels_one_line].
    intros E0. rewrite E0 in E. discriminate E.
  - destruct (includes text allDayMarker); exact I.
Qed.

Lemma tomorrowViewOf_good (text : option jsstring) :
  goodView (tomorrowViewOf text).
Proof.
  destruct text as [[|c t]|]; try exact I. apply viewOf_good.
Qed.

(** *** The rendering can be read back *)

Lemma line_split (t1 : jsstring) : forall t2 x1 x2,
  ~ In 10%N t1 -> ~ In 10%N t2 ->
  t1 ++ 10%N :: x1 = t2 ++ 10%N :: x2 -> t1 = t2 /\ x1 = x2.
Proof.
  induction t1 as [|c t1 IH]; intros [|d t2] x1 x2 H1 H2 E; cbn [app] in E.
  - inversion E. auto.
  - inversion E; subst. exfalso. apply H2. left. reflexivity.
  - inversion E; subst. exfalso. apply H1. left. reflexivity.
  - inversion E; subst.
    destruct (IH t2 x1 x2) as [-> ->]; auto.
    + intros Hin. apply H1. right. exact Hin.
    + intros Hin. apply H2. right. exact Hin.
Qed.

Lemma timeLines_inj (l1 : list jsstring) : forall l2 y1 y2,
  Forall (fun t => ~ In 10%N t) l1 ->
  Forall (fun t => ~ In 10%N t) l2 ->
  lineBreakOrEnd y1 -> lineBreakOrEnd y2 ->
  timeLines l1 ++ y1 = timeLines l2 ++ y2 -> l1 = l2 /\ y1 = y2.
Proof.
  induction l1 as [|t1 l1 IH]; intros [|t2 l2] y1 y2 H1 H2 B1 B2 E.
  - cbn in E. auto.
  - exfalso. cbn in E. destruct B1 as [->|[y' ->]]; discriminate E.
  - exfalso. cbn in E. destruct B2 as [->|[y' ->]]; discriminate E.
  - unfold timeLines in E. cbn [map concat] in E.
    fold (timeLines l1) in E. fold (timeLines l2) in E.
    rewrite <- !app_assoc in E. apply app_inv_head in E.
    cbn [app] in E.
    inversion H1; inversion H2; subst.
    apply line_split in E as [-> E]; auto.
    destruct (IH l2 y1 y2) as [-> ->]; auto.
Qed.

Lemma renderTomorrow_break (v : view) : lineBreakOrEnd (renderTomorrow v).
Proof.
  destruct v; [right|right|left]; cbn [renderTomorrow];
    unfold tomorrowHeader, tomorrowAllDayLine; cbn [app]; eauto.
Qed.

Lemma renderTomorrow_inj (v1 v2 : view) :
  goodView v1 -> goodView v2 ->
  renderTomorrow v1 = renderTomorrow v2 -> v1 = v2.
Proof.
  intros G1 G2 E.
  destruct v1 as [l1| |]; destruct v2 as [l2| |];
    cbn [renderTomorrow] in E;
    unfold tomorrowHeader, tomorrowAllDayLine in E; cbn [app] in E;
    try discriminate E; try reflexivity.
  inversion E as [E'].
  destruct G1 as [_ G1]. destruct G2 as [_ G2].
  destruct (timeLines_inj l1 l2 [] [] G1 G2) as [-> _];
    try (left; reflexivity); [|reflexivity].
  rewrite !app_nil_r. exact E'.
Qed.

Lemma render_inj (g : jsstring) (v1 v2 w1 w2 : view) :
  goodView v1 -> goodView v2 -> goodView w1 -> goodView w2 ->
  renderToday g v1 ++ renderTomorrow w1
  = renderToday g v2 ++ renderTomorrow w2 ->
  v1 = v2 /\ w1 = w2.
Proof.
  intros G1 G2 K1 K2 E.
  destruct v1 as [l1| |]; destruct v2 as [l2| |]; cbn [renderToday] in E.
  - destruct G1 as [_ G1]. destruct G2 as [_ G2].
    destruct (timeLines_inj l1 l2 _ _ G1 G2 (renderTomorrow_break w1)
                (renderTomorrow_break w2) E) as [-> E'].
    split; [reflexivity|]. apply renderTomorrow_inj; assumption.
  - exfalso. destruct G1 as [N1 _]. destruct l1; [congruence|].
    unfold timeLines, clockIcon, allDayLine, unavailableSuffix in E;
    cbn [map concat app] in E; discriminate E.
  - exfalso. destruct G1 as [N1 _]. destruct l1; [congruence|].
    unfold timeLines, clockIcon, allDayLine, unavailableSuffix in E;
    cbn [map concat app] in E; discriminate E.
  - exfalso. destruct G2 as [N2 _]. destruct l2; [congruence|].
    unfold timeLines, clockIcon, allDayLine, unavailableSuffix in E;
    cbn [map concat app] in E; discriminate E.
  - apply app_inv_head in E.
    split; [reflexivity|]. apply renderTomorrow_inj; assumption.
  - exfalso. unfold allDayLine in E. cbn [app] in E. discriminate E.
  - exfalso. destruct G2 as [N2 _]. destruct l2; [congruence|].
    unfold timeLines, clockIcon, allDayLine, unavailableSuffix in E;
    cbn [map concat app] in E; discriminate E.
  - exfalso. unfold allDayLine in E. cbn [app] in E. discriminate E.
  - apply app_inv_head in E.
    split; [reflexivity|]. apply renderTomorrow_inj; assumption.
Qed.

(** Two inputs have the same content string exactly when the function
    reads the same of both. *)
Lemma content_eq_iff (g today1 today2 : jsstring)
      (tomorrow1 tomorrow2 : option jsstring) :
  buildScheduleContent g today1 tomorrow1
  = buildScheduleContent g today2 tomorrow2
  <-> viewOf today1 = viewOf today2
      /\ tomorrowViewOf tomorrow1 = tomorrowViewOf tomorrow2.
Proof.
  rewrite !content_sections. split.
  - intros E. rewrite !app_assoc in E. apply app_inv_tail in E.
    apply app_inv_tail in E.
    apply (render_inj g); auto using viewOf_good, tomorrowViewOf_good.
  - intros [-> ->]. reflexivity.
Qed.

Lemma labels_view (t1 t2 : jsstring) :
  viewOf t1 = viewOf t2 ->
  parseOutageTimes t1 = parseOutageTimes t2
  /\ (parseOutageTimes t1 = [] ->
      includes t1 allDayMarker = includes t2 allDayMarker).
Proof.
  unfold viewOf. cbv zeta.
  destruct (parseOutageTimes t1) as [|a l1]; destruct (parseOutageTimes t2) as [|b l2];
    cbn [length Nat.ltb Nat.leb];
    destruct (includes t1 allDayMarker); destruct (includes t2 allDayMarker);
    intros E; try discriminate E; try (inversion E; subst); split; auto;
    intros; discriminate.
Qed.

Lemma tomorrow_view (o1 o2 : option jsstring) :
  tomorrowViewOf o1 = tomorrowViewOf o2 ->
  labelsOf o1 = labelsOf o2
  /\ (labelsOf o1 = [] -> markedAllDay o1 = markedAllDay o2).
Proof.
  assert (forall o, tomorrowViewOf o
                    = if (0 <? length (labelsOf o))%nat then Labels (labelsOf o)
                      else if markedAllDay o then AllDay else NoData) as Hv.
  { intros [[|c t]|]; reflexivity. }
  rewrite !Hv.
  destruct (labelsOf o1) as [|a l1]; destruct (labelsOf o2) as [|b l2];
    cbn [length Nat.ltb Nat.leb];
    destruct (markedAllDay o1); destruct (markedAllDay o2);
    intros E; try discriminate E; try (inversion E; subst); split; auto;
    intros; discriminate.
Qed.

(** *** Stability *)

Lemma findMatch_after (p : list item) (pre rest : jsstring) :
  (forall k, (k < length pre)%nat ->
             matchItems p (skipn k (pre ++ rest)) = false) ->
  findMatch p (pre ++ rest) = findMatch p rest.
Proof.
  induction pre as [|c pre IH]; intros H; [reflexivity|].
  pose proof (H 0%nat ltac:(cbn; lia)) as H0. cbn [skipn app] in H0.
  cbn [app findMatch]. rewrite H0. apply IH.
  intros k Hk. apply (H (S k)). cbn. lia.
Qed.

Lemma listStartsAfter_labels (pre rest : jsstring) :
  listStartsAfter pre rest = true ->
  parseOutageTimes (pre ++ rest) = parseOutageTimes rest.
Proof.
  intros H. unfold parseOutageTimes.
  rewrite findMatch_after; [reflexivity|].
  intros k Hk. unfold listStartsAfter in H. rewrite forallb_forall in H.
  apply negb_true_iff. apply H. apply in_seq. lia.
Qed.




(** *** Sensitivity *)




(** ** extractGroupText *)

Lemma find_app_last (A : Type) (f : A -> bool) (l : list A) (x : A) :
  find f (l ++ [x])
  = match find f l with
    | Some y => Some y
    | None => if f x then Some x else None
    end.
Proof.
  induction l as [|y l IH]; cbn [app find]; [reflexivity|].
  destruct (f y); [reflexivity|exact IH].
Qed.

Lemma each_fold (group : jsstring) (l : list jsstring) : forall acc,
  fold_left (eachParagraph group) l acc
  = match find (matchesGroup group) (rev (map trim l)) with
    | Some t => Some t
    | None => acc
    end.
Proof.
  induction l as [|el l IH]; intros acc; cbn [fold_left map rev find];
    [reflexivity|].
  rewrite IH, find_app_last. unfold eachParagraph, matchesGroup.
  destruct (find _ (rev (map trim l))); [reflexivity|].
  destruct (startsWith (trim el) (groupPrefix group)); reflexivity.
Qed.

(** C2, amended.  The result is the trimmed text of the last paragraph
    whose trimmed text begins with the prefix of the group; it is none
    exactly when the markup is empty or no paragraph matches. *)
Theorem extractGroupText_last (paragraphs : jsstring -> list jsstring)
        (html group : jsstring) :
  extractGroupText paragraphs html group = extractLast paragraphs html group
  /\ (extractGroupText paragraphs html group = None
      <-> html = []
          \/ Forall (fun el => matchesGroup group (trim el) = false)
                    (paragraphs html)).
Proof.
  assert (extractGroupText paragraphs html group
          = extractLast paragraphs html group) as E.
  { unfold extractGroupText, extractLast. destruct html; [reflexivity|].
    rewrite each_fold. destruct (find _ _); reflexivity. }
  split; [exact E|]. rewrite E. unfold extractLast.
  destruct html as [|c html]; [intuition|].
  set (l := paragraphs (c :: html)). split.
  - intros Hnone. right. apply Forall_forall. intros el Hel.
    apply (find_none _ _ Hnone). rewrite <- in_rev. apply in_map. exact Hel.
  - intros [Hnil|Hall]; [discriminate Hnil|].
    destruct (find _ _) as [t|] eqn:Ef; [|reflexivity].
    apply find_some in Ef as [Hin Ht]. rewrite <- in_rev in Hin.
    apply in_map_iff in Hin as (el & <- & Hel).
    rewrite Forall_forall in Hall. rewrite (Hall el Hel) in Ht.
    discriminate Ht.
Qed.

(** C2 as worded fails: of two matching paragraphs the second is
    returned, not the first. *)
Lemma extract_counterexample :
  extractGroupText twoParagraphs twoParagraphDocument (js "1.2")
  = Some secondParagraph
  /\ extractFirst twoParagraphs twoParagraphDocument (js "1.2")
     = Some (trim firstParagraph)
  /\ extractGroupText twoParagraphs twoParagraphDocument (js "1.2")
     <> extractFirst twoParagraphs twoParagraphDocument (js "1.2").
Proof.
  repeat split; try (vm_compute; reflexivity).
  vm_compute. discriminate.
Qed.

(* ================================================================== *)
(** * Further properties *)

(** ** formatDuration *)

Lemma unitsOfUint_digits (d : Decimal.uint) :
  Forall (fun c => isDigit c = true) (unitsOfUint d).
Proof. induction d; cbn [unitsOfUint]; constructor; auto. Qed.

Lemma unitsOfUint_inj (d : Decimal.uint) : forall d',
  unitsOfUint d = unitsOfUint d' -> d = d'.
Proof.
  induction d; intros d' E; destruct d'; cbn [unitsOfUint] in E;
    try discriminate E; try reflexivity;
    injection E as E; f_equal; auto.
Qed.

Lemma numberToString_nonneg_inj (a b : Z) :
  0 <= a -> 0 <= b -> numberToString a = numberToString b -> a = b.
Proof.
  intros Ha Hb. unfold numberToString.
  destruct (Z.ltb_spec a 0); [lia|]. destruct (Z.ltb_spec b 0); [lia|].
  intros E. apply unitsOfUint_inj, Unsigned.to_uint_inj in E. lia.
Qed.

Lemma numberToString_nonneg_digits (a : Z) :
  0 <= a -> Forall (fun c => isDigit c = true) (numberToString a).
Proof.
  intros Ha. unfold numberToString. destruct (Z.ltb_spec a 0); [lia|].
  apply unitsOfUint_digits.
Qed.

(** Two strings that begin with digits and go on with something that is
    not a digit agree on both parts. *)
Lemma digits_split (a : jsstring) : forall b x y c d,
  a ++ c :: x = b ++ d :: y ->
  Forall (fun u => isDigit u = true) a ->
  Forall (fun u => isDigit u = true) b ->
  isDigit c = false -> isDigit d = false ->
  a = b /\ c :: x = d :: y.
Proof.
  induction a as [|u a IH]; intros [|v b] x y c d E Ha Hb Hc Hd;
    cbn [app] in E.
  - auto.
  - exfalso. injection E as -> _. inversion Hb; congruence.
  - exfalso. injection E as -> _. inversion Ha; congruence.
  - injection E as -> E. inversion Ha; inversion Hb; subst.
    destruct (IH b x y c d) as [-> E']; auto.
Qed.

Lemma formatDuration_inj (a b : Z) :
  0 <= a -> 0 <= b -> formatDuration a = formatDuration b -> a = b.
Proof.
  intros Ha Hb. unfold formatDuration. cbv zeta.
  rewrite !Z.rem_mod_nonneg by lia.
  pose proof (Z.div_mod a 60 ltac:(lia)) as Da.
  pose proof (Z.div_mod b 60 ltac:(lia)) as Db.
  pose proof (Z.mod_pos_bound a 60 ltac:(lia)) as Ma.
  pose proof (Z.mod_pos_bound b 60 ltac:(lia)) as Mb.
  pose proof (Z.div_pos a 60 Ha ltac:(lia)) as Qa.
  pose proof (Z.div_pos b 60 Hb ltac:(lia)) as Qb.
  set (ha := a / 60) in *. set (hb := b / 60) in *.
  set (ma := a mod 60) in *. set (mb := b mod 60) in *.
  pose proof (numberToString_nonneg_digits ha Qa) as Dha.
  pose proof (numberToString_nonneg_digits hb Qb) as Dhb.
  pose proof (numberToString_nonneg_digits ma ltac:(lia)) as Dma.
  pose proof (numberToString_nonneg_digits mb ltac:(lia)) as Dmb.
  unfold hoursWord, minutesWord.
  destruct (Z.ltb_spec 0 ha); destruct (Z.ltb_spec 0 hb); intros E;
    cbn [app] in E.
  - destruct (digits_split _ _ _ _ _ _ E Dha Dhb eq_refl eq_refl) as [Eh E'].
    apply numberToString_nonneg_inj in Eh; try lia.
    injection E' as E'.
    destruct (digits_split _ _ _ _ _ _ E' Dma Dmb eq_refl eq_refl) as [Em _].
    apply numberToString_nonneg_inj in Em; lia.
  - exfalso.
    destruct (digits_split _ _ _ _ _ _ E Dha Dmb eq_refl eq_refl) as [_ E'].
    discriminate E'.
  - exfalso.
    destruct (digits_split _ _ _ _ _ _ E Dma Dhb eq_refl eq_refl) as [_ E'].
    discriminate E'.
  - destruct (digits_split _ _ _ _ _ _ E Dma Dmb eq_refl eq_refl) as [Em _].
    apply numberToString_nonneg_inj in Em; lia.
Qed.

(** X1.  Durations read back: two different numbers of minutes, neither
    negative nor beyond the integers the language holds exactly, are
    never rendered as the same text. *)
Theorem formatDuration_distinct (a b : Z) :
  0 <= a <= MAX_SAFE_INTEGER -> 0 <= b <= MAX_SAFE_INTEGER -> a <> b ->
  formatDuration a <> formatDuration b.
Proof.
  intros [Ha _] [Hb _] Hab E. apply Hab.
  apply formatDuration_inj; assumption.
Qed.

Lemma formatDuration_distinct_witness :
  formatDuration 90 = js "1 год 30 хв"
  /\ formatDuration 150 = js "2 год 30 хв"
  /\ formatDuration 90 <> formatDuration 150.
Proof.
  split; [reflexivity|]. split; [reflexivity|].
  apply (formatDuration_distinct 90 150); unfold MAX_SAFE_INTEGER; lia.
Defined.

(** ** parseGroupFromApi *)

Lemma startsWith_unit (s : jsstring) (c : N) :
  startsWith s [c] = match s with x :: _ => (c =? x)%N | [] => false end.
Proof.
  destruct s as [|x s]; cbn [startsWith]; [reflexivity|].
  destruct (c =? x)%N; destruct s; reflexivity.
Qed.

Lemma includes_unit (s : jsstring) (c : N) :
  includes s [c] = true <-> In c s.
Proof.
  induction s as [|x s IH]; cbn [includes In].
  - rewrite startsWith_unit. split; [discriminate|tauto].
  - rewrite startsWith_unit, orb_true_iff, IH, N.eqb_eq.
    split; intros [H|H]; auto.
Qed.

(** X2.  A group that [parseGroupFromApi] returns contains a dot, and
    parsing it again returns it unchanged. *)
Theorem parseGroupFromApi_idempotent (v : apiValue) (g : jsstring) :
  parseGroupFromApi v = Some g ->
  In 46%N g /\ parseGroupFromApi (ApiString g) = Some g.
Proof.
  unfold parseGroupFromApi. destruct (apiFalsy v); [discriminate|]. cbv zeta.
  assert (forall s, In 46%N s -> parseGroupFromApi (ApiString s) = Some s) as K.
  { intros s Hs. unfold parseGroupFromApi. cbn [apiFalsy apiToString].
    destruct s as [|c s]; [destruct Hs|]. cbn [nonEmpty negb].
    apply includes_unit in Hs. rewrite Hs. reflexivity. }
  unfold parseGroupFromApi in K.
  destruct (includes (apiToString v) [46%N]) eqn:Ei.
  - intros [= <-]. apply includes_unit in Ei. split; [exact Ei|apply K, Ei].
  - destruct (apiToString v) as [|c0 [|c1 rest]]; try discriminate.
    intros [= <-]. assert (In 46%N [c0; 46%N; c1]) as Hin by (cbn; auto).
    split; [exact Hin|apply K, Hin].
Qed.

Lemma parseGroupFromApi_idempotent_witness :
  In 46%N (js "1.2")
  /\ parseGroupFromApi (ApiString (js "1.2")) = Some (js "1.2").
Proof.
  apply (parseGroupFromApi_idempotent (ApiNumber 12)). reflexivity.
Defined.

(** X3.  [parseGroupFromApi] gives up exactly on a value that is falsy,
    or whose text has no dot and fewer than two units. *)
Theorem parseGroupFromApi_none (v : apiValue) :
  parseGroupFromApi v = None <->
  apiFalsy v = true
  \/ (~ In 46%N (apiToString v) /\ (length (apiToString v) < 2)%nat).
Proof.
  unfold parseGroupFromApi. destruct (apiFalsy v); [intuition|]. cbv zeta.
  destruct (includes (apiToString v) [46%N]) eqn:Ei.
  - apply includes_unit in Ei. split; [discriminate|].
    intros [H|[H _]]; [discriminate|contradiction].
  - assert (~ In 46%N (apiToString v)) as Hn.
    { intros H. apply includes_unit in H. congruence. }
    destruct (apiToString v) as [|c0 [|c1 rest]]; cbn [length].
    + split; [intros _; right; split; [exact Hn|lia]|reflexivity].
    + split; [intros _; right; split; [exact Hn|lia]|reflexivity].
    + split; [discriminate|]. intros [H|[_ H]]; [discriminate|lia].
Qed.

(** ** formatGroupEmoji *)

Lemma split_nonnil (sep : N) (s : jsstring) : split sep s <> [].
Proof.
  destruct s as [|c s]; cbn [split]; [discriminate|].
  destruct (c =? sep)%N; [discriminate|].
  destruct (split sep s); discriminate.
Qed.

Lemma formatGroupEmoji_units (group : jsstring) :
  formatGroupEmoji group = numberToEmoji group.
Proof.
  unfold formatGroupEmoji.
  induction group as [|c g IH]; [reflexivity|].
  cbn [split]. destruct (N.eqb_spec c 46) as [->|Hc].
  - cbn [map]. pose proof (split_nonnil 46 g) as Hn.
    destruct (split 46 g) as [|p more]; [congruence|].
    cbn [map join] in *. rewrite IH. reflexivity.
  - pose proof (split_nonnil 46 g) as Hn.
    destruct (split 46 g) as [|p more]; [congruence|].
    cbn [map] in *.
    assert (numberToEmoji (c :: p)
            = (if isDigit c then [c; 65039%N; 8419%N] else [c])
              ++ numberToEmoji p) as -> by reflexivity.
    assert (numberToEmoji (c :: g)
            = (if isDigit c then [c; 65039%N; 8419%N] else [c])
              ++ numberToEmoji g) as -> by reflexivity.
    rewrite <- IH. destruct more as [|q more]; cbn [join].
    + reflexivity.
    + rewrite <- app_assoc. reflexivity.
Qed.

Lemma numberToEmoji_inj (g1 : jsstring) : forall g2,
  numberToEmoji g1 = numberToEmoji g2 -> g1 = g2.
Proof.
  induction g1 as [|c g1 IH]; intros [|d g2] E.
  - reflexivity.
  - exfalso. unfold numberToEmoji in E. cbn [map concat] in E.
    destruct (isDigit d); discriminate E.
  - exfalso. unfold numberToEmoji in E. cbn [map concat] in E.
    destruct (isDigit c); discriminate E.
  - assert (forall x g, numberToEmoji (x :: g)
              = (if isDigit x then [x; 65039%N; 8419%N] else [x])
                ++ numberToEmoji g) as U by reflexivity.
    rewrite !U in E.
    assert (c = d) as ->
        by (destruct (isDigit c); destruct (isDigit d); cbn [app] in E;
            congruence).
    apply app_inv_head in E. f_equal. apply IH. exact E.
Qed.

(** X4.  Splitting the group at its dots changes nothing: the emoji form
    of a group is the emoji form of its text, dots included. *)
Theorem formatGroupEmoji_is_numberToEmoji (group : jsstring) :
  formatGroupEmoji group = numberToEmoji group.
Proof. apply formatGroupEmoji_units. Qed.

(** X5.  Different groups have different emoji forms. *)
Theorem formatGroupEmoji_distinct (g1 g2 : jsstring) :
  g1 <> g2 -> formatGroupEmoji g1 <> formatGroupEmoji g2.
Proof.
  intros Hg E. apply Hg. rewrite !formatGroupEmoji_units in E.
  apply numberToEmoji_inj, E.
Qed.

Lemma formatGroupEmoji_distinct_witness :
  js "1.2" <> js "2.1"
  /\ formatGroupEmoji (js "1.2") <> formatGroupEmoji (js "2.1").
Proof.
  assert (js "1.2" <> js "2.1") as H by (vm_compute; discriminate).
  split; [exact H|]. apply (formatGroupEmoji_distinct _ _ H).
Defined.

(** ** parseTimeRanges keeps every match *)

Lemma insertRange_perm (r : Range) (l : list Range) :
  Permutation (insertRange r l) (r :: l).
Proof.
  induction l as [|y l IH]; cbn [insertRange]; [reflexivity|].
  destruct (start y <? start r); [|reflexivity].
  rewrite IH. apply perm_swap.
Qed.

Lemma sortRanges_perm (l : list Range) : Permutation (sortRanges l) l.
Proof.
  induction l as [|r l IH]; cbn [sortRanges]; [reflexivity|].
  rewrite insertRange_perm. constructor. exact IH.
Qed.

(** X6.  [parseTimeRanges] returns the ranges of the matches, all of
    them and no other, in the order of their starts. *)
Theorem parseTimeRanges_sorted_permutation (text : jsstring) (base : Instant) :
  StronglySorted byStart (parseTimeRanges text base)
  /\ Permutation (parseTimeRanges text base)
                 (map (rangeOfMatch base) (execAll 0 text)).
Proof.
  split; [apply sortRanges_sorted|apply sortRanges_perm].
Qed.

(** ** getFirstOutageTime *)

Lemma firstOutageRe_prefix (s : jsstring) :
  matchItems rangeRe s = true -> matchItems firstOutageRe s = true.
Proof.
  unfold rangeRe, firstOutageRe. intros H.
  do 10 (destruct s as [|? s]; [discriminate H|];
         cbn [matchItems] in H |- *;
         apply andb_true_iff in H; destruct H as [H0 H];
         rewrite H0; cbn [andb]; clear H0).
  reflexivity.
Qed.

Lemma findMatch_some (p : list item) (s : jsstring) :
  (exists n, matchItems p (skipn n s) = true) ->
  exists t, findMatch p s = Some t /\ matchItems p t = true.
Proof.
  induction s as [|c s IH]; intros [n Hn].
  - rewrite skipn_nil in Hn. cbn [findMatch]. rewrite Hn. eauto.
  - cbn [findMatch]. destruct (matchItems p (c :: s)) eqn:E; [eauto|].
    apply IH. destruct n as [|n]; [cbn in Hn; congruence|].
    exists n. exact Hn.
Qed.

Lemma findMatch_matches (p : list item) (s t : jsstring) :
  findMatch p s = Some t -> matchItems p t = true.
Proof.
  induction s as [|c s IH]; cbn [findMatch].
  - destruct (matchItems p []) eqn:E; [|discriminate]. intros [= <-]. exact E.
  - destruct (matchItems p (c :: s)) eqn:E; [intros [= <-]; exact E|exact IH].
Qed.

Lemma execAll_match (s : jsstring) : forall k,
  execAll k s <> [] -> exists n, matchItems rangeRe (skipn n s) = true.
Proof.
  induction s as [|c s IH]; intros k H; cbn [execAll] in H; [congruence|].
  destruct k as [|k].
  - destruct (matchItems rangeRe (c :: s)) eqn:E.
    + exists 0%nat. exact E.
    + destruct (IH _ H) as [n Hn]. exists (S n). exact Hn.
  - destruct (IH _ H) as [n Hn]. exists (S n). exact Hn.
Qed.

Lemma firstOutageRe_capture (t : jsstring) :
  matchItems firstOutageRe t = true -> isTimeStr (startStrOf t).
Proof.
  unfold firstOutageRe. intros H.
  do 7 (destruct t as [|? t]; [discriminate H|];
        cbn [matchItems] in H;
        apply andb_true_iff in H; destruct H as [? H]).
  repeat match goal with
         | E : (_ =? _)%N = true |- _ => apply N.eqb_eq in E; subst
         end.
  unfold isTimeStr, startStrOf. cbn [skipn firstn].
  do 4 eexists. split; [reflexivity|auto].
Qed.

Lemma firstOutage_timeStr (text t : jsstring) :
  getFirstOutageTime text = Some t -> isTimeStr t.
Proof.
  unfold getFirstOutageTime.
  destruct (findMatch firstOutageRe text) as [s|] eqn:E; [|discriminate].
  intros [= <-]. apply firstOutageRe_capture.
  eapply findMatch_matches. exact E.
Qed.

Lemma firstOutage_present (text : jsstring) (base : Instant) :
  parseTimeRanges text base <> [] -> getFirstOutageTime text <> None.
Proof.
  unfold getFirstOutageTime. intros Hne.
  assert (execAll 0 text <> []) as Hm.
  { intros E. apply Hne. unfold parseTimeRanges. rewrite E. reflexivity. }
  destruct (execAll_match _ _ Hm) as [n Hn].
  apply firstOutageRe_prefix in Hn.
  destruct (findMatch_some firstOutageRe text (ex_intro _ n Hn))
    as (t & -> & _).
  discriminate.
Qed.

(** X7.  What [getFirstOutageTime] returns is a time string, and it
    returns one for every text in which [parseTimeRanges] finds a
    range. *)
Theorem getFirstOutageTime_shape (text : jsstring) (base : Instant) :
  (forall t, getFirstOutageTime text = Some t -> isTimeStr t)
  /\ (parseTimeRanges text base <> [] -> getFirstOutageTime text <> None).
Proof.
  split; [apply firstOutage_timeStr|apply firstOutage_present].
Qed.

(** ** What a status can be *)

Lemma diffMinutes_mono (a b now : Instant) :
  a <= b -> diffMinutes a now <= diffMinutes b now.
Proof.
  intros H. unfold diffMinutes, MINUTE. apply Z.quot_le_mono; lia.
Qed.

(** The loop either falls through, every range being over, or stops with
    a countdown that is not negative; it marks the change as tomorrow's
    only on an outage, and then counts past midnight. *)
Ltac stopped Hex :=
  split; [reflexivity|]; split; [reflexivity|]; split; [exact Hex|];
  eexists; split; [reflexivity|]; split; [assumption|];
  let Ht := fresh in
  intros Ht;
  first [ discriminate Ht
        | congruence
        | repeat split; [discriminate|assumption] ].

Lemma checkToday_result (sod now : Instant) (tm : list Range) (len : nat)
      (st : ElectricityStatusResult) (l : list Range) : forall i,
  sod <= now < sod + DAY ->
  Forall (parsedOn sod) l ->
  Forall (parsedOn (sod + DAY)) tm ->
  isTomorrow st = false ->
  let st' := checkToday now tm len i l st in
  (st' = st /\ Forall (fun r => end_ r <= now) l)
  \/ (tomorrowFirstOutage st' = tomorrowFirstOutage st
      /\ hasTomorrowSchedule st' = hasTomorrowSchedule st
      /\ (exists r, In r l /\ ~ end_ r <= now)
      /\ exists m, minutesUntilChange st' = Some m /\ 0 <= m
           /\ (isTomorrow st' = true ->
               tm <> [] /\ isOn st' = false
               /\ diffMinutes (sod + DAY) now <= m)).
Proof.
  intros i Hnow Hl Htm Hst. revert i.
  induction Hl as [|r l Hr Hl IH]; intros i; cbn [checkToday].
  - left. split; [reflexivity|constructor].
  - pose proof (parsedOn_facts _ _ Hr) as (Hs & He & Hor).
    destruct (isBetween now (start r) (end_ r)) eqn:Eb.
    + apply (isBetween_inside sod now r Hr) in Eb; [|lia].
      unfold inside in Eb.
      assert (0 <= diffMinutes (end_ r) now) as Hd
          by (apply diffMinutes_nonneg; lia).
      right.
      assert (exists r0, In r0 (r :: l) /\ ~ end_ r0 <= now) as Hex
          by (exists r; split; [left; reflexivity|lia]).
      destruct tm as [|t tm'].
      * rewrite !andb_false_r. cbn. stopped Hex.
      * inversion Htm as [|? ? Ht _]; subst.
        apply parsedOn_facts in Ht as (_ & Ht & _).
        assert (0 <= diffMinutes (end_ t) now)
          by (apply diffMinutes_nonneg; lia).
        assert (diffMinutes (sod + DAY) now <= diffMinutes (end_ t) now)
          by (apply diffMinutes_mono; lia).
        destruct (_ && _ && _); [destruct (_ && _)|]; cbn; stopped Hex.
    + destruct (isBefore now (start r)) eqn:Ea.
      * right. unfold isBefore in Ea. apply Z.ltb_lt in Ea.
        assert (exists r0, In r0 (r :: l) /\ ~ end_ r0 <= now) as Hex
          by (exists r; split; [left; reflexivity|lia]).
        assert (0 <= diffMinutes (start r) now)
          by (apply diffMinutes_nonneg; lia).
        cbn. stopped Hex.
      * unfold isBefore in Ea. apply Z.ltb_ge in Ea.
        assert (end_ r <= now) as Hend.
        { destruct (Z.le_gt_cases (end_ r) now) as [H|H]; [exact H|].
          exfalso. assert (isBetween now (start r) (end_ r) = true) as Eb'
              by (apply (isBetween_inside sod now r Hr); [lia|];
                  unfold inside; lia).
          congruence. }
        destruct (IH (S i)) as [[E Hall]|(H1 & H2 & (r0 & Hin & Hr0) & H3)].
        -- left. split; [exact E|constructor; assumption].
        -- right. repeat split; auto. exists r0. split; [right|]; assumption.
Qed.

Lemma status_cases (today : jsstring) (tomorrow : option jsstring)
      (now : Instant) :
  let st := getElectricityStatus today tomorrow now in
  let td := todayRangesOf today now in
  let tm := tomorrowRangesOf tomorrow now in
  (minutesUntilChange st = None /\ isOn st = true /\ isTomorrow st = false
   /\ tm = [] /\ Forall (fun r => end_ r <= now) td)
  \/ (exists m, minutesUntilChange st = Some m /\ 0 <= m
      /\ ((exists r, In r td /\ ~ end_ r <= now) \/ tm <> [])
      /\ (isTomorrow st = true ->
          tm <> [] /\ diffMinutes (startOfDay now + DAY) now <= m)).
Proof.
  cbv zeta. rewrite getElectricityStatus_unfold. cbv zeta.
  set (tm := tomorrowRangesOf tomorrow now).
  set (td := todayRangesOf today now).
  set (st0 := mkStatus _ _ _ _ _).
  pose proof (startOfDay_bounds now) as Hb.
  pose proof (tomorrow_parsedOn tomorrow now) as Htm. fold tm in Htm.
  destruct (checkToday_result (startOfDay now) now tm (length td) st0 td 0
              Hb (today_parsedOn today now) Htm eq_refl)
    as [[E Hall]|(_ & _ & Hex & m & Hm & Hpos & Htom)].
  - rewrite E. unfold pastToday. cbn [minutesUntilChange st0].
    destruct tm as [|t tm'] eqn:Et.
    + left. cbn. auto.
    + right. inversion Htm as [|? ? Ht _]; subst.
      apply parsedOn_facts in Ht as (Ht & _ & _).
      exists (diffMinutes (start t) now). cbn.
      repeat split; auto.
      * apply diffMinutes_nonneg. lia.
      * right. discriminate.
      * discriminate.
      * apply diffMinutes_mono. lia.
  - right. unfold pastToday. rewrite Hm. exists m.
    repeat split; auto; apply Htom; assumption.
Qed.




Lemma checkToday_keeps (now : Instant) (tm : list Range) (len : nat)
      (st : ElectricityStatusResult) (l : list Range) : forall i,
  tomorrowFirstOutage (checkToday now tm len i l st) = tomorrowFirstOutage st
  /\ hasTomorrowSchedule (checkToday now tm len i l st)
     = hasTomorrowSchedule st.
Proof.
  induction l as [|r l IH]; intros i; cbn [checkToday]; [auto|].
  destruct (isBetween now (start r) (end_ r)).
  - destruct (_ && _ && _); [destruct tm; [auto|destruct (_ && _); auto]|auto].
  - destruct (isBefore now (start r)); [auto|apply IH].
Qed.

Lemma status_tomorrow_fields (today : jsstring) (tomorrow : option jsstring)
      (now : Instant) :
  tomorrowFirstOutage (getElectricityStatus today tomorrow now)
  = match tomorrow with
    | Some (c :: t) => getFirstOutageTime (c :: t)
    | _ => None
    end
  /\ hasTomorrowSchedule (getElectricityStatus today tomorrow now)
     = negb (match tomorrowRangesOf tomorrow now with
             | [] => true
             | _ :: _ => false
             end).
Proof.
  rewrite getElectricityStatus_unfold. cbv zeta.
  set (tm := tomorrowRangesOf tomorrow now).
  set (td := todayRangesOf today now).
  set (st0 := mkStatus _ _ _ _ _).
  destruct (checkToday_keeps now tm (length td) st0 td 0) as [K1 K2].
  assert (forall st, tomorrowFirstOutage (pastToday now tm st)
                     = tomorrowFirstOutage st
                     /\ hasTomorrowSchedule (pastToday now tm st)
                        = hasTomorrowSchedule st) as Hp.
  { intros st. unfold pastToday.
    destruct (minutesUntilChange st); [auto|]. destruct tm; auto. }
  destruct (Hp (checkToday now tm (length td) 0 td st0)) as [-> ->].
  rewrite K1, K2. cbn [st0 tomorrowFirstOutage hasTomorrowSchedule].
  split; [reflexivity|].
  subst tm. unfold tomorrowRangesOf.
  destruct tomorrow as [[|c t]|]; cbn [truthy andb]; try reflexivity.
  destruct (parseTimeRanges (c :: t) _); reflexivity.
Qed.



(** X11.  A status that has a schedule for tomorrow names the first
    outage of tomorrow, as a time string. *)
Theorem status_first_outage_present (today : jsstring)
        (tomorrow : option jsstring) (now : Instant) :
  hasTomorrowSchedule (getElectricityStatus today tomorrow now) = true ->
  exists t,
    tomorrowFirstOutage (getElectricityStatus today tomorrow now) = Some t
    /\ isTimeStr t.
Proof.
  destruct (status_tomorrow_fields today tomorrow now) as [-> ->].
  unfold tomorrowRangesOf. destruct tomorrow as [[|c t]|]; try discriminate.
  intros H.
  destruct (getFirstOutageTime (c :: t)) as [u|] eqn:E.
  - exists u. split; [reflexivity|apply (firstOutage_timeStr _ _ E)].
  - exfalso.
    apply (firstOutage_present (c :: t) (addDays (startOfDay now) 1));
      [|exact E].
    destruct (parseTimeRanges (c :: t) _); [discriminate H|discriminate].
Qed.

Lemma status_first_outage_present_witness :
  exists t,
    tomorrowFirstOutage
      (getElectricityStatus eveningToday (Some laterTomorrow) lateEvening)
    = Some t
    /\ isTimeStr t.
Proof.
  apply status_first_outage_present. vm_compute. reflexivity.
Defined.

(** ** formatElectricityStatus *)

Lemma message_parts (status : ElectricityStatusResult) :
  formatElectricityStatus status
  = statusLine status ++ countdownPart status ++ tomorrowPart status.
Proof.
  unfold formatElectricityStatus, statusLine, countdownPart, tomorrowPart.
  cbv zeta.
  destruct (isOn status); destruct (minutesUntilChange status) as [m|];
    destruct (isTomorrow status); destruct (hasTomorrowSchedule status);
    destruct (tomorrowFirstOutage status) as [[|c t]|];
    try destruct (0 <? m); cbn [negb];
    rewrite <- ?app_assoc, ?app_nil_r; reflexivity.
Qed.

Lemma notIn_check (c : N) (l : jsstring) :
  existsb (N.eqb c) l = false -> ~ In c l.
Proof.
  intros H Hin. assert (existsb (N.eqb c) l = true) as E
      by (apply existsb_exists; exists c; split; [exact Hin|apply N.eqb_refl]).
  congruence.
Qed.

Lemma timeStr_no_hourglass (t : jsstring) : isTimeStr t -> ~ In 9203%N t.
Proof.
  intros (a & b & c & d & -> & Ha & Hb & Hc & Hd) Hin.
  cbn [In] in Hin.
  repeat match goal with
         | H : isDigit _ = true |- _ => apply isDigit_range in H
         end.
  intuition lia.
Qed.

(** The hourglass of the countdown is in the message exactly when a
    positive number of minutes is left. *)
Lemma hourglass_iff (status : ElectricityStatusResult) :
  (forall t, tomorrowFirstOutage status = Some t -> isTimeStr t) ->
  In 9203%N (formatElectricityStatus status)
  <-> exists m, minutesUntilChange status = Some m /\ 0 < m.
Proof.
  intros Ht. rewrite message_parts, !in_app_iff.
  assert (~ In 9203%N (statusLine status)) as H1.
  { unfold statusLine. destruct (isOn status); apply notIn_check;
      reflexivity. }
  assert (~ In 9203%N (tomorrowPart status)) as H3.
  { unfold tomorrowPart. destruct (hasTomorrowSchedule status);
      [|apply notIn_check; reflexivity].
    destruct (tomorrowFirstOutage status) as [[|c t]|] eqn:E;
      try (intros []).
    destruct (isTomorrow status); cbn [negb]; [intros []|].
    rewrite !in_app_iff.
    pose proof (notIn_check 9203%N firstOutageLead eq_refl).
    pose proof (timeStr_no_hourglass _ (Ht _ eq_refl)).
    pose proof (notIn_check 9203%N [42%N] eq_refl).
    tauto. }
  unfold countdownPart.
  destruct (minutesUntilChange status) as [m|].
  - destruct (Z.ltb_spec 0 m).
    + split; [eauto|]. intros _. right. left.
      unfold countdownLead. cbn. auto.
    + split; [intros [K|[[]|K]]; contradiction|].
      intros (m' & [= <-] & Hm). lia.
  - split; [intros [K|[[]|K]]; contradiction|].
    intros (m' & E & _). discriminate E.
Qed.

Lemma last_app_cons (A : Type) (x : list A) (c : A) (y : list A) (d : A) :
  last (x ++ c :: y) d = last (c :: y) d.
Proof.
  induction x as [|a x IH]; [reflexivity|].
  cbn [app]. destruct (x ++ c :: y) eqn:E.
  - destruct x; discriminate E.
  - cbn [last] in *. exact IH.
Qed.

Lemma statusLine_last (status : ElectricityStatusResult) :
  last (statusLine status) 0%N = 42%N.
Proof.
  unfold statusLine. destruct (isOn status); reflexivity.
Qed.

Lemma countdownPart_last (status : ElectricityStatusResult) :
  countdownPart status = []
  \/ last (countdownPart status) 0%N = 42%N
  \/ last (countdownPart status) 0%N = 95%N.
Proof.
  unfold countdownPart. destruct (minutesUntilChange status) as [m|]; [|auto].
  destruct (0 <? m); [|auto]. right.
  rewrite !app_assoc. destruct (isTomorrow status).
  - right. unfold tomorrowMark. rewrite last_app_cons. reflexivity.
  - left. rewrite app_nil_r, last_app_cons. reflexivity.
Qed.

Lemma message_last_with_schedule (status : ElectricityStatusResult) :
  hasTomorrowSchedule status = true ->
  last (formatElectricityStatus status) 0%N = 42%N
  \/ last (formatElectricityStatus status) 0%N = 95%N.
Proof.
  intros H. rewrite message_parts.
  assert (tomorrowPart status = []
          \/ exists x, tomorrowPart status = x ++ [42%N]) as [E|[x E]].
  { unfold tomorrowPart. rewrite H.
    destruct (tomorrowFirstOutage status) as [[|c t]|]; auto.
    destruct (isTomorrow status); cbn [negb]; auto.
    right. exists (firstOutageLead ++ c :: t). rewrite <- app_assoc.
    reflexivity. }
  - rewrite E, app_nil_r.
    destruct (countdownPart_last status) as [E'|[E'|E']].
    + rewrite E', app_nil_r. left. apply statusLine_last.
    + destruct (countdownPart status) as [|c y]; [discriminate E'|].
      rewrite last_app_cons. auto.
    + destruct (countdownPart status) as [|c y]; [discriminate E'|].
      rewrite last_app_cons. auto.
  - rewrite E, !app_assoc, last_last. auto.
Qed.

Lemma message_note_iff (status : ElectricityStatusResult) :
  (exists p, formatElectricityStatus status = p ++ unavailableNote)
  <-> hasTomorrowSchedule status = false.
Proof.
  split.
  - intros [p E]. destruct (hasTomorrowSchedule status) eqn:H; [|reflexivity].
    exfalso. pose proof (message_last_with_schedule status H) as L.
    rewrite E in L. unfold unavailableNote in L.
    rewrite last_app_cons in L. cbn in L. destruct L; discriminate.
  - intros H. rewrite message_parts. unfold tomorrowPart. rewrite H.
    exists (statusLine status ++ countdownPart status).
    rewrite <- app_assoc. reflexivity.
Qed.

(** X12.  The status message shows a countdown, marked by its
    hourglass, exactly when a positive number of minutes is left. *)
Theorem status_message_countdown (today : jsstring)
        (tomorrow : option jsstring) (now : Instant) :
  In 9203%N (formatElectricityStatus (getElectricityStatus today tomorrow now))
  <-> exists m,
        minutesUntilChange (getElectricityStatus today tomorrow now) = Some m
        /\ 0 < m.
Proof.
  apply hourglass_iff. intros t.
  destruct (status_tomorrow_fields today tomorrow now) as [-> _].
  destruct tomorrow as [[|c u]|]; try discriminate.
  apply firstOutage_timeStr.
Qed.

(** X13.  The status message ends with the note that tomorrow's
    schedule is unavailable exactly when tomorrow has no range. *)
Theorem status_message_tomorrow_unavailable (today : jsstring)
        (tomorrow : option jsstring) (now : Instant) :
  (exists p, formatElectricityStatus (getElectricityStatus today tomorrow now)
             = p ++ unavailableNote)
  <-> tomorrowRangesOf tomorrow now = [].
Proof.
  rewrite message_note_iff.
  destruct (status_tomorrow_fields today tomorrow now) as [_ ->].
  destruct (tomorrowRangesOf tomorrow now); cbn; split; congruence.
Qed.

(** ** extractInfoText *)

Lemma fold_last (p : jsstring -> bool) (l : list jsstring) : forall acc,
  fold_left (fun acc el => if p (trim el) then Some (trim el) else acc) l acc
  = match find p (rev (map trim l)) with
    | Some t => Some t
    | None => acc
    end.
Proof.
  induction l as [|el l IH]; intros acc; cbn [fold_left map rev find];
    [reflexivity|].
  rewrite IH, find_app_last.
  destruct (find _ (rev (map trim l))); [reflexivity|].
  destruct (p (trim el)); reflexivity.
Qed.

(** X14.  The timestamp paragraph.  [extractInfoText] returns the trimmed
    text of the last paragraph that begins with the timestamp prefix,
    and nothing exactly when the markup is empty or no paragraph begins
    with it. *)
Theorem extractInfoText_last (paragraphs : jsstring -> list jsstring)
        (html : jsstring) :
  extractInfoText paragraphs html
  = match html with
    | [] => None
    | _ :: _ => find hasInfoPrefix (rev (map trim (paragraphs html)))
    end
  /\ (extractInfoText paragraphs html = None
      <-> html = []
          \/ Forall (fun el => hasInfoPrefix (trim el) = false)
                    (paragraphs html)).
Proof.
  assert (extractInfoText paragraphs html
          = match html with
            | [] => None
            | _ :: _ => find hasInfoPrefix (rev (map trim (paragraphs html)))
            end) as E.
  { unfold extractInfoText. destruct html; [reflexivity|].
    unfold eachInfoParagraph. cbv zeta.
    rewrite (fold_last hasInfoPrefix). destruct (find _ _); reflexivity. }
  split; [exact E|]. rewrite E.
  destruct html as [|c html]; [intuition|].
  set (l := paragraphs (c :: html)). split.
  - intros Hnone. right. apply Forall_forall. intros el Hel.
    apply (find_none _ _ Hnone). rewrite <- in_rev. apply in_map. exact Hel.
  - intros [Hnil|Hall]; [discriminate Hnil|].
    destruct (find _ _) as [t|] eqn:Ef; [|reflexivity].
    apply find_some in Ef as [Hin Ht]. rewrite <- in_rev in Hin.
    apply in_map_iff in Hin as (el & <- & Hel).
    rewrite Forall_forall in Hall. rewrite (Hall el Hel) in Ht.
    discriminate Ht.
Qed.

(** ** calculateTotalHours *)

Lemma digit_not_space (c : N) : isDigit c = true -> isWhiteSpace c = false.
Proof.
  intros H. apply isDigit_range in H. unfold isWhiteSpace.
  repeat match goal with
         | |- context [(?a <=? ?b)%N] => destruct (N.leb_spec a b)
         | |- context [(?a =? ?b)%N] => destruct (N.eqb_spec a b)
         end; cbn; try reflexivity; lia.
Qed.

Lemma timeStr_parts (a b c d : N) :
  isDigit a = true -> isDigit b = true ->
  isDigit c = true -> isDigit d = true ->
  hoursOf [a; b; 58%N; c; d] = toNumber [a; b]
  /\ minutesOf [a; b; 58%N; c; d] = toNumber [c; d].
Proof.
  intros Ha Hb Hc Hd. unfold hoursOf, minutesOf. cbn [split].
  rewrite (digit_not_colon _ Ha), (digit_not_colon _ Hb),
    (digit_not_colon _ Hc), (digit_not_colon _ Hd), N.eqb_refl.
  split; reflexivity.
Qed.

Lemma matchSpan_label (m : jsstring * jsstring) :
  isTimeStr (fst m) -> isTimeStr (snd m) ->
  matchSpan (labelOf m)
  = Some (firstn 2 (fst m), skipn 3 (fst m),
          firstn 2 (snd m), skipn 3 (snd m)).
Proof.
  destruct m as [x y]. cbn [fst snd].
  intros (a & b & c & d & -> & Ha & Hb & Hc & Hd)
         (a' & b' & c' & d' & -> & Ha' & Hb' & Hc' & Hd').
  unfold labelOf. cbn [fst snd app untilWord matchSpan].
  unfold matchSpanAt. cbn [matchItems timeRe].
  rewrite Ha, Hb, Hc, Hd, N.eqb_refl. cbn [andb skipn afterSpaces].
  change (isWhiteSpace 32) with true. cbn [dropWhile].
  change (isWhiteSpace 1076) with false. cbn [startsWith untilWord].
  rewrite !N.eqb_refl. cbn [andb skipn afterSpaces].
  change (isWhiteSpace 32) with true. cbn [dropWhile].
  rewrite (digit_not_space _ Ha'). cbn [matchItems].
  rewrite Ha', Hb', Hc', Hd', N.eqb_refl. reflexivity.
Qed.

Lemma label_minutes (m : jsstring * jsstring) (base : Instant) :
  isTimeStr (fst m) -> isTimeStr (snd m) ->
  totalMinutes [labelOf m] * MINUTE = duration (rangeOfMatch base m).
Proof.
  intros Hs He. unfold totalMinutes. cbn [fold_left].
  rewrite (matchSpan_label m Hs He), rangeOfMatch_eq.
  unfold duration, rangeAt, clockMinutes. cbn [start end_].
  destruct m as [x y]. cbn [fst snd] in *.
  destruct Hs as (a & b & c & d & -> & Ha & Hb & Hc & Hd).
  destruct He as (a' & b' & c' & d' & -> & Ha' & Hb' & Hc' & Hd').
  destruct (timeStr_parts a b c d Ha Hb Hc Hd) as [-> ->].
  destruct (timeStr_parts a' b' c' d' Ha' Hb' Hc' Hd') as [-> ->].
  cbn [firstn skipn]. unfold parseInt.
  set (h := toNumber [a; b]). set (mi := toNumber [c; d]).
  set (h' := toNumber [a'; b']). set (mi' := toNumber [c'; d']).
  assert (eqs [a'; b'] [50%N; 52%N] && eqs [c'; d'] [48%N; 48%N] = true
          -> h' * 60 + mi' = 24 * 60) as Hm.
  { intros E. apply andb_true_iff in E as [E1 E2].
    apply eqs_eq in E1, E2. subst h' mi'. rewrite E1, E2. reflexivity. }
  destruct (eqs [a'; b'] [50%N; 52%N] && eqs [c'; d'] [48%N; 48%N]).
  - rewrite <- (Hm eq_refl).
    replace (60 * h' + mi') with (h' * 60 + mi') by lia.
    replace (60 * h + mi) with (h * 60 + mi) by lia.
    destruct (h' * 60 + mi' <? h * 60 + mi); lia.
  - replace (60 * h' + mi') with (h' * 60 + mi') by lia.
    replace (60 * h + mi) with (h * 60 + mi) by lia.
    destruct (h' * 60 + mi' <? h * 60 + mi); lia.
Qed.

Lemma totalMinutes_from (l : list jsstring) : forall acc,
  fold_left
    (fun totalMinutes timeRange =>
       match matchSpan timeRange with
       | None => totalMinutes
       | Some (startHour, startMin, endHour, endMin) =>
           let start := parseInt startHour * 60 + parseInt startMin in
           let end0 := parseInt endHour * 60 + parseInt endMin in
           let end1 :=
             if eqs endHour [50%N; 52%N] && eqs endMin [48%N; 48%N]
             then 24 * 60 else end0 in
           let end2 := if end1 <? start then end1 + 24 * 60 else end1 in
           totalMinutes + (end2 - start)
       end)
    l acc
  = acc + totalMinutes l.
Proof.
  unfold totalMinutes.
  induction l as [|x l IH]; intros acc; cbn [fold_left]; [lia|].
  rewrite IH. rewrite (IH (match matchSpan x with None => 0 | Some _ => _ end)).
  destruct (matchSpan x) as [[[[sh sm] eh] em]|]; cbv zeta; lia.
Qed.

Lemma totalMinutes_cons (x : jsstring) (l : list jsstring) :
  totalMinutes (x :: l) = totalMinutes [x] + totalMinutes l.
Proof.
  unfold totalMinutes at 1 2. cbn [fold_left]. apply totalMinutes_from.
Qed.

Lemma totalMinutes_sum (ms : list (jsstring * jsstring)) (base : Instant) :
  Forall (fun m => isTimeStr (fst m) /\ isTimeStr (snd m)) ms ->
  totalMinutes (map labelOf ms) * MINUTE
  = sumZ (map duration (map (rangeOfMatch base) ms)).
Proof.
  intros Hms. induction Hms as [|m ms [Hs He] _ IH]; [reflexivity|].
  cbn [map sumZ fold_right]. rewrite totalMinutes_cons.
  rewrite Z.mul_add_distr_r, (label_minutes m base Hs He).
  unfold sumZ in IH. rewrite IH. reflexivity.
Qed.

(** X15.  The two readings of a time span agree.  For ranges written with
    two time strings each, the minutes [calculateTotalHours] adds up
    over their labels are the total length of the ranges
    [parseTimeRanges] builds from the same strings, on whatever day. *)
Theorem totalMinutes_agrees (ms : list (jsstring * jsstring))
        (base : Instant) :
  Forall (fun m => isTimeStr (fst m) /\ isTimeStr (snd m)) ms ->
  totalMinutes (map labelOf ms) * MINUTE
  = sumZ (map duration (map (rangeOfMatch base) ms)).
Proof.
  intros Hms. rewrite (totalMinutes_sum ms base Hms). reflexivity.
Qed.

Lemma totalMinutes_agrees_witness :
  totalMinutes (map labelOf [(js "05:30", js "12:30");
                             (js "23:00", js "01:00");
                             (js "22:00", js "24:00")]) * MINUTE
  = sumZ (map duration
              (map (rangeOfMatch lateEvening)
                   [(js "05:30", js "12:30"); (js "23:00", js "01:00");
                    (js "22:00", js "24:00")])).
Proof.
  apply totalMinutes_agrees.
  repeat constructor; vm_compute; do 4 eexists;
    (split; [reflexivity|repeat split]).
Defined.

(** ** Sets of chat identifiers *)

Lemma has_In (s : list Z) (x : Z) : NumberSet.has s x = true <-> In x s.
Proof.
  unfold NumberSet.has. rewrite existsb_exists. split.
  - intros (y & Hy & E). apply Z.eqb_eq in E. subst y. exact Hy.
  - intros H. exists x. split; [exact H|apply Z.eqb_refl].
Qed.

Lemma has_add (s : list Z) (x y : Z) :
  NumberSet.has (NumberSet.add s x) y = (x =? y) || NumberSet.has s y.
Proof.
  unfold NumberSet.add. destruct (NumberSet.has s x) eqn:Hx.
  - destruct (Z.eqb_spec x y) as [<-|_]; [rewrite Hx|]; reflexivity.
  - unfold NumberSet.has. rewrite existsb_app. cbn [existsb].
    rewrite orb_false_r, (Z.eqb_sym y x). apply orb_comm.
Qed.

Lemma has_delete (s : list Z) (x y : Z) :
  NumberSet.has (NumberSet.delete s x) y
  = negb (x =? y) && NumberSet.has s y.
Proof.
  unfold NumberSet.has, NumberSet.delete.
  induction s as [|z s IH]; cbn [filter existsb].
  - symmetry. apply andb_false_r.
  - destruct (Z.eqb_spec x z) as [<-|Hxz]; cbn [negb existsb]; rewrite IH.
    + rewrite (Z.eqb_sym y x). destruct (x =? y); reflexivity.
    + destruct (Z.eqb_spec y z) as [<-|_]; [|reflexivity].
      destruct (Z.eqb_spec x y); [contradiction|reflexivity].
Qed.

Lemma add_NoDup (s : list Z) (x : Z) :
  NoDup s -> NoDup (NumberSet.add s x).
Proof.
  intros H. unfold NumberSet.add. destruct (NumberSet.has s x) eqn:Hx;
    [exact H|].
  apply NoDup_app; [exact H|repeat constructor; intros []|].
  intros y Hy [<-|[]]. apply has_In in Hy. congruence.
Qed.

Lemma delete_NoDup (s : list Z) (x : Z) :
  NoDup s -> NoDup (NumberSet.delete s x).
Proof. apply NoDup_filter. Qed.

Lemma ofArray_from (a : list Z) : forall acc,
  NoDup (acc ++ a) -> fold_left NumberSet.add a acc = acc ++ a.
Proof.
  induction a as [|x a IH]; intros acc H; cbn [fold_left].
  - symmetry. apply app_nil_r.
  - assert (NumberSet.add acc x = acc ++ [x]) as ->.
    { unfold NumberSet.add. destruct (NumberSet.has acc x) eqn:Hx;
        [|reflexivity].
      apply has_In in Hx. apply NoDup_remove_2 in H.
      exfalso. apply H. apply in_or_app. left. exact Hx. }
    rewrite IH; rewrite <- app_assoc; [reflexivity|exact H].
Qed.

Lemma ofArray_id (a : list Z) : NoDup a -> NumberSet.ofArray a = a.
Proof. intros H. apply (ofArray_from a []). exact H. Qed.

Lemma ofArray_NoDup (a : list Z) : NoDup (NumberSet.ofArray a).
Proof.
  unfold NumberSet.ofArray.
  assert (forall acc, NoDup acc -> NoDup (fold_left NumberSet.add a acc))
    as H.
  { induction a as [|x a IH]; intros acc Hacc; cbn [fold_left];
      [exact Hacc|].
    apply IH, add_NoDup, Hacc. }
  apply H. constructor.
Qed.

(** ** The storage module *)

Lemma getData_cached (w : Storage.World) :
  Storage.cachedData (snd (Storage.getData w))
  = Some (fst (Storage.getData w))
  /\ Storage.file (snd (Storage.getData w)) = Storage.file w
  /\ Storage.writable (snd (Storage.getData w)) = Storage.writable w.
Proof.
  unfold Storage.getData. destruct (Storage.cachedData w) eqn:E; cbn.
  - auto.
  - auto.
Qed.

Lemma getData_again (w : Storage.World) :
  Storage.getData (snd (Storage.getData w))
  = (fst (Storage.getData w), snd (Storage.getData w)).
Proof.
  unfold Storage.getData at 1.
  destruct (getData_cached w) as (-> & _ & _). reflexivity.
Qed.

Lemma loadData_allOf (d : Storage.StorageData) (c : option Storage.StorageData) (b : bool) :
  Storage.loadData (Storage.mkWorld c (Some (Storage.allOf d)) b) = d.
Proof. destruct d. reflexivity. Qed.

Lemma updateData_world (u : Storage.PartialData) (w : Storage.World) :
  let d := Storage.spread (fst (Storage.getData w)) u in
  Storage.updateData u w
  = Storage.mkWorld (Some d)
      (if Storage.writable w then Some (Storage.allOf d)
       else Storage.file w)
      (Storage.writable w).
Proof.
  cbv zeta. unfold Storage.updateData.
  destruct (getData_cached w) as (_ & Hf & Hw).
  destruct (Storage.getData w) as [d w1]. cbn [fst snd] in *.
  unfold Storage.saveData. cbn [Storage.writable Storage.cachedData].
  rewrite Hw, Hf. destruct (Storage.writable w); reflexivity.
Qed.

Lemma getData_updateData (u : Storage.PartialData) (w : Storage.World) :
  fst (Storage.getData (Storage.updateData u w))
  = Storage.spread (fst (Storage.getData w)) u.
Proof. rewrite updateData_world. reflexivity. Qed.

Lemma getData_restart (w : Storage.World) :
  fst (Storage.getData (Storage.restart w)) = Storage.loadData w.
Proof. reflexivity. Qed.

(** X16.  What a save stores is what the next load returns, in the same
    process, whether or not the file could be written; and a save of one
    field leaves the two others as they were. *)
Theorem storage_round_trip (w : Storage.World)
        (subs : list Z) (state g : jsstring) :
  (NoDup subs ->
   fst (Storage.loadSubscribers (Storage.saveSubscribers subs w)) = subs)
  /\ fst (Storage.loadLastState (Storage.saveLastState state w))
     = Some state
  /\ fst (Storage.loadGroup (Storage.saveGroup g w)) = Some g
  /\ fst (Storage.loadLastState (Storage.saveSubscribers subs w))
     = fst (Storage.loadLastState w)
  /\ fst (Storage.loadGroup (Storage.saveSubscribers subs w))
     = fst (Storage.loadGroup w)
  /\ fst (Storage.loadSubscribers (Storage.saveLastState state w))
     = fst (Storage.loadSubscribers w)
  /\ fst (Storage.loadGroup (Storage.saveLastState state w))
     = fst (Storage.loadGroup w)
  /\ fst (Storage.loadSubscribers (Storage.saveGroup g w))
     = fst (Storage.loadSubscribers w)
  /\ fst (Storage.loadLastState (Storage.saveGroup g w))
     = fst (Storage.loadLastState w).
Proof.
  unfold Storage.loadSubscribers, Storage.loadLastState, Storage.loadGroup,
    Storage.saveSubscribers, Storage.saveLastState, Storage.saveGroup.
  pose proof (getData_updateData (Storage.mkPartial (Some subs) None None) w)
    as H1.
  pose proof (getData_updateData
                (Storage.mkPartial None (Some (Some state)) None) w) as H2.
  pose proof (getData_updateData
                (Storage.mkPartial None None (Some (Some g))) w) as H3.
  destruct (Storage.getData (Storage.updateData _ w)) as [d1 w1].
  destruct (Storage.getData (Storage.updateData
                               (Storage.mkPartial None (Some _) None) w))
    as [d2 w2].
  destruct (Storage.getData (Storage.updateData
                               (Storage.mkPartial None None _) w))
    as [d3 w3].
  destruct (Storage.getData w) as [d w0].
  cbn [fst] in *. subst d1 d2 d3. cbn.
  repeat split. intros Hn. apply ofArray_id, Hn.
Qed.

(** X17.  A new process reads back the whole of the last update when the
    file could be written, and what the file held before when it could
    not. *)
Theorem storage_restart (u : Storage.PartialData) (w : Storage.World) :
  fst (Storage.getData (Storage.restart (Storage.updateData u w)))
  = if Storage.writable w
    then Storage.spread (fst (Storage.getData w)) u
    else fst (Storage.getData (Storage.restart w)).
Proof.
  rewrite !getData_restart, updateData_world.
  destruct (Storage.writable w).
  - apply loadData_allOf.
  - reflexivity.
Qed.

(** ** The bot *)

Lemma holds_getData (w : Storage.World) (d : Storage.StorageData) :
  holds w d -> Storage.getData w = (d, w).
Proof. intros (Hc & _ & _). unfold Storage.getData. rewrite Hc. reflexivity. Qed.

Lemma holds_update (u : Storage.PartialData) (w : Storage.World)
      (d : Storage.StorageData) :
  holds w d -> holds (Storage.updateData u w) (Storage.spread d u).
Proof.
  intros H. rewrite updateData_world, (holds_getData _ _ H). cbn [fst].
  destruct H as (_ & Hw & _). rewrite Hw.
  repeat split.
Qed.

Lemma holds_fresh (w : Storage.World) :
  Storage.writable w = true ->
  holds (snd (Storage.getData (Storage.restart w))) (Storage.loadData w).
Proof. intros Hw. repeat split; assumption. Qed.

Lemma initialState_eq (w : Storage.World) :
  let d := fst (Storage.getData w) in
  Bot.initialState w
  = Bot.mkState (snd (Storage.getData w))
                (NumberSet.ofArray (Storage.subscribers d))
                (Storage.lastState d) (Bot.orDefault (Storage.group d)).
Proof.
  cbv zeta. unfold Bot.initialState, Storage.loadSubscribers,
    Storage.loadLastState, Storage.loadGroup.
  pose proof (getData_again w) as H.
  destruct (Storage.getData w) as [d w1]. cbn [fst snd] in *.
  rewrite H, H. reflexivity.
Qed.

Lemma stored_initial (w : Storage.World) :
  Storage.writable w = true ->
  stored (Bot.initialState (Storage.restart w)).
Proof.
  intros Hw. rewrite initialState_eq. exists (Storage.loadData w).
  cbn [Bot.world Bot.subscribers Bot.lastState Bot.GROUP].
  split; [apply holds_fresh, Hw|].
  split; [apply ofArray_NoDup|]. repeat split.
Qed.

Lemma stored_subscribers (st : Bot.State) (subs : list Z) :
  stored st -> NoDup subs ->
  stored (Bot.mkState (Storage.saveSubscribers subs (Bot.world st)) subs
                      (Bot.lastState st) (Bot.GROUP st)).
Proof.
  intros (d & Hh & _ & _ & Hl & Hg) Hn.
  exists (Storage.spread d (Storage.mkPartial (Some subs) None None)).
  split; [apply holds_update, Hh|].
  cbn. repeat split; try assumption. apply ofArray_id, Hn.
Qed.

Lemma stored_lastState (st : Bot.State) (state : jsstring) :
  stored st ->
  stored (Bot.mkState (Storage.saveLastState state (Bot.world st))
                      (Bot.subscribers st) (Some state) (Bot.GROUP st)).
Proof.
  intros (d & Hh & Hn & Hs & _ & Hg).
  exists (Storage.spread d (Storage.mkPartial None (Some (Some state)) None)).
  split; [apply holds_update, Hh|].
  cbn. repeat split; assumption.
Qed.

Lemma stored_adopt (st : Bot.State) (c : N) (t : jsstring) :
  stored st -> stored (Bot.adoptGroup (c :: t) st).
Proof.
  intros (d & Hh & Hn & Hs & Hl & _).
  exists (Storage.spread d (Storage.mkPartial None None (Some (Some (c :: t))))).
  split; [apply holds_update, Hh|].
  cbn. repeat split; assumption.
Qed.

Lemma stored_drop (o : Bot.SendOutcome) (chatId : Z) (st : Bot.State) :
  stored st ->
  stored (let (subs, w) :=
            Bot.dropInactive o chatId (Bot.subscribers st) (Bot.world st) in
          Bot.mkState w subs (Bot.lastState st) (Bot.GROUP st)).
Proof.
  intros H. unfold Bot.dropInactive. destruct (Bot.inactive o).
  - apply stored_subscribers; [exact H|].
    apply delete_NoDup. destruct H as (_ & _ & Hn & _). exact Hn.
  - destruct st. exact H.
Qed.

Lemma sendToAll_stored (send : Z -> Bot.SendOutcome) (todo : list Z) :
  forall st,
    stored st ->
    stored (let '(subs, w, _) :=
              Bot.sendToAll send todo (Bot.subscribers st) (Bot.world st) in
            Bot.mkState w subs (Bot.lastState st) (Bot.GROUP st)).
Proof.
  induction todo as [|chatId todo IH]; intros st H; cbn [Bot.sendToAll].
  - destruct st. exact H.
  - pose proof (stored_drop (send chatId) chatId st H) as H1.
    destruct (Bot.dropInactive _ _ _ _) as [subs1 w1].
    specialize (IH _ H1).
    cbn [Bot.subscribers Bot.world Bot.lastState Bot.GROUP] in IH.
    destruct (Bot.sendToAll send todo subs1 w1) as [[subs2 w2] written].
    exact IH.
Qed.

Lemma stored_step (st : Bot.State) (e : Bot.Event) :
  stored st -> stored (Bot.step st e).
Proof.
  intros H. destruct e as [g|chat|chat|fetched send|g fetched send|o chatId];
    cbn [Bot.step].
  - destruct g as [[|c t]|]; cbn [Bot.startBot]; [exact H| |exact H].
    apply stored_adopt, H.
  - unfold Bot.handleSubscribe. destruct chat as [chatId|]; [|exact H].
    destruct (chatId =? 0); [exact H|].
    destruct (NumberSet.has _ _); [exact H|]. cbn [fst].
    apply stored_subscribers; [exact H|].
    apply add_NoDup. destruct H as (_ & _ & Hn & _). exact Hn.
  - unfold Bot.handleUnsubscribe. destruct chat as [chatId|]; [|exact H].
    destruct (chatId =? 0); [exact H|].
    destruct (negb _); [exact H|]. cbn [fst].
    apply stored_subscribers; [exact H|].
    apply delete_NoDup. destruct H as (_ & _ & Hn & _). exact Hn.
  - unfold Bot.checkAndSend. destruct fetched as [r|]; [|exact H].
    destruct (Bot.differs _ _); [|exact H].
    pose proof (sendToAll_stored send (Bot.subscribers st) _
                  (stored_lastState st (Bot.scheduleContent r) H)) as H1.
    cbn [Bot.subscribers Bot.world Bot.lastState Bot.GROUP] in H1.
    destruct (Bot.sendToAll _ _ _ _) as [[subs w2] written]. exact H1.
  - unfold Bot.checkAndUpdateGroup. destruct g as [[|c t]|]; try exact H.
    destruct (negb _); [|exact H].
    pose proof (stored_adopt st c t H) as H0.
    destruct fetched as [r|]; [|exact H0].
    pose proof (sendToAll_stored send (Bot.subscribers (Bot.adoptGroup (c :: t) st)) _ H0) as H1.
    destruct (Bot.sendToAll _ _ _ _) as [[subs w2] written]. exact H1.
  - apply stored_drop, H.
Qed.

Lemma stored_run (events : list Bot.Event) : forall st,
  stored st -> stored (Bot.run st events).
Proof.
  unfold Bot.run. induction events as [|e events IH]; intros st H;
    cbn [fold_left]; [exact H|]. apply IH, stored_step, H.
Qed.

Lemma stored_resumed (st : Bot.State) :
  stored st ->
  Bot.subscribers (Bot.resumed st) = Bot.subscribers st
  /\ Bot.lastState (Bot.resumed st) = Bot.lastState st
  /\ Bot.GROUP (Bot.resumed st) = Bot.GROUP st.
Proof.
  intros (d & (_ & _ & Hd) & _ & Hs & Hl & Hg).
  unfold Bot.resumed. rewrite initialState_eq, getData_restart, Hd.
  cbn. auto.
Qed.

Lemma sendToAll_written (send : Z -> Bot.SendOutcome) (todo : list Z) :
  forall subs w, snd (Bot.sendToAll send todo subs w) = todo.
Proof.
  induction todo as [|c todo IH]; intros subs w; cbn [Bot.sendToAll];
    [reflexivity|].
  destruct (Bot.dropInactive _ _ _ _) as [subs1 w1].
  specialize (IH subs1 w1).
  destruct (Bot.sendToAll send todo subs1 w1) as [[subs2 w2] written].
  cbn [snd] in *. congruence.
Qed.

Lemma sendToAll_subscribers (send : Z -> Bot.SendOutcome) (todo : list Z) :
  forall subs w,
    fst (fst (Bot.sendToAll send todo subs w))
    = filter (fun y => negb (existsb (fun c => Bot.inactive (send c)
                                               && (c =? y)) todo)) subs.
Proof.
  induction todo as [|c todo IH]; intros subs w; cbn [Bot.sendToAll].
  - cbn [existsb negb fst]. induction subs as [|y subs IHs];
      [reflexivity|]. cbn [filter]. congruence.
  - unfold Bot.dropInactive. cbn [existsb].
    destruct (Bot.inactive (send c)).
    + specialize (IH (NumberSet.delete subs c)
                     (Storage.saveSubscribers (NumberSet.delete subs c) w)).
      destruct (Bot.sendToAll _ _ _ _) as [[subs2 w2] written].
      cbn [fst] in *. rewrite IH. unfold NumberSet.delete.
      clear. induction subs as [|y subs IHs]; [reflexivity|].
      cbn [filter andb]. destruct (c =? y); cbn [negb orb filter].
      * exact IHs.
      * rewrite IHs. reflexivity.
    + specialize (IH subs w).
      destruct (Bot.sendToAll _ _ _ _) as [[subs2 w2] written].
      cbn [fst andb orb] in *. exact IH.
Qed.

Lemma round_subscribers (send : Z -> Bot.SendOutcome) (subs : list Z)
      (w : Storage.World) :
  fst (fst (Bot.sendToAll send subs subs w))
  = filter (fun c => negb (Bot.inactive (send c))) subs.
Proof.
  rewrite sendToAll_subscribers. apply filter_ext_in. intros y Hy.
  f_equal. destruct (Bot.inactive (send y)) eqn:E.
  - apply existsb_exists. exists y. rewrite E, Z.eqb_refl. auto.
  - destruct (existsb _ subs) eqn:Ex; [|reflexivity].
    apply existsb_exists in Ex as (c & _ & Hc).
    apply andb_true_iff in Hc as [Hi Hc]. apply Z.eqb_eq in Hc. congruence.
Qed.

(** X18.  A notification round.  When the fetched content differs from the
    remembered one, every subscriber is written to once, in the order of
    subscription; the subscribers kept are those whose send did not fail
    with code 403 or 400; and the content becomes the remembered one. *)
Theorem round_delivery (r : Bot.ScheduleMessageResult)
        (send : Z -> Bot.SendOutcome) (st : Bot.State) :
  Bot.differs (Bot.scheduleContent r) (Bot.lastState st) = true ->
  snd (Bot.checkAndSend (Some r) send st) = Bot.subscribers st
  /\ Bot.subscribers (fst (Bot.checkAndSend (Some r) send st))
     = filter (fun c => negb (Bot.inactive (send c))) (Bot.subscribers st)
  /\ Bot.lastState (fst (Bot.checkAndSend (Some r) send st))
     = Some (Bot.scheduleContent r)
  /\ Bot.GROUP (fst (Bot.checkAndSend (Some r) send st)) = Bot.GROUP st.
Proof.
  intros Hd. unfold Bot.checkAndSend. rewrite Hd.
  pose proof (sendToAll_written send (Bot.subscribers st) (Bot.subscribers st)
                (Storage.saveLastState (Bot.scheduleContent r) (Bot.world st)))
    as Hw.
  pose proof (round_subscribers send (Bot.subscribers st)
                (Storage.saveLastState (Bot.scheduleContent r) (Bot.world st)))
    as Hs.
  destruct (Bot.sendToAll _ _ _ _) as [[subs w2] written].
  cbn [fst snd Bot.subscribers Bot.lastState Bot.GROUP] in *. auto.
Qed.

Lemma round_delivery_witness :
  snd (Bot.checkAndSend (Some morningResult) blockedBy22 twoSubscribers)
  = Bot.subscribers twoSubscribers
  /\ Bot.subscribers
       (fst (Bot.checkAndSend (Some morningResult) blockedBy22
                              twoSubscribers))
     = filter (fun c => negb (Bot.inactive (blockedBy22 c)))
              (Bot.subscribers twoSubscribers)
  /\ Bot.lastState
       (fst (Bot.checkAndSend (Some morningResult) blockedBy22
                              twoSubscribers))
     = Some (Bot.scheduleContent morningResult)
  /\ Bot.GROUP
       (fst (Bot.checkAndSend (Some morningResult) blockedBy22
                              twoSubscribers))
     = Bot.GROUP twoSubscribers.
Proof.
  apply (round_delivery morningResult blockedBy22 twoSubscribers).
  reflexivity.
Defined.

Lemma checkAndSend_written (fetched : option Bot.ScheduleMessageResult)
      (send : Z -> Bot.SendOutcome) (st : Bot.State) :
  snd (Bot.checkAndSend fetched send st)
  = match fetched with
    | Some r =>
        if Bot.differs (Bot.scheduleContent r) (Bot.lastState st)
        then Bot.subscribers st
        else []
    | None => []
    end.
Proof.
  unfold Bot.checkAndSend. destruct fetched as [r|]; [|reflexivity].
  destruct (Bot.differs _ _); [|reflexivity].
  pose proof (sendToAll_written send (Bot.subscribers st) (Bot.subscribers st)
                (Storage.saveLastState (Bot.scheduleContent r) (Bot.world st)))
    as Hw.
  destruct (Bot.sendToAll _ _ _ _) as [[subs w2] written]. exact Hw.
Qed.

Lemma checkAndSend_lastState (r : Bot.ScheduleMessageResult)
      (send : Z -> Bot.SendOutcome) (st : Bot.State) :
  Bot.lastState (fst (Bot.checkAndSend (Some r) send st))
  = Some (Bot.scheduleContent r).
Proof.
  unfold Bot.checkAndSend.
  destruct (Bot.differs (Bot.scheduleContent r) (Bot.lastState st)) eqn:Hd.
  - destruct (Bot.sendToAll _ _ _ _) as [[subs w2] written]. reflexivity.
  - cbn [fst]. unfold Bot.differs in Hd.
    destruct (Bot.lastState st) as [s|]; [|discriminate Hd].
    apply negb_false_iff, eqs_eq in Hd. congruence.
Qed.

Lemma step_lastState (st : Bot.State) (e : Bot.Event) :
  Bot.notPoll e = true -> Bot.lastState (Bot.step st e) = Bot.lastState st.
Proof.
  intros Hq.
  destruct e as [g|chat|chat|fetched send|g fetched send|o chatId];
    cbn [Bot.step]; [| | |discriminate Hq| |].
  - destruct g as [[|c t]|]; reflexivity.
  - unfold Bot.handleSubscribe. destruct chat as [chatId|]; [|reflexivity].
    destruct (chatId =? 0); [reflexivity|].
    destruct (NumberSet.has _ _); reflexivity.
  - unfold Bot.handleUnsubscribe. destruct chat as [chatId|]; [|reflexivity].
    destruct (chatId =? 0); [reflexivity|].
    destruct (negb _); reflexivity.
  - unfold Bot.checkAndUpdateGroup. destruct g as [[|c t]|]; try reflexivity.
    destruct (negb _); [|reflexivity].
    destruct fetched as [r|]; [|reflexivity].
    destruct (Bot.sendToAll _ _ _ _) as [[subs w2] written]. reflexivity.
  - destruct (Bot.dropInactive _ _ _ _). reflexivity.
Qed.

Lemma run_lastState (events : list Bot.Event) : forall st,
  forallb Bot.notPoll events = true ->
  Bot.lastState (Bot.run st events) = Bot.lastState st.
Proof.
  unfold Bot.run. induction events as [|e events IH]; intros st H;
    cbn [fold_left]; [reflexivity|].
  cbn [forallb] in H. apply andb_true_iff in H as [He H].
  rewrite (IH _ H). apply step_lastState, He.
Qed.

(** X19.  No second notification for the same schedule.  Once a check has
    seen a content, a later check that fetches the same content writes
    to nobody and changes nothing, whatever the sends of the first check
    did and whatever happened in between other than a schedule check. *)
Theorem silent_repeat (r1 r2 : Bot.ScheduleMessageResult)
        (send1 send2 : Z -> Bot.SendOutcome) (events : list Bot.Event)
        (st : Bot.State) :
  Bot.scheduleContent r1 = Bot.scheduleContent r2 ->
  forallb Bot.notPoll events = true ->
  Bot.checkAndSend (Some r2) send2
    (Bot.run (fst (Bot.checkAndSend (Some r1) send1 st)) events)
  = (Bot.run (fst (Bot.checkAndSend (Some r1) send1 st)) events, []).
Proof.
  intros Hc Hq.
  pose proof (run_lastState events (fst (Bot.checkAndSend (Some r1) send1 st))
                Hq) as Hl.
  rewrite checkAndSend_lastState, Hc in Hl.
  unfold Bot.checkAndSend at 1. rewrite Hl. unfold Bot.differs.
  rewrite eqs_refl. reflexivity.
Qed.

Lemma silent_repeat_witness :
  Bot.checkAndSend (Some laterResult) allSent
    (Bot.run (fst (Bot.checkAndSend (Some morningResult) blockedBy22
                                    twoSubscribers))
             [Bot.Subscribe (Some 33); Bot.Startup (Some (js "3.1"))])
  = (Bot.run (fst (Bot.checkAndSend (Some morningResult) blockedBy22
                                    twoSubscribers))
             [Bot.Subscribe (Some 33); Bot.Startup (Some (js "3.1"))],
     []).
Proof.
  apply (silent_repeat morningResult laterResult blockedBy22 allSent
           [Bot.Subscribe (Some 33); Bot.Startup (Some (js "3.1"))]
           twoSubscribers); reflexivity.
Defined.

(** X20.  A restart loses nothing.  While the data file can be written, a
    process started over the files the bot leaves, after any sequence of
    events, has the subscribers, the remembered content and the group of
    the bot it replaces; so its next schedule check writes to the same
    chats. *)
Theorem restart_resumes (w : Storage.World) (events : list Bot.Event)
        (fetched : option Bot.ScheduleMessageResult)
        (send : Z -> Bot.SendOutcome) :
  Storage.writable w = true ->
  Bot.subscribers
    (Bot.resumed (Bot.run (Bot.initialState (Storage.restart w)) events))
  = Bot.subscribers (Bot.run (Bot.initialState (Storage.restart w)) events)
  /\ Bot.lastState
       (Bot.resumed (Bot.run (Bot.initialState (Storage.restart w)) events))
     = Bot.lastState (Bot.run (Bot.initialState (Storage.restart w)) events)
  /\ Bot.GROUP
       (Bot.resumed (Bot.run (Bot.initialState (Storage.restart w)) events))
     = Bot.GROUP (Bot.run (Bot.initialState (Storage.restart w)) events)
  /\ snd (Bot.checkAndSend fetched send
            (Bot.resumed
               (Bot.run (Bot.initialState (Storage.restart w)) events)))
     = snd (Bot.checkAndSend fetched send
              (Bot.run (Bot.initialState (Storage.restart w)) events)).
Proof.
  intros Hw.
  pose proof (stored_resumed _ (stored_run events _ (stored_initial w Hw)))
    as (Hs & Hl & Hg).
  repeat split; try assumption.
  rewrite !checkAndSend_written, Hs, Hl. reflexivity.
Qed.

Lemma restart_resumes_witness :
  Bot.subscribers (Bot.resumed (Bot.run (Bot.initialState
                                           (Storage.restart emptyDisk))
                                        busyDay))
  = Bot.subscribers (Bot.run (Bot.initialState (Storage.restart emptyDisk))
                             busyDay)
  /\ Bot.lastState (Bot.resumed (Bot.run (Bot.initialState
                                            (Storage.restart emptyDisk))
                                         busyDay))
     = Bot.lastState (Bot.run (Bot.initialState (Storage.restart emptyDisk))
                              busyDay)
  /\ Bot.GROUP (Bot.resumed (Bot.run (Bot.initialState
                                        (Storage.restart emptyDisk))
                                     busyDay))
     = Bot.GROUP (Bot.run (Bot.initialState (Storage.restart emptyDisk))
                          busyDay)
  /\ snd (Bot.checkAndSend (Some laterResult) allSent
            (Bot.resumed (Bot.run (Bot.initialState
                                     (Storage.restart emptyDisk))
                                  busyDay)))
     = snd (Bot.checkAndSend (Some laterResult) allSent
              (Bot.run (Bot.initialState (Storage.restart emptyDisk))
                       busyDay)).
Proof.
  apply (restart_resumes emptyDisk busyDay (Some laterResult) allSent).
  reflexivity.
Defined.

(** X21.  Subscribing and unsubscribing.  For a chat identifier other than
    0, after [handleSubscribe] the chat is a subscriber and after
    [handleUnsubscribe] it is not; no other chat is added or removed;
    and a repeated request changes nothing and is answered by the
    notice that nothing was to be done. *)
Theorem subscription_requests (c : Z) (st : Bot.State) :
  c <> 0 ->
  NumberSet.has (Bot.subscribers (fst (Bot.handleSubscribe (Some c) st))) c
  = true
  /\ NumberSet.has
       (Bot.subscribers (fst (Bot.handleUnsubscribe (Some c) st))) c
     = false
  /\ (forall x, x <> c ->
        NumberSet.has
          (Bot.subscribers (fst (Bot.handleSubscribe (Some c) st))) x
        = NumberSet.has (Bot.subscribers st) x
        /\ NumberSet.has
             (Bot.subscribers (fst (Bot.handleUnsubscribe (Some c) st))) x
           = NumberSet.has (Bot.subscribers st) x)
  /\ Bot.handleSubscribe (Some c) (fst (Bot.handleSubscribe (Some c) st))
     = (fst (Bot.handleSubscribe (Some c) st),
        Some (Bot.alreadySubscribed, None))
  /\ Bot.handleUnsubscribe (Some c) (fst (Bot.handleUnsubscribe (Some c) st))
     = (fst (Bot.handleUnsubscribe (Some c) st),
        Some (Bot.notSubscribed, None)).
Proof.
  intros Hc. apply Z.eqb_neq in Hc.
  assert (NumberSet.has
            (Bot.subscribers (fst (Bot.handleSubscribe (Some c) st))) c
          = true) as H1.
  { unfold Bot.handleSubscribe. rewrite Hc.
    destruct (NumberSet.has (Bot.subscribers st) c) eqn:Hh; cbn [fst Bot.subscribers negb]; [exact Hh|].
    rewrite has_add, Z.eqb_refl. reflexivity. }
  assert (NumberSet.has
            (Bot.subscribers (fst (Bot.handleUnsubscribe (Some c) st))) c
          = false) as H2.
  { unfold Bot.handleUnsubscribe. rewrite Hc.
    destruct (NumberSet.has (Bot.subscribers st) c) eqn:Hh; cbn [fst Bot.subscribers negb];
      [|exact Hh].
    rewrite has_delete, Z.eqb_refl. reflexivity. }
  split; [exact H1|]. split; [exact H2|]. split; [|split].
  - intros x Hx. apply not_eq_sym, Z.eqb_neq in Hx.
    unfold Bot.handleSubscribe, Bot.handleUnsubscribe. rewrite Hc.
    destruct (NumberSet.has (Bot.subscribers st) c);
      cbn [fst Bot.subscribers negb];
      rewrite ?has_add, ?has_delete, ?Hx; auto.
  - unfold Bot.handleSubscribe at 1. rewrite Hc, H1. reflexivity.
  - unfold Bot.handleUnsubscribe at 1. rewrite Hc, H2. reflexivity.
Qed.

Lemma subscription_requests_witness :
  NumberSet.has
    (Bot.subscribers (fst (Bot.handleSubscribe (Some 33) twoSubscribers))) 33
  = true
  /\ NumberSet.has
       (Bot.subscribers (fst (Bot.handleUnsubscribe (Some 33) twoSubscribers)))
       33
     = false
  /\ (forall x, x <> 33 ->
        NumberSet.has
          (Bot.subscribers
             (fst (Bot.handleSubscribe (Some 33) twoSubscribers))) x
        = NumberSet.has (Bot.subscribers twoSubscribers) x
        /\ NumberSet.has
             (Bot.subscribers
                (fst (Bot.handleUnsubscribe (Some 33) twoSubscribers))) x
           = NumberSet.has (Bot.subscribers twoSubscribers) x)
  /\ Bot.handleSubscribe (Some 33)
       (fst (Bot.handleSubscribe (Some 33) twoSubscribers))
     = (fst (Bot.handleSubscribe (Some 33) twoSubscribers),
        Some (Bot.alreadySubscribed, None))
  /\ Bot.handleUnsubscribe (Some 33)
       (fst (Bot.handleUnsubscribe (Some 33) twoSubscribers))
     = (fst (Bot.handleUnsubscribe (Some 33) twoSubscribers),
        Some (Bot.notSubscribed, None)).
Proof.
  apply (subscription_requests 33 twoSubscribers). discriminate.
Defined.

(** ** The calendar *)

Lemma yearOfCycle_bounds (doe : Z) :
  0 <= doe < 146097 -> 0 <= yearOfCycle doe <= 399.
Proof.
  intros H. unfold yearOfCycle. Z.div_mod_to_equations. lia.
Qed.

Lemma monthOfCycle_bounds (doy : Z) :
  0 <= doy <= 365 -> 0 <= JsDate.monthOfCycle doy <= 11.
Proof.
  intros H. unfold JsDate.monthOfCycle. Z.div_mod_to_equations. lia.
Qed.

(** A day is the day its three getters name. *)
Lemma getters_day (z : Z) :
  JsDate.monthStart (JsDate.getFullYear z) (JsDate.getMonth z)
  + JsDate.getDate z - 1 = z.
Proof.
  unfold JsDate.getFullYear, JsDate.getMonth, JsDate.getDate, dayOfMonth,
    dayOfCycle, dayInYear. cbv zeta.
  set (x := z + 719468).
  assert (0 <= x mod 146097 < 146097) as Hdoe
      by (apply Z.mod_pos_bound; lia).
  pose proof (Z.div_mod x 146097 ltac:(lia)) as Hx.
  set (era := x / 146097) in *. set (doe := x mod 146097) in *.
  pose proof (yearOfCycle_bounds doe Hdoe) as Hyoe.
  pose proof (dayOfYear_bounds doe Hdoe) as Hdoy.
  pose proof (monthOfCycle_bounds _ Hdoy) as Hmp.
  assert (dayOfYear doe
          = doe - (365 * yearOfCycle doe + yearOfCycle doe / 4
                   - yearOfCycle doe / 100)) as Edoy by reflexivity.
  fold (JsDate.monthOfCycle (dayOfYear doe)).
  set (yoe := yearOfCycle doe) in *. set (doy := dayOfYear doe) in *.
  set (mp := JsDate.monthOfCycle doy) in *.
  unfold JsDate.monthStart. cbv zeta.
  assert ((if (if mp <? 10 then mp + 2 else mp - 10) <? 2
           then yoe + era * 400 + (if mp <? 10 then 0 else 1) - 1
           else yoe + era * 400 + (if mp <? 10 then 0 else 1))
          = yoe + era * 400) as ->.
  { destruct (Z.ltb_spec mp 10);
      [destruct (Z.ltb_spec (mp + 2) 2)|destruct (Z.ltb_spec (mp - 10) 2)];
      lia. }
  assert ((if (if mp <? 10 then mp + 2 else mp - 10) <? 2
           then (if mp <? 10 then mp + 2 else mp - 10) + 10
           else (if mp <? 10 then mp + 2 else mp - 10) - 2) = mp) as ->.
  { destruct (Z.ltb_spec mp 10);
      [destruct (Z.ltb_spec (mp + 2) 2)|destruct (Z.ltb_spec (mp - 10) 2)];
      lia. }
  assert ((yoe + era * 400) / 400 = era) as ->.
  { rewrite Z.div_add by lia. rewrite Z.div_small by lia. lia. }
  replace (yoe + era * 400 - era * 400) with yoe by lia.
  subst x. lia.
Qed.

Lemma same_day_iff (a b : Z) :
  (JsDate.getDate a =? JsDate.getDate b)
  && (JsDate.getMonth a =? JsDate.getMonth b)
  && (JsDate.getFullYear a =? JsDate.getFullYear b)
  = (a =? b).
Proof.
  destruct (Z.eqb_spec a b) as [->|Hab].
  - rewrite !Z.eqb_refl. reflexivity.
  - destruct (Z.eqb_spec (JsDate.getDate a) (JsDate.getDate b)) as [Hd|];
      [|reflexivity].
    destruct (Z.eqb_spec (JsDate.getMonth a) (JsDate.getMonth b)) as [Hm|];
      [|reflexivity].
    destruct (Z.eqb_spec (JsDate.getFullYear a) (JsDate.getFullYear b))
      as [Hy|]; [|reflexivity].
    exfalso. apply Hab.
    rewrite <- (getters_day a), <- (getters_day b), Hd, Hm, Hy. reflexivity.
Qed.

(** ** formatInfoTimestamp *)

(** X22.  The timestamp line.  For a text in which the pattern is found,
    the line is the lead, the time and two line feeds when the date
    written is the local day, and has the date after the time
    otherwise; a date beyond the calendar is carried on the way the
    language does before it is compared.  Without a text or a match the
    line is empty. *)
Theorem stamp_shows_other_days (today : Z) (infoText : option jsstring) :
  formatInfoTimestamp today infoText
  = match infoText with
    | None => []
    | Some text =>
        match findMatch infoRe text with
        | None => []
        | Some m =>
            stampLead ++ firstn 5 (skipn 21 m)
            ++ (if today =? dayWritten (firstn 10 (skipn 27 m))
                then []
                else 32%N :: firstn 10 (skipn 27 m))
            ++ [10%N; 10%N]
        end
    end.
Proof.
  destruct infoText as [[|c text]|]; [reflexivity| |reflexivity].
  unfold formatInfoTimestamp.
  destruct (findMatch infoRe (c :: text)) as [m|]; [|reflexivity].
  cbv zeta. rewrite same_day_iff. fold (dayWritten (firstn 10 (skipn 27 m))).
  destruct (today =? dayWritten (firstn 10 (skipn 27 m))); reflexivity.
Qed.

(** ** fetchGroupFromApi *)

Lemma not_In_includes (s : jsstring) :
  ~ In 46%N s -> includes s [46%N] = false.
Proof.
  intros H. destruct (includes s [46%N]) eqn:E; [|reflexivity].
  apply includes_unit in E. contradiction.
Qed.

(** X23.  The conversion inside [fetchGroupFromApi] against
    [parseGroupFromApi].  On the account of the building the two give
    the same group exactly for a falsy value, for a string of two units
    or more without a dot, and for a string of one unit and two dots:
    a group that arrives written with its dot, or as a number, is
    converted differently. *)
Theorem fetch_conversion (v : apiValue) :
  Bot.fetchGroupFromApi (oneAccount v) = parseGroupFromApi v
  <-> sameConversion v.
Proof.
  unfold Bot.fetchGroupFromApi, oneAccount, parseGroupFromApi.
  cbn [find Bot.buildingName]. rewrite eqs_refl.
  cbv beta iota zeta. cbn [Bot.chergGpv].
  destruct v as [| |s|n]; cbn [apiFalsy apiToString sameConversion].
  - tauto.
  - tauto.
  - destruct s as [|c0 s]; cbn [nonEmpty negb]; [tauto|].
    cbv zeta. cbn [Bot.unitAt nth_error].
    destruct (includes (c0 :: s) [46%N]) eqn:Ei.
    + apply includes_unit in Ei.
      destruct s as [|c1 s]; cbn [nth_error app].
      * split; [discriminate|].
        intros [H|[[_ H]|[c H]]]; [discriminate H|cbn in H; lia|
                                    discriminate H].
      * split.
        -- intros [= -> ->]. right. right. exists c0. reflexivity.
        -- intros [H|[[H _]|[c H]]]; [discriminate H|contradiction|].
           injection H as -> -> ->. reflexivity.
    + assert (~ In 46%N (c0 :: s)) as Hn.
      { intros H. apply includes_unit in H. congruence. }
      destruct s as [|c1 s]; cbn [nth_error app].
      * split; [discriminate|].
        intros [H|[[_ H]|[c H]]]; [discriminate H|cbn in H; lia|
                                    discriminate H].
      * split; [|reflexivity]. intros _. right. left.
        split; [exact Hn|cbn; lia].
  - destruct (Z.eqb_spec n 0) as [->|Hn]; [tauto|].
    cbv zeta. cbn [Bot.unitAt].
    split; [|contradiction]. intros E. exfalso.
    destruct (includes (numberToString n) [46%N]) eqn:Ei.
    + apply includes_unit in Ei.
      assert (Forall (fun c => c = 45%N \/ isDigit c = true)
                     (numberToString n)) as Hd.
      { unfold numberToString. destruct (n <? 0).
        - constructor; [auto|].
          eapply Forall_impl; [|apply unitsOfUint_digits]. cbn. auto.
        - eapply Forall_impl; [|apply unitsOfUint_digits]. cbn. auto. }
      rewrite Forall_forall in Hd. destruct (Hd _ Ei) as [H|H];
        discriminate H.
    + unfold Bot.undefinedText in E. cbn [app] in E.
      destruct (numberToString n) as [|c0 [|c1 rest]]; discriminate E.
Qed.

(** ** buildScheduleMessage and buildStatusMessage *)

Lemma extract_some (paragraphs : jsstring -> list jsstring)
      (html group t : jsstring) :
  extractGroupText paragraphs html group = Some t ->
  html <> [] /\ t <> [].
Proof.
  unfold extractGroupText. destruct html as [|c html]; [discriminate|].
  rewrite each_fold.
  destruct (find _ _) as [u|] eqn:Ef; [|discriminate].
  intros [= <-]. split; [discriminate|].
  apply find_some in Ef as [_ Hu]. unfold matchesGroup, groupPrefix in Hu.
  intros ->. discriminate Hu.
Qed.

Lemma timeLines_head (l : list jsstring) :
  l <> [] -> hd 0%N (timeLines l) = 9201%N.
Proof. destruct l as [|t l]; [congruence|reflexivity]. Qed.

Lemma content_head (g today : jsstring) (tomorrow : option jsstring) :
  hd 0%N (buildScheduleContent g today tomorrow) <> 10060%N.
Proof.
  rewrite content_sections.
  pose proof (viewOf_good today) as Hv.
  destruct (viewOf today) as [l| |]; cbn [renderToday goodView] in *.
  - destruct Hv as [Hl _]. destruct l as [|t l]; [congruence|].
    cbn. discriminate.
  - cbn. discriminate.
  - cbn. discriminate.
Qed.

Lemma content_not_error (g today : jsstring) (tomorrow : option jsstring) :
  buildScheduleContent g today tomorrow <> Bot.errorMsg g.
Proof.
  intros E. apply (content_head g today tomorrow). rewrite E. reflexivity.
Qed.

Lemma schedule_message_cases (paragraphs : jsstring -> list jsstring)
      (g : jsstring) (day : Z) (site : Bot.ScheduleData) :
  match extractGroupText paragraphs (Bot.today site) g with
  | Some t =>
      Bot.buildScheduleMessage paragraphs g day site
      = Bot.mkResult
          (formatInfoTimestamp day
             (extractInfoText paragraphs (Bot.today site))
           ++ buildScheduleContent g t
                (extractGroupText paragraphs (Bot.tomorrow site) g))
          (buildScheduleContent g t
             (extractGroupText paragraphs (Bot.tomorrow site) g))
  | None =>
      Bot.buildScheduleMessage paragraphs g day site
      = Bot.mkResult (Bot.errorMsg g) (Bot.errorMsg g)
  end.
Proof.
  unfold Bot.buildScheduleMessage. cbv zeta.
  set (html := Bot.today site).
  destruct (extractGroupText paragraphs html g) as [t|] eqn:E.
  - destruct (extract_some _ _ _ _ E) as [Hh Ht].
    destruct html as [|c html]; [congruence|].
    destruct t as [|c' t]; [congruence|]. reflexivity.
  - destruct html as [|c html]; reflexivity.
Qed.

Lemma stamp_head (day : Z) (infoText : option jsstring) :
  formatInfoTimestamp day infoText = []
  \/ exists rest, formatInfoTimestamp day infoText = 55357%N :: rest.
Proof.
  unfold formatInfoTimestamp. destruct infoText as [[|c text]|]; auto.
  destruct (findMatch infoRe (c :: text)) as [m|]; auto. cbv zeta.
  right. destruct (_ && _ && _); unfold stampLead; cbn [app]; eauto.
Qed.

Lemma full_not_error (g today : jsstring) (tomorrow : option jsstring)
      (day : Z) (infoText : option jsstring) :
  formatInfoTimestamp day infoText ++ buildScheduleContent g today tomorrow
  <> Bot.errorMsg g.
Proof.
  destruct (stamp_head day infoText) as [->|[rest ->]].
  - apply content_not_error.
  - discriminate.
Qed.

(** X24.  Missing data.  The schedule message is the not-found text, as
    content and as full message, exactly when no paragraph of today's
    page is the group's; the status message is its own not-found text
    in the same case and no other. *)
Theorem not_found_together (paragraphs : jsstring -> list jsstring)
        (g : jsstring) (day : Z) (now : Instant) (site : Bot.ScheduleData) :
  (Bot.scheduleContent (Bot.buildScheduleMessage paragraphs g day site)
   = Bot.errorMsg g
   <-> extractGroupText paragraphs (Bot.today site) g = None)
  /\ (Bot.fullMessage (Bot.buildScheduleMessage paragraphs g day site)
      = Bot.errorMsg g
      <-> extractGroupText paragraphs (Bot.today site) g = None)
  /\ (Bot.buildStatusMessage paragraphs g now site = Bot.statusNotFound
      <-> extractGroupText paragraphs (Bot.today site) g = None).
Proof.
  pose proof (schedule_message_cases paragraphs g day site) as H.
  unfold Bot.buildStatusMessage. cbv zeta.
  destruct (extractGroupText paragraphs (Bot.today site) g) as [t|] eqn:E.
  - rewrite H. cbn [Bot.scheduleContent Bot.fullMessage].
    destruct (extract_some _ _ _ _ E) as [_ Ht].
    destruct t as [|c t]; [congruence|].
    split; [|split]; (split; [|discriminate]); intros K; exfalso.
    + apply (content_not_error _ _ _ K).
    + apply (full_not_error _ _ _ _ _ K).
    + discriminate K.
  - rewrite H. cbn [Bot.scheduleContent Bot.fullMessage]. tauto.
Qed.

(** ** A check after a check *)

Lemma differs_false_iff (content : jsstring) (s : jsstring) :
  Bot.differs content (Some s) = false <-> content = s.
Proof.
  unfold Bot.differs. rewrite negb_false_iff. split.
  - apply eqs_eq.
  - intros ->. apply eqs_refl.
Qed.

(** X25.  Subscribers hear of a change of the schedule and of nothing
    else.  Of two checks in a row that both find the group's paragraph
    on today's page, the second writes to nobody and changes nothing when
    what is read from today's and tomorrow's paragraphs is the same as
    at the first, whatever the timestamp and the day; and it writes to
    every subscriber when it is not. *)
Theorem notified_of_changes_only (paragraphs : jsstring -> list jsstring)
        (day1 day2 : Z) (site1 site2 : Bot.ScheduleData)
        (send1 send2 : Z -> Bot.SendOutcome) (st : Bot.State) :
  extractGroupText paragraphs (Bot.today site1) (Bot.GROUP st) <> None ->
  extractGroupText paragraphs (Bot.today site2) (Bot.GROUP st) <> None ->
  (sameSchedule paragraphs (Bot.GROUP st) site1 site2 ->
   checkOf paragraphs day2 site2 send2
           (fst (checkOf paragraphs day1 site1 send1 st))
   = (fst (checkOf paragraphs day1 site1 send1 st), []))
  /\ (~ sameSchedule paragraphs (Bot.GROUP st) site1 site2 ->
      snd (checkOf paragraphs day2 site2 send2
                   (fst (checkOf paragraphs day1 site1 send1 st)))
      = Bot.subscribers (fst (checkOf paragraphs day1 site1 send1 st))).
Proof.
  intros E1 E2. unfold checkOf, sameSchedule, todayView, tomorrowView.
  set (g := Bot.GROUP st) in *.
  set (r1 := Bot.buildScheduleMessage paragraphs g day1 site1).
  set (st1 := fst (Bot.checkAndSend (Some r1) send1 st)).
  assert (Bot.GROUP st1 = g) as Hg.
  { subst st1. unfold Bot.checkAndSend.
    destruct (Bot.differs _ _); [|reflexivity].
    destruct (Bot.sendToAll _ _ _ _) as [[subs w2] written]. reflexivity. }
  rewrite Hg.
  pose proof (checkAndSend_lastState r1 send1 st) as Hl. fold st1 in Hl.
  pose proof (schedule_message_cases paragraphs g day1 site1) as H1.
  pose proof (schedule_message_cases paragraphs g day2 site2) as H2.
  destruct (extractGroupText paragraphs (Bot.today site1) g) as [t1|];
    [|congruence].
  destruct (extractGroupText paragraphs (Bot.today site2) g) as [t2|];
    [|congruence].
  fold r1 in H1.
  set (r2 := Bot.buildScheduleMessage paragraphs g day2 site2) in *.
  cbn [option_map].
  assert (Bot.scheduleContent r2 = Bot.scheduleContent r1
          <-> Some (viewOf t1) = Some (viewOf t2)
              /\ tomorrowViewOf
                   (extractGroupText paragraphs (Bot.tomorrow site1) g)
                 = tomorrowViewOf
                     (extractGroupText paragraphs (Bot.tomorrow site2) g))
    as Hiff.
  { rewrite H1, H2. cbn [Bot.scheduleContent].
    split.
    - intros K. symmetry in K. apply content_eq_iff in K as [-> K].
      auto.
    - intros [[= K1] K2]. symmetry. apply content_eq_iff. auto. }
  split.
  - intros Hs. apply Hiff in Hs.
    unfold Bot.checkAndSend. rewrite Hl.
    apply differs_false_iff in Hs. rewrite Hs. reflexivity.
  - intros Hs. rewrite checkAndSend_written, Hl.
    destruct (Bot.differs (Bot.scheduleContent r2)
                          (Some (Bot.scheduleContent r1))) eqn:Ed;
      [reflexivity|].
    exfalso. apply Hs, Hiff, differs_false_iff, Ed.
Qed.

Lemma notified_of_changes_only_witness :
  (sameSchedule twoParagraphs (Bot.GROUP twoSubscribers)
                morningSite eveningSite ->
   checkOf twoParagraphs 20760 eveningSite allSent
           (fst (checkOf twoParagraphs 20759 morningSite blockedBy22
                         twoSubscribers))
   = (fst (checkOf twoParagraphs 20759 morningSite blockedBy22
                   twoSubscribers), []))
  /\ (~ sameSchedule twoParagraphs (Bot.GROUP twoSubscribers)
                     morningSite eveningSite ->
      snd (checkOf twoParagraphs 20760 eveningSite allSent
                   (fst (checkOf twoParagraphs 20759 morningSite blockedBy22
                                 twoSubscribers)))
      = Bot.subscribers
          (fst (checkOf twoParagraphs 20759 morningSite blockedBy22
                        twoSubscribers))).
Proof.
  apply (notified_of_changes_only twoParagraphs 20759 20760
           morningSite eveningSite blockedBy22 allSent twoSubscribers);
    vm_compute; discriminate.
Defined.

(** ** The usual sentence, read by the two parsers *)

Lemma labelOf_units (m : jsstring * jsstring) :
  isTimeStr (fst m) -> isTimeStr (snd m) -> Forall labelUnit (labelOf m).
Proof.
  destruct m as [x y]. cbn [fst snd].
  intros (a & b & c & d & -> & Ha & Hb & Hc & Hd)
         (a' & b' & c' & d' & -> & Ha' & Hb' & Hc' & Hd').
  unfold labelOf, labelUnit. cbn [fst snd app untilWord].
  repeat (apply Forall_cons; [auto 8|]). constructor.
Qed.

Lemma labelUnit_facts (c : N) :
  labelUnit c ->
  (c =? 1079)%N = false /\ (c =? 44)%N = false /\ (c =? 46)%N = false
  /\ isLineTerminator c = false /\ isWhiteSpace c = (c =? 32)%N.
Proof.
  intros [H|[->|[->|[->| ->]]]]; try (repeat split; reflexivity).
  pose proof (digit_not_space c H) as Hs.
  apply isDigit_range in H. unfold isLineTerminator. rewrite Hs.
  repeat split;
    repeat match goal with
           | |- context [(?a =? ?b)%N] => destruct (N.eqb_spec a b)
           end; cbn; try reflexivity; lia.
Qed.

(** *** The ranges *)

Lemma rangeRe_head (s : jsstring) :
  matchItems rangeRe s = true -> hd 0%N s = 1079%N.
Proof.
  destruct s as [|c s]; [discriminate|]. unfold rangeRe.
  cbn [matchItems hd]. intros H. apply andb_true_iff in H as [H _].
  apply N.eqb_eq, H.
Qed.

Lemma execAll_other (s : jsstring) : forall rest,
  ~ In 1079%N s -> execAll 0 (s ++ rest) = execAll 0 rest.
Proof.
  induction s as [|c s IH]; intros rest Hn; [reflexivity|].
  cbn [app execAll].
  destruct (matchItems rangeRe (c :: s ++ rest)) eqn:E.
  - exfalso. apply rangeRe_head in E. cbn [hd] in E. apply Hn. left.
    exact E.
  - apply IH. intros H. apply Hn. right. exact H.
Qed.

Lemma execAll_span (m : jsstring * jsstring) (rest : jsstring) :
  isTimeStr (fst m) -> isTimeStr (snd m) ->
  execAll 0 (spanText m ++ rest) = m :: execAll 0 rest.
Proof.
  destruct m as [x y]. cbn [fst snd].
  intros (a & b & c & d & -> & Ha & Hb & Hc & Hd)
         (a' & b' & c' & d' & -> & Ha' & Hb' & Hc' & Hd').
  unfold spanText, labelOf. cbn [fst snd app untilWord].
  cbn [execAll]. unfold rangeRe. cbn [matchItems].
  rewrite Ha, Hb, Hc, Hd, Ha', Hb', Hc', Hd', !N.eqb_refl. cbn [andb].
  reflexivity.
Qed.

Lemma execAll_more (ms : list (jsstring * jsstring)) :
  Forall (fun m => isTimeStr (fst m) /\ isTimeStr (snd m)) ms ->
  execAll 0 (concat (map (fun m' => 44%N :: 32%N :: spanText m') ms)
             ++ [46%N]) = ms.
Proof.
  induction 1 as [|m ms [Hs He] _ IH]; [reflexivity|].
  cbn [map concat app]. rewrite <- app_assoc.
  change (execAll 0 ([44%N; 32%N]
                     ++ spanText m
                     ++ concat (map (fun m' => 44%N :: 32%N :: spanText m')
                                    ms)
                     ++ [46%N]) = m :: ms).
  rewrite execAll_other by (intros [H|[H|[]]]; discriminate H).
  rewrite execAll_span by assumption. rewrite IH. reflexivity.
Qed.

Lemma sentence_ranges (pre : jsstring) (ms : list (jsstring * jsstring)) :
  ~ In 1079%N pre ->
  Forall (fun m => isTimeStr (fst m) /\ isTimeStr (snd m)) ms ->
  execAll 0 (sentence pre ms) = ms.
Proof.
  intros Hpre Hms. unfold sentence.
  rewrite execAll_other by exact Hpre.
  rewrite execAll_other by (apply notIn_check; reflexivity).
  destruct Hms as [|m ms [Hs He] Hms]; [reflexivity|].
  cbn [listOfSpans]. rewrite <- app_assoc, execAll_span by assumption.
  rewrite execAll_more by exact Hms. reflexivity.
Qed.

(** *** The labels *)

Lemma outageRe_z (s : jsstring) :
  matchItems outageRe s = true -> In 1079%N (firstn 7 s).
Proof.
  unfold outageRe. intros H.
  do 7 (destruct s as [|? s]; [discriminate H|];
        cbn [matchItems] in H;
        apply andb_true_iff in H; destruct H as [? H]).
  repeat match goal with
         | E : (_ =? _)%N = true |- _ => apply N.eqb_eq in E; subst
         end.
  cbn. auto 10.
Qed.

Lemma In_firstn (A : Type) (x : A) (l : list A) : forall n,
  In x (firstn n l) -> In x l.
Proof.
  induction l as [|y l IH]; intros [|n] H; cbn [firstn] in H;
    try contradiction.
  destruct H as [H|H]; [left; exact H|right; apply (IH n), H].
Qed.

Lemma In_firstn_le (A : Type) (x : A) (l : list A) : forall n m,
  (n <= m)%nat -> In x (firstn n l) -> In x (firstn m l).
Proof.
  induction l as [|y l IH]; intros [|n] [|m] Hle H; cbn [firstn] in *;
    try contradiction; try lia.
  destruct H as [H|H]; [left; exact H|right; apply (IH n m); [lia|exact H]].
Qed.

Lemma no_match_before (p rest : jsstring) :
  p <> [] -> ~ In 1079%N p ->
  matchItems outageRe (p ++ noPowerWord ++ rest) = false.
Proof.
  intros Hp Hn. destruct (matchItems outageRe _) eqn:E; [|reflexivity].
  exfalso. apply outageRe_z in E. rewrite firstn_app in E.
  apply in_app_or in E as [E|E].
  - apply Hn. apply (In_firstn _ _ _ _ E).
  - assert (7 - length p <= 6)%nat as Hle
        by (destruct p; [congruence|cbn [length]; lia]).
    apply (In_firstn_le _ _ _ _ 6%nat Hle) in E.
    cbn in E. intuition discriminate.
Qed.

Lemma sentence_match (pre rest : jsstring) :
  ~ In 1079%N pre ->
  findMatch outageRe (pre ++ noPowerWord ++ rest)
  = findMatch outageRe (noPowerWord ++ rest).
Proof.
  intros Hn. apply findMatch_after. intros k Hk.
  rewrite skipn_app.
  replace (k - length pre)%nat with 0%nat by lia. cbn [skipn].
  apply no_match_before.
  - intros E. apply (f_equal (@length N)) in E.
    rewrite length_skipn in E. cbn in E. lia.
  - intros H. apply Hn.
    rewrite <- (firstn_skipn k pre). apply in_or_app. right. exact H.
Qed.

Lemma takeWhile_all (p : N -> bool) (s : jsstring) :
  Forall (fun c => p c = true) s -> takeWhile p s = s.
Proof.
  induction 1 as [|c s Hc _ IH]; cbn [takeWhile]; [reflexivity|].
  rewrite Hc, IH. reflexivity.
Qed.

Lemma split_plain (s : jsstring) :
  Forall (fun c => (c =? 44)%N = false) s -> split 44 s = [s].
Proof.
  induction 1 as [|c s Hc _ IH]; cbn [split]; [reflexivity|].
  rewrite Hc, IH. reflexivity.
Qed.

Lemma split_comma (a b : jsstring) :
  Forall (fun c => (c =? 44)%N = false) a ->
  split 44 (a ++ 44%N :: b) = a :: split 44 b.
Proof.
  induction 1 as [|c s Hc _ IH]; cbn [app split]; [reflexivity|].
  rewrite Hc, IH. reflexivity.
Qed.

Lemma dropFirstZ_none (t : jsstring) :
  Forall (fun c => (c =? 1079)%N = false) t -> dropFirstZ t = t.
Proof.
  induction 1 as [|c s Hc _ IH]; cbn [dropFirstZ]; [reflexivity|].
  rewrite Hc, IH. reflexivity.
Qed.

Lemma dropFinalDot_dot (t : jsstring) : dropFinalDot (t ++ [46%N]) = t.
Proof.
  unfold dropFinalDot. rewrite rev_app_distr. cbn [rev app].
  rewrite N.eqb_refl. apply rev_involutive.
Qed.

Lemma dropFinalDot_other (t : jsstring) (c : N) :
  (c =? 46)%N = false -> dropFinalDot (t ++ [c]) = t ++ [c].
Proof.
  intros H. unfold dropFinalDot. rewrite rev_app_distr. cbn [rev app].
  rewrite H. reflexivity.
Qed.

Lemma trim_tight (c d : N) (t : jsstring) :
  isWhiteSpace c = false -> isWhiteSpace d = false ->
  trim (c :: t ++ [d]) = c :: t ++ [d].
Proof.
  intros Hc Hd. unfold trim, trimEnd, trimStart. cbn [dropWhile].
  rewrite Hc.
  change (c :: t ++ [d]) with ((c :: t) ++ [d]).
  rewrite rev_app_distr. cbn [rev app dropWhile]. rewrite Hd.
  change (d :: rev t ++ [c]) with ([d] ++ rev (c :: t)).
  rewrite rev_app_distr, rev_involutive. reflexivity.
Qed.

(** A label, taken apart at its ends. *)
Lemma label_ends (m : jsstring * jsstring) :
  isTimeStr (fst m) -> isTimeStr (snd m) ->
  exists c t d,
    labelOf m = c :: t ++ [d]
    /\ isDigit c = true /\ isDigit d = true.
Proof.
  destruct m as [x y]. cbn [fst snd].
  intros (a & b & c & d & -> & Ha & Hb & Hc & Hd)
         (a' & b' & c' & d' & -> & Ha' & Hb' & Hc' & Hd').
  exists a, [b; 58%N; c; d; 32%N; 1076%N; 1086%N; 32%N; a'; b'; 58%N; c'], d'.
  repeat split; assumption.
Qed.

Lemma digit_not_dot (c : N) : isDigit c = true -> (c =? 46)%N = false.
Proof.
  intros H. apply isDigit_range in H. apply N.eqb_neq. lia.
Qed.

Lemma clean_label (m : jsstring * jsstring) :
  isTimeStr (fst m) -> isTimeStr (snd m) ->
  cleanPiece (labelOf m) = labelOf m
  /\ cleanPiece (labelOf m ++ [46%N]) = labelOf m
  /\ cleanPiece (32%N :: spanText m) = labelOf m
  /\ cleanPiece (32%N :: spanText m ++ [46%N]) = labelOf m.
Proof.
  intros Hs He.
  pose proof (labelOf_units m Hs He) as Hu.
  assert (Forall (fun c => (c =? 1079)%N = false) (labelOf m)) as Hz.
  { eapply Forall_impl; [|exact Hu]. intros c Hc.
    apply (labelUnit_facts c Hc). }
  destruct (label_ends m Hs He) as (c & t & d & E & Hc & Hd).
  assert (trim (labelOf m) = labelOf m) as Ht.
  { rewrite E. apply trim_tight; apply digit_not_space; assumption. }
  assert (dropFinalDot (labelOf m) = labelOf m) as Hdot.
  { rewrite E. change (c :: t ++ [d]) with ((c :: t) ++ [d]).
    apply dropFinalDot_other, digit_not_dot, Hd. }
  assert (dropWhile isWhiteSpace (labelOf m) = labelOf m) as Hw.
  { rewrite E. cbn [dropWhile]. rewrite (digit_not_space c Hc). reflexivity. }
  assert (forall x, dropFirstZ (32%N :: spanText m ++ x)
                    = 32%N :: labelOf m ++ x) as Hdz.
  { intros x. unfold spanText. cbn [app dropFirstZ].
    change (32 =? 1079)%N with false. rewrite N.eqb_refl.
    cbn [dropWhile]. change (isWhiteSpace 32) with true. cbv iota.
    f_equal. rewrite E. cbn [app dropWhile].
    rewrite (digit_not_space c Hc). reflexivity. }
  assert (trim (32%N :: labelOf m) = labelOf m) as Hts.
  { unfold trim, trimStart. cbn [dropWhile].
    change (isWhiteSpace 32) with true. cbv iota.
    rewrite Hw. unfold trim, trimStart in Ht. rewrite Hw in Ht. exact Ht. }
  unfold cleanPiece. repeat split.
  - rewrite dropFirstZ_none, Hdot by exact Hz. exact Ht.
  - rewrite dropFirstZ_none.
    + rewrite dropFinalDot_dot. exact Ht.
    + apply Forall_app. split; [exact Hz|repeat constructor].
  - pose proof (Hdz []) as K. rewrite !app_nil_r in K. rewrite K.
    change (32%N :: labelOf m) with ([32%N] ++ labelOf m).
    rewrite E. change ([32%N] ++ c :: t ++ [d])
      with ((32%N :: c :: t) ++ [d]).
    rewrite dropFinalDot_other by (apply digit_not_dot, Hd).
    change ((32%N :: c :: t) ++ [d]) with (32%N :: (c :: t ++ [d])).
    rewrite <- E. exact Hts.
  - change (32%N :: spanText m ++ [46%N])
      with (32%N :: spanText m ++ [46%N]).
    rewrite Hdz.
    change (32%N :: labelOf m ++ [46%N])
      with ((32%N :: labelOf m) ++ [46%N]).
    rewrite dropFinalDot_dot. exact Hts.
Qed.

Lemma span_no_comma (m : jsstring * jsstring) :
  isTimeStr (fst m) -> isTimeStr (snd m) ->
  Forall (fun c => (c =? 44)%N = false) (32%N :: spanText m).
Proof.
  intros Hs He. unfold spanText. repeat (constructor; [reflexivity|]).
  eapply Forall_impl; [|apply (labelOf_units m Hs He)].
  intros c Hc. apply (labelUnit_facts c Hc).
Qed.

Lemma pieces_clean (ms : list (jsstring * jsstring)) :
  Forall (fun m => isTimeStr (fst m) /\ isTimeStr (snd m)) ms ->
  forall x lab,
    Forall (fun c => (c =? 44)%N = false) x ->
    cleanPiece x = lab -> cleanPiece (x ++ [46%N]) = lab ->
    map cleanPiece
        (split 44 (x ++ concat (map (fun m' => 44%N :: 32%N :: spanText m')
                                    ms)
                   ++ [46%N]))
    = lab :: map labelOf ms.
Proof.
  induction 1 as [|m ms [Hs He] _ IH]; intros x lab Hx H1 H2.
  - cbn [map concat app]. rewrite split_plain.
    + cbn [map]. rewrite H2. reflexivity.
    + apply Forall_app. split; [exact Hx|repeat constructor].
  - cbn [map concat].
    change ((44%N :: 32%N :: spanText m)
            ++ concat (map (fun m' => 44%N :: 32%N :: spanText m') ms))
      with (44%N :: (32%N :: spanText m)
            ++ concat (map (fun m' => 44%N :: 32%N :: spanText m') ms)).
    change ((44%N :: (32%N :: spanText m)
             ++ concat (map (fun m' => 44%N :: 32%N :: spanText m') ms))
            ++ [46%N])
      with (44%N :: ((32%N :: spanText m)
                     ++ concat (map (fun m' => 44%N :: 32%N :: spanText m')
                                    ms))
                    ++ [46%N]).
    rewrite split_comma by exact Hx. cbn [map]. rewrite H1. f_equal.
    rewrite <- app_assoc.
    destruct (clean_label m Hs He) as (_ & _ & K1 & K2).
    apply IH; [apply span_no_comma; assumption|exact K1|exact K2].
Qed.

Lemma labels_nonEmpty (ms : list (jsstring * jsstring)) :
  Forall (fun m => isTimeStr (fst m) /\ isTimeStr (snd m)) ms ->
  filter nonEmpty (map labelOf ms) = map labelOf ms.
Proof.
  induction 1 as [|m ms [Hs He] _ IH]; [reflexivity|].
  cbn [map filter]. destruct (label_ends m Hs He) as (c & t & d & E & _).
  rewrite E at 1. cbn [nonEmpty]. rewrite IH. reflexivity.
Qed.

Lemma sentence_labels (pre : jsstring) (ms : list (jsstring * jsstring)) :
  ~ In 1079%N pre ->
  Forall (fun m => isTimeStr (fst m) /\ isTimeStr (snd m)) ms ->
  parseOutageTimes (sentence pre ms) = map labelOf ms.
Proof.
  intros Hpre Hms. unfold parseOutageTimes, sentence.
  rewrite sentence_match by exact Hpre.
  destruct Hms as [|m ms [Hs He] Hms]; [reflexivity|].
  cbn [listOfSpans]. unfold spanText at 1.
  cbn [noPowerWord app findMatch outageRe matchItems].
  rewrite !N.eqb_refl. cbn [andb skipn].
  assert (Forall (fun c => negb (isLineTerminator c) = true)
                 (labelOf m
                  ++ concat (map (fun m' => 44%N :: 32%N :: spanText m') ms)
                  ++ [46%N])) as Hplain.
  { apply Forall_app. split; [|apply Forall_app; split].
    - eapply Forall_impl; [|apply (labelOf_units m Hs He)].
      intros c Hc. apply negb_true_iff, (labelUnit_facts c Hc).
    - clear -Hms. induction Hms as [|m' ms [Hs He] _ IH]; [constructor|].
      cbn [map concat]. unfold spanText.
      repeat (constructor; [reflexivity|]).
      apply Forall_app. split; [|exact IH].
      eapply Forall_impl; [|apply (labelOf_units m' Hs He)].
      intros c Hc. apply negb_true_iff, (labelUnit_facts c Hc).
    - repeat constructor. }
  rewrite <- app_assoc, (takeWhile_all _ _ Hplain).
  change (fun t => trim (dropFinalDot (dropFirstZ t))) with cleanPiece.
  destruct (clean_label m Hs He) as (K1 & K2 & _ & _).
  rewrite (pieces_clean ms Hms (labelOf m) (labelOf m)); try assumption.
  - apply (labels_nonEmpty (m :: ms)). constructor; [split|]; assumption.
  - eapply Forall_impl; [|apply (labelOf_units m Hs He)].
    intros c Hc. apply (labelUnit_facts c Hc).
Qed.

Lemma sumZ_perm (l1 l2 : list Z) :
  Permutation l1 l2 -> sumZ l1 = sumZ l2.
Proof.
  unfold sumZ. induction 1; cbn [fold_right]; lia.
Qed.

(** X26.  The two parsers on the usual sentence.  When the text is some
    words without the letter [з], the words that open the list, spans
    of two time strings separated by commas, and a full stop, the labels
    [parseOutageTimes] shows are those of the spans, in order, and the
    ranges [parseTimeRanges] builds are those of the same spans: what is
    shown is what the status is computed from. *)
Theorem sentence_read_alike (pre : jsstring)
        (ms : list (jsstring * jsstring)) (base : Instant) :
  ~ In 1079%N pre ->
  Forall (fun m => isTimeStr (fst m) /\ isTimeStr (snd m)) ms ->
  parseOutageTimes (sentence pre ms) = map labelOf ms
  /\ Permutation (parseTimeRanges (sentence pre ms) base)
                 (map (rangeOfMatch base) ms).
Proof.
  intros Hpre Hms. split; [apply sentence_labels; assumption|].
  unfold parseTimeRanges. rewrite sentence_ranges by assumption.
  apply sortRanges_perm.
Qed.

Lemma sentence_read_alike_witness :
  sentence (js "Група 1.2. Електроенергії ")
           [(js "05:30", js "12:30"); (js "16:00", js "21:00");
            (js "23:00", js "24:00")]
  = scenarioToday
  /\ parseOutageTimes
       (sentence (js "Група 1.2. Електроенергії ")
                 [(js "05:30", js "12:30"); (js "16:00", js "21:00");
                  (js "23:00", js "24:00")])
     = map labelOf [(js "05:30", js "12:30"); (js "16:00", js "21:00");
                    (js "23:00", js "24:00")]
  /\ Permutation
       (parseTimeRanges
          (sentence (js "Група 1.2. Електроенергії ")
                    [(js "05:30", js "12:30"); (js "16:00", js "21:00");
                     (js "23:00", js "24:00")])
          lateEvening)
       (map (rangeOfMatch lateEvening)
            [(js "05:30", js "12:30"); (js "16:00", js "21:00");
             (js "23:00", js "24:00")]).
Proof.
  split; [vm_compute; reflexivity|].
  apply (sentence_read_alike (js "Група 1.2. Електроенергії ")).
  - apply notIn_check. vm_compute. reflexivity.
  - repeat constructor; vm_compute; do 4 eexists;
      (split; [reflexivity|repeat split]).
Defined.

(** X27.  Hours shown, hours counted.  On the usual sentence, the
    minutes [calculateTotalHours] adds up over the labels of
    [parseOutageTimes] are the total length of the ranges of
    [parseTimeRanges]. *)
Theorem sentence_total (pre : jsstring) (ms : list (jsstring * jsstring))
        (base : Instant) :
  ~ In 1079%N pre ->
  Forall (fun m => isTimeStr (fst m) /\ isTimeStr (snd m)) ms ->
  totalMinutes (parseOutageTimes (sentence pre ms)) * MINUTE
  = sumZ (map duration (parseTimeRanges (sentence pre ms) base)).
Proof.
  intros Hpre Hms. rewrite sentence_labels by assumption.
  rewrite (totalMinutes_sum ms base Hms).
  apply sumZ_perm, Permutation_map, Permutation_sym.
  unfold parseTimeRanges. rewrite sentence_ranges by assumption.
  apply sortRanges_perm.
Qed.

Lemma sentence_total_witness :
  totalMinutes
    (parseOutageTimes
       (sentence (js "Група 1.2. Електроенергії ")
                 [(js "05:30", js "12:30"); (js "23:00", js "24:00")]))
  * MINUTE
  = sumZ (map duration
              (parseTimeRanges
                 (sentence (js "Група 1.2. Електроенергії ")
                           [(js "05:30", js "12:30");
                            (js "23:00", js "24:00")])
                 lateEvening)).
Proof.
  apply (sentence_total (js "Група 1.2. Електроенергії ")).
  - apply notIn_check. vm_compute. reflexivity.
  - repeat constructor; vm_compute; do 4 eexists;
      (split; [reflexivity|repeat split]).
Defined.

(** ** The status, range by range *)

Lemma parse_sorted_tomorrow (tomorrow : option jsstring) (now : Instant) :
  StronglySorted byStart (tomorrowRangesOf tomorrow now).
Proof.
  unfold tomorrowRangesOf. destruct tomorrow as [[|c t]|]; try constructor.
  apply parse_sorted.
Qed.

(** What the loop over today's ranges, sorted by their starts, comes to:
    it falls through, every range being passed; or it stops at the
    first range that [now] is in; or it stops before the first range
    that starts after [now], no range holding [now]. *)
Lemma checkToday_outcome (sod now : Instant) (tm : list Range) (len : nat)
      (st : ElectricityStatusResult) (l : list Range) : forall i,
  sod <= now < sod + DAY ->
  Forall (parsedOn sod) l ->
  StronglySorted byStart l ->
  (checkToday now tm len i l st = st
   /\ Forall (fun r => ~ inside now r /\ start r <= now) l)
  \/ (exists r,
        In r l /\ now < start r
        /\ Forall (fun r' => ~ inside now r') l
        /\ Forall (fun r' => now < start r' -> start r <= start r') l
        /\ checkToday now tm len i l st
           = mkStatus true (Some (diffMinutes (start r) now))
                      (isTomorrow st) (tomorrowFirstOutage st)
                      (hasTomorrowSchedule st))
  \/ (exists r,
        In r l /\ inside now r
        /\ Forall (fun r' => inside now r' -> start r <= start r') l
        /\ isOn (checkToday now tm len i l st) = false
        /\ ((isTomorrow (checkToday now tm len i l st) = isTomorrow st
             /\ minutesUntilChange (checkToday now tm len i l st)
                = Some (diffMinutes (end_ r) now))
            \/ (isTomorrow (checkToday now tm len i l st) = true
                /\ exists t,
                     hd_error tm = Some t
                     /\ minutesUntilChange (checkToday now tm len i l st)
                        = Some (diffMinutes (end_ t) now)))).
Proof.
  intros i Hnow Hl Hs. revert i.
  induction Hl as [|r l Hr Hl IH]; intros i; cbn [checkToday].
  - left. split; [reflexivity|constructor].
  - inversion Hs as [|? ? Hs' Hle]; subst. specialize (IH Hs').
    unfold byStart in Hle.
    pose proof (isBetween_inside sod now r Hr ltac:(lia)) as Hin.
    destruct (isBetween now (start r) (end_ r)) eqn:Eb.
    + right. right. exists r.
      assert (inside now r) as Hi by (apply Hin; reflexivity).
      split; [left; reflexivity|]. split; [exact Hi|].
      split.
      { constructor; [lia|].
        eapply Forall_impl; [|exact Hle]. cbn. intros r' H _. exact H. }
      destruct tm as [|t tm'].
      * rewrite !andb_false_r. cbn. auto.
      * destruct (_ && _ && _); [destruct (_ && _)|]; cbn; eauto 8.
    + assert (~ inside now r) as Hout
          by (intros Hi; apply Hin in Hi; congruence).
      destruct (isBefore now (start r)) eqn:Ea.
      * unfold isBefore in Ea. apply Z.ltb_lt in Ea.
        right. left. exists r.
        split; [left; reflexivity|]. split; [exact Ea|].
        split; [|split; [|reflexivity]].
        -- constructor; [exact Hout|].
           eapply Forall_impl; [|exact Hle]. cbn. unfold inside.
           intros r' H. lia.
        -- constructor; [lia|].
           eapply Forall_impl; [|exact Hle]. cbn. intros r' H _. exact H.
      * unfold isBefore in Ea. apply Z.ltb_ge in Ea.
        destruct (IH (S i))
          as [[E Hall]|[(r0 & Hin0 & Hlt & Hno & Hmin & E)
                       |(r0 & Hin0 & Hi0 & Hmin & Hrest)]].
        -- left. split; [exact E|constructor; auto].
        -- right. left. exists r0.
           split; [right; exact Hin0|]. split; [exact Hlt|].
           split; [constructor; assumption|].
           split; [constructor; [lia|exact Hmin]|exact E].
        -- right. right. exists r0.
           split; [right; exact Hin0|]. split; [exact Hi0|].
           split; [constructor; [tauto|exact Hmin]|exact Hrest].
Qed.

Lemma status_outcome (today : jsstring) (tomorrow : option jsstring)
      (now : Instant) :
  let st := getElectricityStatus today tomorrow now in
  let td := todayRangesOf today now in
  let tm := tomorrowRangesOf tomorrow now in
  (isOn st = true
   /\ Forall (fun r => ~ inside now r /\ start r <= now) td
   /\ match tm with
      | [] => minutesUntilChange st = None /\ isTomorrow st = false
      | t :: _ =>
          minutesUntilChange st = Some (diffMinutes (start t) now)
          /\ isTomorrow st = true
      end)
  \/ (exists r,
        In r td /\ now < start r
        /\ Forall (fun r' => ~ inside now r') td
        /\ Forall (fun r' => now < start r' -> start r <= start r') td
        /\ isOn st = true /\ isTomorrow st = false
        /\ minutesUntilChange st = Some (diffMinutes (start r) now))
  \/ (exists r,
        In r td /\ inside now r
        /\ Forall (fun r' => inside now r' -> start r <= start r') td
        /\ isOn st = false
        /\ ((isTomorrow st = false
             /\ minutesUntilChange st = Some (diffMinutes (end_ r) now))
            \/ (isTomorrow st = true
                /\ exists t,
                     hd_error tm = Some t
                     /\ minutesUntilChange st
                        = Some (diffMinutes (end_ t) now)))).
Proof.
  cbv zeta. rewrite getElectricityStatus_unfold. cbv zeta.
  set (tm := tomorrowRangesOf tomorrow now).
  set (td := todayRangesOf today now).
  set (st0 := mkStatus _ _ _ _ _).
  destruct (checkToday_outcome (startOfDay now) now tm (length td) st0 td 0
              (startOfDay_bounds now) (today_parsedOn today now)
              (parse_sorted today (startOfDay now)))
    as [[E Hall]|[(r & Hin & Hlt & Hno & Hmin & E)
                 |(r & Hin & Hi & Hmin & Hon & Hrest)]].
  - left. rewrite E. unfold pastToday. cbn [minutesUntilChange st0].
    destruct tm as [|t tm']; cbn; auto.
  - right. left. exists r. rewrite E. unfold pastToday. cbn. auto 10.
  - right. right. exists r.
    assert (pastToday now tm (checkToday now tm (length td) 0 td st0)
            = checkToday now tm (length td) 0 td st0) as ->.
    { unfold pastToday.
      destruct Hrest as [[_ ->]|[_ (t & _ & ->)]]; reflexivity. }
    split; [exact Hin|]. split; [exact Hi|]. split; [exact Hmin|].
    split; [exact Hon|]. destruct Hrest as [[Ht Hm]|Hrest]; auto.
Qed.





